(** * Smart Home Energy Monitor: calculation and reporting pipeline

    A shallow embedding of [energy_monitor/calculations.py],
    [energy_monitor/models.py], [energy_monitor/reporting.py],
    [energy_monitor/storage.py], [energy_monitor/cli.py] and of the prompts,
    the alert step and the cost report file of [main.py].

    Python's [float] is IEEE-754 binary64.  The code is written once, over the
    small arithmetic interface [PyFloat] that the source uses ([+], [*], [/],
    the comparisons, literals and fixed-point formatting), and is run on two
    instances:
    - [binary64]: Rocq's primitive floats, the arithmetic the program really
      performs (same format, same rounding);
    - [rational]: the rationals, the exact arithmetic that the program
      approximates. *)

From Stdlib Require Import ZArith QArith Floats Uint63 String Ascii List Lia
  Permutation Sorted DecimalString.
From Stdlib Require Import Qpower Lqa.
From Stdlib Require OrderedTypeEx.
From stdpp Require Import list gmap strings.
Import ListNotations.

Set Warnings "-inexact-float".

Local Open Scope list_scope.
Local Open Scope string_scope.

(** ** The arithmetic interface of a Python float *)

Class PyFloat (num : Type) : Type := {
  fadd : num -> num -> num;
  fmul : num -> num -> num;
  fdiv : num -> num -> num;
  (** [x < y] and [x <= y] *)
  flt : num -> num -> bool;
  fle : num -> num -> bool;
  (** an integer used where a float is expected, and integer-valued literals *)
  of_int : Z -> num;
  (** the literal [0.25] *)
  quarter : num;
  (** [f"{x:.Nf}"] *)
  format_fixed : nat -> num -> string
}.

Declare Scope num_scope.
Delimit Scope num_scope with num.
Infix "+" := fadd : num_scope.
Infix "*" := fmul : num_scope.
Infix "/" := fdiv : num_scope.
Infix "<?" := flt : num_scope.
Infix "<=?" := fle : num_scope.
(** Python evaluates [x > y] on floats as [y < x], and [x >= y] as [y <= x]. *)
Notation "x >? y" := (flt y x) (at level 70) : num_scope.
Notation "x >=? y" := (fle y x) (at level 70) : num_scope.

(** *** Fixed-point formatting *)

(** [n] copies of a one-character string. *)
Fixpoint repeat_string (s : string) (n : nat) : string :=
  match n with
  | O => ""
  | S n' => s ++ repeat_string s n'
  end.

Definition string_of_N (n : N) : string :=
  NilZero.string_of_uint (N.to_uint n).

(** The last [k] characters and what precedes them. *)
Definition split_last (k : nat) (s : string) : string * string :=
  let n := String.length s in
  (substring 0 (n - k) s, substring (n - k) k s).

(** Digits of a non-negative rational rounded to [k] decimals, ties to even,
    as the correctly rounded conversion of [format] does. *)
Definition format_fixed_nonneg (k : nat) (q : Q) : string :=
  let scaled := (Qnum q * 10 ^ Z.of_nat k)%Z in
  let d := Zpos (Qden q) in
  let lo := (scaled / d)%Z in
  let r := (scaled mod d)%Z in
  let up := match (2 * r ?= d)%Z with
            | Gt => true
            | Eq => Z.odd lo
            | Lt => false
            end in
  let m := Z.to_N (if up then lo + 1 else lo)%Z in
  let digits := string_of_N m in
  let padded := repeat_string "0" (S k - String.length digits) ++ digits in
  let (int_part, frac_part) := split_last k padded in
  match k with
  | O => int_part
  | _ => int_part ++ "." ++ frac_part
  end.

Definition format_fixed_Q (k : nat) (q : Q) : string :=
  if Qle_bool 0 q then format_fixed_nonneg k q
  else "-" ++ format_fixed_nonneg k (Qopp q).

(** The exact value of a finite binary64 number [m * 2^e]. *)
Definition Q_of_finite (m : positive) (e : Z) : Q :=
  match e with
  | Z0 => inject_Z (Zpos m)
  | Zpos p => inject_Z (Zpos m * 2 ^ Zpos p)
  | Zneg p => Qmake (Zpos m) (2 ^ p)
  end.

Definition format_fixed_float (k : nat) (x : float) : string :=
  match Prim2SF x with
  | S754_nan => "nan"
  | S754_infinity s => if s then "-inf" else "inf"
  | S754_zero s => (if s then "-" else "") ++ format_fixed_nonneg k 0
  | S754_finite s m e =>
      (if s then "-" else "") ++ format_fixed_nonneg k (Q_of_finite m e)
  end.

(** *** The two instances *)

Definition float_of_int (z : Z) : float :=
  match z with
  | Z0 => PrimFloat.zero
  | Zpos _ => PrimFloat.of_uint63 (Uint63.of_Z z)
  | Zneg p => PrimFloat.opp (PrimFloat.of_uint63 (Uint63.of_Z (Zpos p)))
  end.

#[export] Instance binary64 : PyFloat float := {
  fadd := PrimFloat.add;
  fmul := PrimFloat.mul;
  fdiv := PrimFloat.div;
  flt := PrimFloat.ltb;
  fle := PrimFloat.leb;
  of_int := float_of_int;
  quarter := 0.25%float;
  format_fixed := format_fixed_float
}.

Definition Qlt_bool (x y : Q) : bool := negb (Qle_bool y x).

#[export] Instance rational : PyFloat Q := {
  fadd := Qplus;
  fmul := Qmult;
  fdiv := Qdiv;
  flt := Qlt_bool;
  fle := Qle_bool;
  of_int := inject_Z;
  quarter := 1 # 4;
  format_fixed := format_fixed_Q
}.

(** ** models.py *)

Record Device (num : Type) : Type := mkDevice {
  device_id : string;
  name : string;
  wattage : num;
  avg_hours_per_day : num;
  room_location : string
}.
Arguments mkDevice {num}.
Arguments device_id {num}.
Arguments name {num}.
Arguments wattage {num}.
Arguments avg_hours_per_day {num}.
Arguments room_location {num}.

(** ** calculations.py *)

(** A call either returns or raises [ValueError] with a message. *)
Inductive result (A : Type) : Type :=
| Returns (a : A)
| ValueError (msg : string).
Arguments Returns {A}.
Arguments ValueError {A}.

Definition raised {A : Type} (r : result A) : bool :=
  match r with
  | Returns _ => false
  | ValueError _ => true
  end.

Section Calculations.
Context {num : Type} `{PyFloat num}.
Local Open Scope num_scope.

Definition DAYS_PER_WEEK : num := of_int 7.
Definition DAYS_PER_MONTH : num := of_int 30.

Definition validate_price_per_kwh (price : num) : result unit :=
  if price <=? of_int 0
  then ValueError "Price per kWh must be greater than 0."
  else Returns tt.

Definition validate_device_values (wattage hours : num) : result unit :=
  if wattage <=? of_int 0
  then ValueError "Wattage must be greater than 0."
  else if hours <? of_int 0
  then ValueError "Average hours per day cannot be negative."
  else if hours >? of_int 24
  then ValueError "Average hours per day cannot exceed 24."
  else Returns tt.

Definition daily_kwh (wattage_w hours_per_day : num) : num :=
  (wattage_w * hours_per_day) / of_int 1000.

Definition cost_for_kwh (kwh price_per_kwh : num) : num :=
  kwh * price_per_kwh.

Definition daily_cost (wattage_w hours_per_day price_per_kwh : num) : num :=
  cost_for_kwh (daily_kwh wattage_w hours_per_day) price_per_kwh.

Definition weekly_cost (wattage_w hours_per_day price_per_kwh : num) : num :=
  daily_cost wattage_w hours_per_day price_per_kwh * DAYS_PER_WEEK.

Definition monthly_cost (wattage_w hours_per_day price_per_kwh : num) : num :=
  daily_cost wattage_w hours_per_day price_per_kwh * DAYS_PER_MONTH.

Definition monthly_kwh (wattage_w hours_per_day : num) : num :=
  daily_kwh wattage_w hours_per_day * DAYS_PER_MONTH.
End Calculations.

(** ** Python strings and lists *)

Definition newline : string := String (ascii_of_nat 10) "".

(** [sep.join(l)] *)
Fixpoint join (sep : string) (l : list string) : string :=
  match l with
  | [] => ""
  | [x] => x
  | x :: l' => x ++ sep ++ join sep l'
  end.

(** [s.ljust(w)]: pads with spaces on the right, never truncates. *)
Definition ljust (s : string) (w : nat) : string :=
  s ++ repeat_string " " (w - String.length s).

(** [s.lower()] on ASCII letters. *)
Definition lower_ascii (c : ascii) : ascii :=
  let n := nat_of_ascii c in
  if (65 <=? n)%nat && (n <=? 90)%nat then ascii_of_nat (n + 32) else c.

Fixpoint lower (s : string) : string :=
  match s with
  | EmptyString => EmptyString
  | String c s' => String (lower_ascii c) (lower s')
  end.

(** [list.sort(key=..., reverse=...)] and [sorted], as CPython 3.11 runs them
    on a list of fewer than 64 elements, comparing keys with [<] only.  Such
    a list is sorted as one run: [count_run] takes the longest prefix that
    is ascending, or strictly descending, a descending prefix is reversed,
    and [binarysort] inserts the remaining elements one by one at the slot
    found by binary search.  With [reverse=True] the list is reversed,
    sorted and reversed again.

    A list of 64 elements or more is cut into runs of 32 to 64 elements that
    are sorted in this way and then merged.  When [<] orders the keys
    totally the result is the same, since the sort is stable; for such a
    list with keys that are not ordered totally (NaN) the merge is not
    described here. *)
Section ListSort.
Context {A K : Type} (lt : K -> K -> bool) (key : A -> K).

(** The elements after [prev] that continue the run. *)
Fixpoint run_length (descending : bool) (prev : A) (rest : list A) : nat :=
  match rest with
  | [] => 0
  | x :: rest' =>
      if Bool.eqb (lt (key x) (key prev)) descending
      then S (run_length descending x rest')
      else 0
  end.

(** The length of the run at the start of the list, and whether it is
    strictly descending. *)
Definition count_run (l : list A) : nat * bool :=
  match l with
  | [] => (0, false)
  | [x] => (1, false)
  | x :: y :: rest =>
      let descending := lt (key y) (key x) in
      (2 + run_length descending y rest, descending)
  end.

(** The slot of [pivot] between [l] and [r]: the loop
    [do { p = l + ((r - l) >> 1); if (pivot < *p) r = p; else l = p + 1; }
     while (l < r)], which takes at most [r - l] steps. *)
Fixpoint binary_search (steps : nat) (pivot : K) (sorted : list A) (l r : nat)
  : nat :=
  match steps with
  | 0 => l
  | S steps' =>
      if (l <? r)%nat then
        let p := (l + Nat.div2 (r - l))%nat in
        match nth_error sorted p with
        | Some y =>
            if lt pivot (key y) then binary_search steps' pivot sorted l p
            else binary_search steps' pivot sorted (S p) r
        | None => l
        end
      else l
  end.

(** One step of [binarysort]: [x] is moved to its slot. *)
Definition binary_insert (sorted : list A) (x : A) : list A :=
  let slot := binary_search (length sorted) (key x) sorted 0 (length sorted) in
  take slot sorted ++ x :: drop slot sorted.

Definition binarysort (sorted rest : list A) : list A :=
  fold_left binary_insert rest sorted.

(** The sort of one run. *)
Definition sort_run (l : list A) : list A :=
  let '(n, descending) := count_run l in
  let run := take n l in
  binarysort (if descending then rev run else run) (drop n l).

Definition list_sort (reverse : bool) (l : list A) : list A :=
  if reverse then rev (sort_run (rev l)) else sort_run l.

(** The stable insertion sort that takes the elements from left to right
    and places each after the elements already there that are not greater;
    a reference for [list_sort] on keys that are ordered totally. *)
Fixpoint insert_right (x : A) (sorted : list A) : list A :=
  match sorted with
  | [] => [x]
  | y :: ys => if lt (key x) (key y) then x :: y :: ys
               else y :: insert_right x ys
  end.

Definition sort_ascending (l : list A) : list A :=
  fold_left (fun sorted x => insert_right x sorted) l [].

(** The first slot whose element is above [pivot]. *)
Fixpoint insertion_point (pivot : K) (sorted : list A) : nat :=
  match sorted with
  | [] => 0
  | y :: ys => if lt pivot (key y) then 0 else S (insertion_point pivot ys)
  end.

(** Reference notions for the statements about sorting. *)

(** Neither key is below the other. *)
Definition same_key (k : K) (a : A) : bool :=
  negb (lt k (key a)) && negb (lt (key a) k).

(** No later element is below an earlier one. *)
Definition ascending : list A -> Prop :=
  StronglySorted (fun a b => lt (key b) (key a) = false).

(** No later element is above an earlier one. *)
Definition descending : list A -> Prop :=
  StronglySorted (fun a b => lt (key a) (key b) = false).
End ListSort.

(** A [dict] with string keys, in insertion order. *)
Definition dict (V : Type) : Type := list (string * V).

Definition dict_get {V : Type} (m : dict V) (k : string) : option V :=
  snd <$> List.find (fun kv => String.eqb (fst kv) k) m.

Definition dict_keys {V : Type} (m : dict V) : list string := map fst m.
Definition dict_values {V : Type} (m : dict V) : list V := map snd m.

(** ** reporting.py *)

Definition POWER_SAVING : string :=
  "Consider using Power Saving Mode or reducing on-time (>12h/day).".
Definition OFF_PEAK : string :=
  "High wattage device: run during off-peak hours if available.".
Definition SANITY_CHECK : string :=
  "Usage is very low; verify hours/day is correct (data sanity check).".

(** The rows of [device_cost_rows]: a dict with these nine keys. *)
Record CostRow : Type := mkCostRow {
  row_id : string;
  row_name : string;
  row_room : string;
  row_wattage_w : string;
  row_hours_day : string;
  row_daily_kwh : string;
  row_daily_cost : string;
  row_weekly_cost : string;
  row_monthly_cost : string
}.

(** The dict returned by [totals], with keys "daily", "weekly", "monthly". *)
Record Totals (num : Type) : Type := mkTotals {
  daily : num;
  weekly : num;
  monthly : num
}.
Arguments mkTotals {num}.
Arguments daily {num}.
Arguments weekly {num}.
Arguments monthly {num}.

(** *** format_table *)

(** [widths[i] = max(widths[i], len(cell))]; [None] is the IndexError of an
    index out of range. *)
Definition widen (widths : list nat) (i : nat) (cell : string) : option (list nat) :=
  match widths !! i with
  | Some w => Some (<[i := Nat.max w (String.length cell)]> widths)
  | None => None
  end.

(** [for i, cell in enumerate(r)], from index [i] on. *)
Fixpoint widen_row (widths : list nat) (i : nat) (r : list string) : option (list nat) :=
  match r with
  | [] => Some widths
  | cell :: r' =>
      match widen widths i cell with
      | Some widths' => widen_row widths' (S i) r'
      | None => None
      end
  end.

Fixpoint widen_rows (widths : list nat) (rows : list (list string)) : option (list nat) :=
  match rows with
  | [] => Some widths
  | r :: rows' =>
      match widen_row widths 0 r with
      | Some widths' => widen_rows widths' rows'
      | None => None
      end
  end.

Definition column_widths (headers : list string) (rows : list (list string))
  : option (list nat) :=
  widen_rows (map String.length headers) rows.

(** [r[i].ljust(widths[i])] *)
Definition fmt_cell (widths : list nat) (r : list string) (i : nat) : option string :=
  match r !! i, widths !! i with
  | Some cell, Some w => Some (ljust cell w)
  | _, _ => None
  end.

(** [fmt_row], for a table of [n] headers. *)
Definition fmt_row (n : nat) (widths : list nat) (r : list string) : option string :=
  join " | " <$> mapM (fmt_cell widths r) (seq 0 n).

Definition separator (widths : list nat) : string :=
  join "-+-" (map (repeat_string "-") widths).

(** The list [out] of [format_table]. *)
Definition format_table_lines (headers : list string) (rows : list (list string))
  : option (list string) :=
  widths ← column_widths headers rows;
  head ← fmt_row (length headers) widths headers;
  body ← mapM (fmt_row (length headers) widths) rows;
  Some (head :: separator widths :: body).

Definition format_table (headers : list string) (rows : list (list string))
  : option string :=
  join newline <$> format_table_lines headers rows.

Section Reporting.
Context {num : Type} `{PyFloat num}.
Local Open Scope num_scope.

Definition efficiency_suggestions (device : Device num) : list string :=
  let suggestions := [] in
  let suggestions :=
    if avg_hours_per_day device >? of_int 12
    then (suggestions ++ [POWER_SAVING])%list else suggestions in
  let suggestions :=
    if wattage device >=? of_int 1000
    then (suggestions ++ [OFF_PEAK])%list else suggestions in
  let suggestions :=
    if (of_int 0 <? avg_hours_per_day device)
       && (avg_hours_per_day device <=? quarter)
    then (suggestions ++ [SANITY_CHECK])%list else suggestions in
  suggestions.

Definition alert_message (d : Device num) (mkwh monthly_kwh_threshold : num) : string :=
  "ALERT: " ++ device_id d ++ " '" ++ name d ++ "' in " ++ room_location d
    ++ " uses ~" ++ format_fixed 2 mkwh ++ " kWh/month "
    ++ "(threshold " ++ format_fixed 2 monthly_kwh_threshold ++ ").".

Definition high_usage_alerts (devices : list (Device num))
    (monthly_kwh_threshold : num) : list string :=
  fold_left
    (fun alerts d =>
       let mkwh := monthly_kwh (wattage d) (avg_hours_per_day d) in
       if mkwh >? monthly_kwh_threshold
       then (alerts ++ [alert_message d mkwh monthly_kwh_threshold])%list
       else alerts)
    devices [].

Definition device_cost_row (d : Device num) (price_per_kwh : num) : CostRow :=
  {| row_id := device_id d;
     row_name := name d;
     row_room := room_location d;
     row_wattage_w := format_fixed 0 (wattage d);
     row_hours_day := format_fixed 2 (avg_hours_per_day d);
     row_daily_kwh := format_fixed 3 (daily_kwh (wattage d) (avg_hours_per_day d));
     row_daily_cost :=
       format_fixed 2 (daily_cost (wattage d) (avg_hours_per_day d) price_per_kwh);
     row_weekly_cost :=
       format_fixed 2 (weekly_cost (wattage d) (avg_hours_per_day d) price_per_kwh);
     row_monthly_cost :=
       format_fixed 2 (monthly_cost (wattage d) (avg_hours_per_day d) price_per_kwh) |}.

Definition device_cost_rows (devices : list (Device num)) (price_per_kwh : num)
  : list CostRow :=
  fold_left (fun rows d => (rows ++ [device_cost_row d price_per_kwh])%list) devices [].

Definition totals (devices : list (Device num)) (price_per_kwh : num) : Totals num :=
  fold_left
    (fun t d =>
       {| daily := daily t
            + daily_cost (wattage d) (avg_hours_per_day d) price_per_kwh;
          weekly := weekly t
            + weekly_cost (wattage d) (avg_hours_per_day d) price_per_kwh;
          monthly := monthly t
            + monthly_cost (wattage d) (avg_hours_per_day d) price_per_kwh |})
    devices
    {| daily := of_int 0; weekly := of_int 0; monthly := of_int 0 |}.

(** [by_room[k] += c] on a [defaultdict(float)]: a missing key starts from
    [0.0] and is appended. *)
Fixpoint dict_add (by_room : dict num) (k : string) (c : num) : dict num :=
  match by_room with
  | [] => [(k, of_int 0 + c)]
  | (k', v) :: rest =>
      if String.eqb k' k then (k', v + c) :: rest
      else (k', v) :: dict_add rest k c
  end.

Definition room_monthly_totals (devices : list (Device num)) (price_per_kwh : num)
  : dict num :=
  fold_left
    (fun by_room d =>
       dict_add by_room (room_location d)
         (monthly_cost (wattage d) (avg_hours_per_day d) price_per_kwh))
    devices [].

(** The builtin [sum], which starts from [0]. *)
Definition sum (l : list num) : num := fold_left fadd l (of_int 0).

Definition TABLE_HEADERS : list string :=
  ["ID"; "Name"; "Room"; "W(W)"; "Hrs/Day"; "kWh/Day"; "Daily"; "Weekly"; "Monthly"].

Definition table_row (r : CostRow) : list string :=
  [row_id r; row_name r; row_room r; row_wattage_w r; row_hours_day r;
   row_daily_kwh r; row_daily_cost r; row_weekly_cost r; row_monthly_cost r].

Definition suggestion_lines (devices : list (Device num)) : list string :=
  flat_map
    (fun d =>
       match efficiency_suggestions d with
       | [] => []
       | sugg =>
           ("- " ++ device_id d ++ " " ++ name d ++ " (" ++ room_location d ++ "):")
             :: map (fun s => "    * " ++ s) sugg
       end)
    devices.

(** The list [report] of [build_cost_report_text]. *)
Definition cost_report_lines (devices : list (Device num))
    (price_per_kwh extra_daily_cost : num) : option (list string) :=
  let rows := device_cost_rows devices price_per_kwh in
  let headers := TABLE_HEADERS in
  let table_rows := map table_row rows in
  let t := totals devices price_per_kwh in
  let extra_weekly := extra_daily_cost * of_int 7 in
  let extra_monthly := extra_daily_cost * of_int 30 in
  table ← format_table headers table_rows;
  Some (app
     [ "SMART HOME ENERGY MONITOR - COST REPORT";
       "Price per kWh: " ++ format_fixed 4 price_per_kwh;
       "";
       table;
       "";
       "TOTALS (devices only):";
       "  Daily:   " ++ format_fixed 2 (daily t);
       "  Weekly:  " ++ format_fixed 2 (weekly t);
       "  Monthly: " ++ format_fixed 2 (monthly t);
       "";
       "ADDITIONAL COSTS (user provided):";
       "  Extra daily cost:   " ++ format_fixed 2 extra_daily_cost;
       "  Extra weekly cost:  " ++ format_fixed 2 extra_weekly;
       "  Extra monthly cost: " ++ format_fixed 2 extra_monthly;
       "";
       "GRAND TOTALS (devices + extra):";
       "  Daily:   " ++ format_fixed 2 (daily t + extra_daily_cost);
       "  Weekly:  " ++ format_fixed 2 (weekly t + extra_weekly);
       "  Monthly: " ++ format_fixed 2 (monthly t + extra_monthly);
       "";
       "EFFICIENCY SUGGESTIONS:" ]
     (suggestion_lines devices)).

Definition build_cost_report_text (devices : list (Device num))
    (price_per_kwh extra_daily_cost : num) : option string :=
  join newline <$> cost_report_lines devices price_per_kwh extra_daily_cost.

Definition build_monthly_forecast_text (devices : list (Device num))
    (price_per_kwh extra_daily_cost : num) : option string :=
  let room_totals := room_monthly_totals devices price_per_kwh in
  let extra_monthly := extra_daily_cost * of_int 30 in
  let headers := ["Room"; "Expected Monthly Cost"] in
  let rows :=
    map (fun '(room, cost) => [room; format_fixed 2 cost])
      (list_sort String.ltb (fun x : string * num => lower (fst x)) false room_totals) in
  let device_monthly_total := sum (dict_values room_totals) in
  let grand_total := device_monthly_total + extra_monthly in
  table ← format_table headers rows;
  Some (join newline
    [ "MONTHLY FORECAST (BY ROOM)";
      "Price per kWh: " ++ format_fixed 4 price_per_kwh;
      "";
      table;
      "";
      "Devices monthly total: " ++ format_fixed 2 device_monthly_total;
      "Extra monthly cost:    " ++ format_fixed 2 extra_monthly;
      "Forecast grand total:  " ++ format_fixed 2 grand_total ]).

(** The list [preds] of [build_predictions_text] before it is sorted. *)
Definition predictions (devices : list (Device num)) (price_per_kwh : num)
  : list (num * Device num * num) :=
  fold_left
    (fun preds d =>
       let mkwh := monthly_kwh (wattage d) (avg_hours_per_day d) in
       let mcost := mkwh * price_per_kwh in
       (preds ++ [(mcost, d, mkwh)])%list)
    devices [].

Definition pred_key (x : num * Device num * num) : num := fst (fst x).

(** [preds.sort(reverse=True, key=lambda x: x[0])] then [preds[:3]]. *)
Definition top3 (devices : list (Device num)) (price_per_kwh : num)
  : list (num * Device num * num) :=
  take 3 (list_sort flt pred_key true (predictions devices price_per_kwh)).

Definition prediction_line (rank : nat) (x : num * Device num * num) : string :=
  let '(mcost, d, mkwh) := x in
  string_of_N (N.of_nat rank) ++ ". " ++ device_id d ++ " " ++ name d
    ++ " (" ++ room_location d ++ ") -> " ++ format_fixed 2 mkwh ++ " kWh/mo, "
    ++ format_fixed 2 mcost ++ "/mo".

Definition build_predictions_text (devices : list (Device num))
    (price_per_kwh : num) : string :=
  join newline
    ([ "PREDICTIONS / INSIGHTS";
       "";
       "Top devices by expected monthly cost:" ]
     ++ imap (fun rank x => prediction_line (S rank) x) (top3 devices price_per_kwh)
     ++ [ "";
          "Note: This is a simple projection based on average daily hours (no time-series learning)." ])%list.
End Reporting.

(** ** main.py: the alert step *)

Section Main.
Context {num : Type} `{PyFloat num}.
Local Open Scope num_scope.

(** Alerts (only if threshold > 0). *)
Definition main_alerts (devices : list (Device num)) (threshold_kwh : num)
  : list string :=
  if threshold_kwh >? of_int 0
  then high_usage_alerts devices threshold_kwh
  else [].
End Main.

(** ** Reference values and sample inputs *)

(** The price [0.10] as Python reads it: the nearest binary64 number. *)
Definition p010 : float := 0.1%float.

(** The device of the end-to-end example. *)
Definition D1 : Device float :=
  mkDevice "D1" "Kettle" 1500%float 13%float "Kitchen".
Definition D1_exact : Device Q :=
  mkDevice "D1" "Kettle" 1500%Q 13%Q "Kitchen".
Definition D3_exact : Device Q :=
  mkDevice "D3" "Fridge" 150%Q 24%Q "Kitchen".

(** Four devices, two of which have the same projected cost. *)
Definition R1 : Device float := mkDevice "R1" "Heater" 1000%float 6%float "Hall".
Definition R2 : Device float := mkDevice "R2" "Oven" 2000%float 3%float "Kitchen".
Definition R4 : Device float := mkDevice "R4" "Lamp" 60%float 5%float "Hall".
Definition ranking_sample : list (Device float) := [R1; R4; D1; R2].

(** Four devices that pass the validation, at the price 0.10; the second
    one has an infinite wattage and 0 hours, hence an energy and a cost that
    are NaN. *)
Definition N1 : Device float := mkDevice "N1" "Lamp" 100%float 10%float "Hall".
Definition N2 : Device float := mkDevice "N2" "Heater" infinity 0%float "Hall".
Definition N3 : Device float := mkDevice "N3" "Oven" 1000%float 10%float "Kitchen".
Definition N4 : Device float := mkDevice "N4" "Fan" 500%float 10%float "Hall".
Definition nan_sample : list (Device float) := [N1; N2; N3; N4].

(** Three devices of two rooms, at the price 0.30. *)
Definition p030 : float := 0.3%float.
Definition L1 : Device float := mkDevice "L1" "Bulb" 15%float 5%float "Kitchen".
Definition L2 : Device float := mkDevice "L2" "Heater" 1500%float 13%float "Hall".
Definition L3 : Device float := mkDevice "L3" "Fridge" 150%float 24%float "Kitchen".

(** Three devices of one room. *)
Definition K1 : Device float := mkDevice "K1" "Kettle" 1500%float 13%float "Kitchen".
Definition K2 : Device float := mkDevice "K2" "Fridge" 150%float 24%float "Kitchen".
Definition K3 : Device float := mkDevice "K3" "Toaster" 1200%float 2%float "Kitchen".

(** Two devices of one room whose monthly costs are 10.0 and 20.0 at the
    price [p_third]. *)
Definition p_third : float := 0.3333333333333333%float.
Definition E1 : Device float := mkDevice "E1" "Heater" 1000%float 1%float "Hall".
Definition E2 : Device float := mkDevice "E2" "Boiler" 2000%float 1%float "Hall".

(** The total of a room; 0 for a room that is not in the dict. *)
Definition room_total {num : Type} `{PyFloat num} (m : dict num) (room : string)
  : num :=
  from_option id (of_int 0) (dict_get m room).

Definition in_room {num : Type} (room : string) (d : Device num) : bool :=
  String.eqb (room_location d) room.

(** [math.isfinite]: neither an infinity nor NaN. *)
Definition finite_number (x : float) : bool :=
  match Prim2SF x with
  | S754_zero _ | S754_finite _ _ _ => true
  | _ => false
  end.

(** Two floats agree within floating tolerance: [abs(x - y) <= 2**-40]. *)
Definition within_tolerance (x y : float) : bool :=
  PrimFloat.leb (PrimFloat.abs (PrimFloat.sub x y)) 0x1p-40%float.

(** ** Reference definitions for the statements about tables *)

(** Length of the cell of column [i]; 0 when the row has no such cell. *)
Definition cell_length (i : nat) (r : list string) : nat :=
  from_option String.length 0 (r !! i).

(** The maximum of the header length and all cell lengths in column [i]. *)
Definition max_column_width (headers : list string) (rows : list (list string))
    (i : nat) : nat :=
  max_list (cell_length i headers :: map (cell_length i) rows).

Definition max_column_widths (headers : list string) (rows : list (list string))
  : list nat :=
  map (max_column_width headers rows) (seq 0 (length headers)).

(** Cells left-justified to the column widths and joined by [" | "]. *)
Definition justified_row (widths : list nat) (r : list string) : string :=
  join " | " (zip_with ljust r widths).

(** The number of lines of a text: one more than its line breaks. *)
Fixpoint count_newlines (s : string) : nat :=
  match s with
  | EmptyString => 0
  | String c s' =>
      (if Ascii.eqb c (ascii_of_nat 10) then 1 else 0) + count_newlines s'
  end.

Definition line_count (s : string) : nat := S (count_newlines s).

(** ** More of Python's strings

    Characters stand for code points below 256. *)

(** [c.isspace()] *)
Definition is_space (c : ascii) : bool :=
  let n := nat_of_ascii c in
  ((9 <=? n)%nat && (n <=? 13)%nat) || ((28 <=? n)%nat && (n <=? 32)%nat)
  || (n =? 133)%nat || (n =? 160)%nat.

Fixpoint lstrip (s : string) : string :=
  match s with
  | EmptyString => EmptyString
  | String c s' => if is_space c then lstrip s' else s
  end.

Fixpoint rstrip (s : string) : string :=
  match s with
  | EmptyString => EmptyString
  | String c s' =>
      match rstrip s' with
      | EmptyString => if is_space c then EmptyString else String c EmptyString
      | t => String c t
      end
  end.

(** [s.strip()] *)
Definition strip (s : string) : string := rstrip (lstrip s).

(** [s.split(sep)] for a separator of one character. *)
Fixpoint split_char (sep : ascii) (s : string) : list string :=
  match s with
  | EmptyString => [EmptyString]
  | String c s' =>
      if Ascii.eqb c sep then EmptyString :: split_char sep s'
      else match split_char sep s' with
           | part :: parts => String c part :: parts
           | [] => [String c EmptyString]
           end
  end.

(** The characters that end a line for [splitlines]. *)
Definition is_line_break (c : ascii) : bool :=
  let n := nat_of_ascii c in
  ((10 <=? n)%nat && (n <=? 13)%nat) || ((28 <=? n)%nat && (n <=? 30)%nat)
  || (n =? 133)%nat.

(** [s.splitlines()]: a carriage return followed by a line feed is one line
    break, and a final line break does not open an empty last line. *)
Fixpoint splitlines (s : string) : list string :=
  match s with
  | EmptyString => []
  | String c s' =>
      if is_line_break c then
        EmptyString ::
          (if Ascii.eqb c (ascii_of_nat 13) then
             match s' with
             | String c' s'' =>
                 if Ascii.eqb c' (ascii_of_nat 10) then splitlines s''
                 else splitlines s'
             | EmptyString => splitlines s'
             end
           else splitlines s')
      else match splitlines s' with
           | line :: lines => String c line :: lines
           | [] => [String c EmptyString]
           end
  end.

(** [s or default] *)
Definition or_default (s default : string) : string :=
  if String.eqb s "" then default else s.

(** ** storage.py *)

(** What [load_devices] returns or raises; a [ValueError] is the one of
    [validate_device_values]. *)
Inductive loaded (A : Type) : Type :=
| Loaded (a : A)
| FileNotFoundError (msg : string)
| DataFileError (msg : string)
| DeviceValueError (msg : string).
Arguments Loaded {A}.
Arguments FileNotFoundError {A}.
Arguments DataFileError {A}.
Arguments DeviceValueError {A}.

Section Storage.
Context {num : Type} `{PyFloat num}.

(** The builtin [float(s)]; [None] is its ValueError. *)
Variable float_of_string : string -> option num.

(** A line that the loop skips: blank, or a comment. *)
Definition skipped_line (raw : string) : bool :=
  let line := strip raw in
  String.eqb line "" || String.prefix "#" line.

(** The fields of a line, stripped. *)
Definition line_parts (raw : string) : list string :=
  map strip (split_char "|" (strip raw)).

(** The loop of [load_devices] from line [line_no] on, and what follows it. *)
Fixpoint load_lines (line_no : nat) (lines : list string)
    (devices : list (Device num)) (seen_ids : gset string)
  : loaded (list (Device num)) :=
  match lines with
  | [] =>
      match devices with
      | [] => DataFileError "No valid devices found in appliances file."
      | _ => Loaded devices
      end
  | raw :: lines' =>
      if skipped_line raw then load_lines (S line_no) lines' devices seen_ids
      else
        let parts := line_parts raw in
        match parts with
        | [device_id; name; wattage_s; hours_s; room] =>
            if String.eqb device_id "" then
              DataFileError
                ("Line " ++ string_of_N (N.of_nat line_no)
                   ++ ": device_id cannot be empty.")
            else if decide (device_id ∈ seen_ids) then
              DataFileError
                ("Line " ++ string_of_N (N.of_nat line_no)
                   ++ ": duplicate device_id '" ++ device_id ++ "'.")
            else
              match float_of_string wattage_s, float_of_string hours_s with
              | Some wattage, Some hours =>
                  match validate_device_values wattage hours with
                  | ValueError msg => DeviceValueError msg
                  | Returns _ =>
                      load_lines (S line_no) lines'
                        (devices
                           ++ [ {| device_id := device_id;
                                   name := or_default name "Unknown";
                                   wattage := wattage;
                                   avg_hours_per_day := hours;
                                   room_location := or_default room "Unknown" |} ])%list
                        (seen_ids ∪ {[ device_id ]})
                  end
              | _, _ =>
                  DataFileError
                    ("Line " ++ string_of_N (N.of_nat line_no)
                       ++ ": wattage and avg_hours_per_day must be numbers. "
                       ++ "Got wattage='" ++ wattage_s ++ "', hours='" ++ hours_s
                       ++ "'.")
              end
        | _ =>
            DataFileError
              ("Line " ++ string_of_N (N.of_nat line_no)
                 ++ ": expected 5 fields separated by '|', got "
                 ++ string_of_N (N.of_nat (length parts)) ++ ". "
                 ++ "Bad line: " ++ raw)
        end
  end.

(** [load_devices]; [files] gives the text of the files that exist. *)
Definition load_devices (files : string -> option string) (file_path : string)
  : loaded (list (Device num)) :=
  match files file_path with
  | None => FileNotFoundError ("Appliance file not found: " ++ file_path)
  | Some text => load_lines 1 (splitlines text) [] ∅
  end.
End Storage.

(** ** cli.py *)

(** What a prompt writes: the text shown by [input] and the lines printed. *)
Inductive output : Type :=
| Asked (text : string)
| Printed (text : string).

Section Cli.
Context {num : Type} `{PyFloat num}.
Local Open Scope num_scope.

(** The builtins [float(s)] ([None] is its ValueError) and [str(x)]. *)
Variable float_of_string : string -> option num.
Variable str_of_float : num -> string.

(** [prompt_float] on the lines still to be read from standard input.  It
    returns the value, or [None] for the EOFError of [input] when the input
    is exhausted, with the lines left and what was written. *)
Fixpoint prompt_float (prompt : string) (min_value : option num)
    (allow_zero : bool) (stdin : list string)
  : option num * list string * list output :=
  match stdin with
  | [] => (None, [], [Asked prompt])
  | entry :: stdin' =>
      let raw := strip entry in
      let retry (message : string) :=
        let '(val, unread, written) :=
          prompt_float prompt min_value allow_zero stdin' in
        (val, unread, Asked prompt :: Printed message :: written) in
      match float_of_string raw with
      | None => retry "Invalid number. Try again (example: 0.12)."
      | Some val =>
          match min_value with
          | Some min =>
              if allow_zero then
                if val <? min
                then retry ("Value must be >= " ++ str_of_float min ++ ".")%string
                else (Some val, stdin', [Asked prompt])
              else
                if val <=? min
                then retry ("Value must be > " ++ str_of_float min ++ ".")%string
                else (Some val, stdin', [Asked prompt])
          | None => (Some val, stdin', [Asked prompt])
          end
      end
  end.

(** [prompt_yes_no], in the same way. *)
Fixpoint prompt_yes_no (prompt : string) (stdin : list string)
  : option bool * list string * list output :=
  match stdin with
  | [] => (None, [], [Asked (prompt ++ " (y/n): ")%string])
  | entry :: stdin' =>
      let raw := lower (strip entry) in
      if String.eqb raw "y" || String.eqb raw "yes"
      then (Some true, stdin', [Asked (prompt ++ " (y/n): ")%string])
      else if String.eqb raw "n" || String.eqb raw "no"
      then (Some false, stdin', [Asked (prompt ++ " (y/n): ")%string])
      else
        let '(val, unread, written) := prompt_yes_no prompt stdin' in
        (val, unread,
         Asked (prompt ++ " (y/n): ")%string
           :: Printed "Please enter y or n." :: written)
  end.

(** ** main.py: the inputs and the cost report file *)

(** The price as [main] reads it. *)
Definition main_price (stdin : list string)
  : option num * list string * list output :=
  prompt_float "Enter price per kWh (example 0.12): " (Some (of_int 0)) false stdin.

(** The extra daily cost and the alert threshold as [main] reads them. *)
Definition main_extra_daily_cost (stdin : list string)
  : option num * list string * list output :=
  prompt_float
    "Enter additional fixed daily cost (service charge). If none, enter 0: "
    (Some (of_int 0)) true stdin.

Definition main_threshold (stdin : list string)
  : option num * list string * list output :=
  prompt_float
    "Enter monthly kWh threshold for alerts (example 50). If none, enter 0: "
    (Some (of_int 0)) true stdin.
End Cli.

(** The text that [main] writes to [costs_report.txt]. *)
Definition costs_report_file (cost_report : string) (alerts : list string) : string :=
  cost_report
    ++ match alerts with
       | [] => ""
       | _ => newline ++ newline ++ "ALERTS:" ++ newline ++ join newline alerts
       end.

(** The loop of [main] over the alerts: each alert is printed and followed by
    a question, and by the warning when the answer is yes.  [None] is the
    EOFError of [input]. *)
Definition REDUCTION_QUESTION : string :=
  "Do you want a reduction warning message for this device?".

Definition REDUCTION_WARNING : string :=
  "   REDUCE USAGE: Try lowering hours/day or using eco mode / timers." ++ newline.

Fixpoint main_alert_questions (alerts : list string) (stdin : list string)
  : option unit * list string * list output :=
  match alerts with
  | [] => (Some tt, stdin, [])
  | a :: alerts' =>
      let '(answer, unread, written) := prompt_yes_no REDUCTION_QUESTION stdin in
      let shown := (Printed (" - " ++ a) :: written)%list in
      match answer with
      | None => (None, unread, shown)
      | Some warn =>
          let '(done, unread', written') := main_alert_questions alerts' unread in
          (done, unread',
           (shown ++ (if warn then [Printed REDUCTION_WARNING] else [])
              ++ written')%list)
      end
  end.

(** What [main] prints for one alert whose question is answered at once. *)
Definition alert_block (a : string) (warn : bool) : list output :=
  ([ Printed (" - " ++ a); Asked (REDUCTION_QUESTION ++ " (y/n): ") ]
     ++ (if warn then [Printed REDUCTION_WARNING] else []))%list.

(** ** Reference definitions for the statements about files and prompts *)

(** What the loop of [load_devices] keeps true of the devices read so far. *)
Definition well_formed_device {num : Type} `{PyFloat num} (d : Device num) : Prop :=
  device_id d <> "" /\ name d <> "" /\ room_location d <> ""
  /\ validate_device_values (wattage d) (avg_hours_per_day d) = Returns tt.

(** A small appliance file, with a comment, a blank line, blanks around the
    fields and a missing name and room. *)
Definition sample_appliances : string :=
  "# id|name|wattage|hours|room" ++ newline
    ++ "D1 | Kettle | 1500 | 13 | Kitchen" ++ newline
    ++ newline
    ++ "D2||60|5|" ++ newline.

Definition sample_files (file_path : string) : option string :=
  if String.eqb file_path "appliances.txt" then Some sample_appliances else None.

(** The lines of a file that are not skipped. *)
Definition data_lines (lines : list string) : list string :=
  List.filter (fun raw => negb (skipped_line raw)) lines.

(** A field that [strip] leaves as it is and that has no separator in it. *)
Definition clean_field (s : string) : Prop :=
  strip s = s /\ ~ In "|"%char (list_ascii_of_string s).

(** A float parser for the examples: it reads strings of 1 to 15 decimal
    digits as [float] does and refuses every other string. *)
Definition float_of_digits (s : string) : option float :=
  if (1 <=? String.length s)%nat && (String.length s <=? 15)%nat then
    match NilZero.uint_of_string s with
    | Some d => Some (float_of_int (Z.of_N (N.of_uint d)))
    | None => None
    end
  else None.

(** What [prompt_float] does with one entry: the value it returns, or
    [None] when it asks again. *)
Definition accepted_float {num : Type} `{PyFloat num}
    (float_of_string : string -> option num) (min_value : option num)
    (allow_zero : bool) (entry : string) : option num :=
  match float_of_string (strip entry) with
  | None => None
  | Some val =>
      match min_value with
      | Some min =>
          if (if allow_zero then flt val min else fle val min) then None
          else Some val
      | None => Some val
      end
  end.

(** What [prompt_yes_no] does with one entry. *)
Definition accepted_yes_no (entry : string) : option bool :=
  let raw := lower (strip entry) in
  if String.eqb raw "y" || String.eqb raw "yes" then Some true
  else if String.eqb raw "n" || String.eqb raw "no" then Some false
  else None.



(** The width of every line of a table. *)
Definition table_width (widths : list nat) : nat :=
  sum_list widths + 3 * pred (length widths).

(** A number that is not below 0: a zero, a positive number or +infinity. *)
Definition not_negative (x : spec_float) : Prop :=
  match x with
  | S754_zero _ | S754_finite false _ _ | S754_infinity false => True
  | _ => False
  end.

(** ** Reference definitions for the statements about rounding *)

(** The value of a binary64 number in exact arithmetic; 0 for an infinity
    and for NaN. *)
Definition exact_value (x : float) : Q :=
  match Prim2SF x with
  | S754_finite false m e => Q_of_finite m e
  | S754_finite true m e => - Q_of_finite m e
  | _ => 0
  end.

(** A number above 0 that is not an infinity. *)
Definition positive_finite (x : float) : bool :=
  match Prim2SF x with
  | S754_finite false _ _ => true
  | _ => false
  end.

(** A normal number above 0: it has the full 53 bits of precision, which is
    the case from [2^-1022] on. *)
Definition positive_normal (x : float) : bool :=
  match Prim2SF x with
  | S754_finite false m _ => (2 ^ 52 <=? Z.pos m)%Z
  | _ => false
  end.

(** Half the distance between 1 and the next binary64 number. *)
Definition unit_roundoff : Q := 1 # (2 ^ 53).

(** Every partial sum of [acc + x1 + x2 + ...] is a normal number above 0. *)
Fixpoint sums_normal (acc : float) (l : list float) : bool :=
  match l with
  | [] => true
  | x :: l' =>
      positive_normal (acc + x)%float && sums_normal (acc + x)%float l'
  end.

(** What a shift record says of the number [m0] that was shifted by [k]
    bits: the bits that are left, and where the bits that were dropped lie
    with respect to half a unit. *)
Definition shifted (m0 k : Z) (mrs : shr_record) : Prop :=
  exists rem : Z,
    (0 <= rem < 2 ^ k
     /\ 0 <= shr_m mrs
     /\ m0 = shr_m mrs * 2 ^ k + rem
     /\ (shr_r mrs = true <-> 2 ^ k <= 2 * rem)
     /\ (shr_s mrs = true <-> rem <> 0 /\ 2 * rem <> 2 ^ k))%Z.

(** * Properties *)

(** ** Order and product of binary64 numbers

    Facts about the primitive comparisons and product, derived from their
    specification on [spec_float]. *)

Section Binary64.
Local Open Scope float_scope.

Lemma SFcompare_antisym (x y : spec_float) :
  SFcompare y x = option_map CompOpp (SFcompare x y).
Proof.
  destruct x as [sx | sx | | sx mx ex], y as [sy | sy | | sy my ey]; simpl;
    try (destruct sx); try (destruct sy); try reflexivity;
    change (Pos.compare_cont Eq ?a ?b) with (Pos.compare a b);
    rewrite (Z.compare_antisym ex ey), (Pos.compare_antisym mx my);
    destruct (ex ?= ey)%Z; simpl; try reflexivity;
    destruct (mx ?= my)%positive; reflexivity.
Qed.

Ltac cmp_cases :=
  repeat match goal with
    | H : context [Pos.compare_cont Eq ?a ?b] |- _ =>
        change (Pos.compare_cont Eq a b) with (Pos.compare a b) in H
    | |- context [Pos.compare_cont Eq ?a ?b] =>
        change (Pos.compare_cont Eq a b) with (Pos.compare a b)
    end;
  repeat match goal with
    | H : context [(?a ?= ?b)%Z] |- _ => destruct (Z.compare_spec a b)
    | |- context [(?a ?= ?b)%Z] => destruct (Z.compare_spec a b)
    | H : context [(?a ?= ?b)%positive] |- _ => destruct (Pos.compare_spec a b)
    | |- context [(?a ?= ?b)%positive] => destruct (Pos.compare_spec a b)
    end;
  simpl in *; try discriminate; try reflexivity; try lia.

Lemma SFleb_SFltb_trans (x y z : spec_float) :
  SFleb x y = true -> SFltb y z = true -> SFltb x z = true.
Proof.
  unfold SFleb, SFltb.
  destruct x as [sx | sx | | sx mx ex], y as [sy | sy | | sy my ey],
    z as [sz | sz | | sz mz ez]; simpl;
    try (destruct sx); try (destruct sy); try (destruct sz); simpl;
    try discriminate; try reflexivity; intros; cmp_cases.
Qed.

Lemma SFleb_trans (x y z : spec_float) :
  SFleb x y = true -> SFleb y z = true -> SFleb x z = true.
Proof.
  unfold SFleb.
  destruct x as [sx | sx | | sx mx ex], y as [sy | sy | | sy my ey],
    z as [sz | sz | | sz mz ez]; simpl;
    try (destruct sx); try (destruct sy); try (destruct sz); simpl;
    try discriminate; try reflexivity; intros; cmp_cases.
Qed.

Lemma SFcompare_refl (x : spec_float) :
  x <> S754_nan -> SFcompare x x = Some Eq.
Proof.
  destruct x as [sx | sx | | sx mx ex]; simpl; intros Hx;
    try (destruct sx); try reflexivity; try congruence;
    rewrite Z.compare_refl;
    change (Pos.compare_cont Eq mx mx) with (Pos.compare mx mx);
    rewrite Pos.compare_refl; reflexivity.
Qed.

Lemma SFcompare_total (x y : spec_float) :
  x <> S754_nan -> y <> S754_nan -> SFcompare x y <> None.
Proof.
  destruct x as [sx | sx | | sx mx ex], y as [sy | sy | | sy my ey]; simpl;
    congruence.
Qed.

Lemma not_nan_spec (x : float) :
  PrimFloat.is_nan x = false -> Prim2SF x <> S754_nan.
Proof.
  unfold PrimFloat.is_nan. rewrite FloatAxioms.eqb_spec. unfold SFeqb.
  intros Hx Hnan. rewrite Hnan in Hx. discriminate.
Qed.

Lemma ltb_leb (x y : float) : (x <? y) = true -> (x <=? y) = true.
Proof.
  rewrite FloatAxioms.ltb_spec, FloatAxioms.leb_spec. unfold SFltb, SFleb.
  destruct (SFcompare (Prim2SF x) (Prim2SF y)) as [[ | | ] | ]; congruence.
Qed.

Lemma leb_ltb_trans (x y z : float) :
  (x <=? y) = true -> (y <? z) = true -> (x <? z) = true.
Proof. rewrite FloatAxioms.leb_spec, !FloatAxioms.ltb_spec. apply SFleb_SFltb_trans. Qed.

Lemma ltb_trans (x y z : float) :
  (x <? y) = true -> (y <? z) = true -> (x <? z) = true.
Proof. intros Hxy. apply leb_ltb_trans, ltb_leb, Hxy. Qed.

Lemma ltb_irrefl (x : float) : (x <? x) = false.
Proof.
  rewrite FloatAxioms.ltb_spec. unfold SFltb.
  destruct (Prim2SF x) as [sx | sx | | sx mx ex] eqn:E;
    try reflexivity; rewrite SFcompare_refl by congruence; reflexivity.
Qed.

(** [x < y] excludes [y <= x], and [x <= y] excludes [y < x]. *)
Lemma ltb_not_leb (x y : float) : (x <? y) = true -> (y <=? x) = false.
Proof.
  rewrite FloatAxioms.ltb_spec, FloatAxioms.leb_spec. unfold SFltb, SFleb.
  rewrite (SFcompare_antisym (Prim2SF x) (Prim2SF y)).
  destruct (SFcompare (Prim2SF x) (Prim2SF y)) as [[ | | ] | ];
    simpl; congruence.
Qed.

Lemma leb_not_ltb (x y : float) : (x <=? y) = true -> (y <? x) = false.
Proof.
  intros Hxy. destruct (y <? x) eqn:E; [ | reflexivity ].
  apply ltb_not_leb in E. congruence.
Qed.

(** Numbers other than NaN are totally ordered. *)
Lemma not_ltb_leb (x y : float) :
  PrimFloat.is_nan x = false -> PrimFloat.is_nan y = false ->
  (x <? y) = false -> (y <=? x) = true.
Proof.
  intros Hx%not_nan_spec Hy%not_nan_spec.
  rewrite FloatAxioms.ltb_spec, FloatAxioms.leb_spec. unfold SFltb, SFleb.
  rewrite (SFcompare_antisym (Prim2SF x) (Prim2SF y)).
  pose proof (SFcompare_total _ _ Hx Hy) as Ht.
  destruct (SFcompare (Prim2SF x) (Prim2SF y)) as [[ | | ] | ];
    simpl; congruence.
Qed.

Lemma leb_trans (x y z : float) :
  (x <=? y) = true -> (y <=? z) = true -> (x <=? z) = true.
Proof. rewrite !FloatAxioms.leb_spec. apply SFleb_trans. Qed.

(** On numbers other than NaN, "not below" is transitive. *)
Lemma not_ltb_trans (x y z : float) :
  PrimFloat.is_nan x = false -> PrimFloat.is_nan y = false ->
  PrimFloat.is_nan z = false ->
  (x <? y) = false -> (y <? z) = false -> (x <? z) = false.
Proof.
  intros Hx Hy Hz Hxy Hyz. apply leb_not_ltb.
  apply (leb_trans z y x); apply not_ltb_leb; assumption.
Qed.

(** [x == y] holds exactly when neither is below the other. *)
Lemma eqb_ltb (x y : float) :
  PrimFloat.is_nan x = false -> PrimFloat.is_nan y = false ->
  (x =? y) = negb (x <? y) && negb (y <? x).
Proof.
  intros Hx%not_nan_spec Hy%not_nan_spec.
  rewrite FloatAxioms.eqb_spec, !FloatAxioms.ltb_spec. unfold SFeqb, SFltb.
  rewrite (SFcompare_antisym (Prim2SF x) (Prim2SF y)).
  pose proof (SFcompare_total _ _ Hx Hy) as Ht.
  destruct (SFcompare (Prim2SF x) (Prim2SF y)) as [[ | | ] | ];
    simpl; congruence.
Qed.

Lemma ltb_neq (x y : float) : (x <? y) = true -> x <> y.
Proof. intros Hlt E. subst y. rewrite ltb_irrefl in Hlt. discriminate. Qed.

Lemma SFmul_comm (x y : spec_float) : SF64mul x y = SF64mul y x.
Proof.
  unfold SF64mul.
  destruct x as [sx | sx | | sx mx ex], y as [sy | sy | | sy my ey]; simpl;
    rewrite ?(xorb_comm sy sx); try reflexivity.
  now rewrite (Pos.mul_comm my mx), (Z.add_comm ey ex).
Qed.

Lemma mul_comm (x y : float) : x * y = y * x.
Proof. apply Prim2SF_inj. rewrite !FloatAxioms.mul_spec. apply SFmul_comm. Qed.
End Binary64.

(** ** Products and quotients that are numbers

    Rounding a non-negative mantissa never gives NaN, so the product of two
    finite numbers, and the product or quotient of a number by a finite
    number other than 0, are numbers. *)

Section NotNaN.
Local Open Scope Z_scope.

Lemma shr_1_nonneg (mrs : shr_record) : 0 <= shr_m mrs -> 0 <= shr_m (shr_1 mrs).
Proof.
  destruct mrs as [ m r s ]. destruct m as [ | [ p | p | ] | p ]; simpl; lia.
Qed.

Lemma iter_shr_1_nonneg (p : positive) :
  forall mrs, 0 <= shr_m mrs -> 0 <= shr_m (SpecFloat.iter_pos shr_1 p mrs).
Proof.
  induction p as [ p IH | p IH | ]; intros mrs Hm; simpl.
  - apply IH, IH, shr_1_nonneg, Hm.
  - apply IH, IH, Hm.
  - apply shr_1_nonneg, Hm.
Qed.

Lemma shr_fexp_nonneg (m e : Z) (l : location) :
  0 <= m -> 0 <= shr_m (fst (shr_fexp prec emax m e l)).
Proof.
  intros Hm. unfold shr_fexp, shr.
  assert (Hrec : 0 <= shr_m (shr_record_of_loc m l))
    by (destruct l as [ | [ | | ] ]; exact Hm).
  destruct (fexp prec emax (Zdigits2 m + e) - e); simpl;
    [ exact Hrec | apply iter_shr_1_nonneg, Hrec | exact Hrec ].
Qed.

Lemma round_nearest_even_nonneg (m : Z) (l : location) :
  0 <= m -> 0 <= round_nearest_even m l.
Proof.
  intros Hm. destruct l as [ | [ | | ] ]; simpl; try lia.
  destruct (Z.even m); lia.
Qed.

Lemma binary_round_aux_not_nan (sx : bool) (mx ex : Z) (lx : location) :
  0 <= mx -> binary_round_aux prec emax sx mx ex lx <> S754_nan.
Proof.
  intros Hm. unfold binary_round_aux.
  pose proof (shr_fexp_nonneg mx ex lx Hm) as H1.
  destruct (shr_fexp prec emax mx ex lx) as [ mrs' e' ]. simpl in H1.
  pose proof (shr_fexp_nonneg _ e' loc_Exact
                (round_nearest_even_nonneg _ (loc_of_shr_record mrs') H1)) as H2.
  destruct (shr_fexp prec emax
              (round_nearest_even (shr_m mrs') (loc_of_shr_record mrs')) e' loc_Exact)
    as [ mrs'' e'' ].
  simpl in H2. destruct (shr_m mrs'') as [ | m | m ]; try discriminate.
  - destruct (e'' <=? emax - prec); discriminate.
  - lia.
Qed.

Lemma SFmul_finite_r (x : spec_float) (s : bool) (m : positive) (e : Z) :
  x <> S754_nan -> SF64mul x (S754_finite s m e) <> S754_nan.
Proof.
  unfold SF64mul. destruct x as [ sx | sx | | sx mx ex ]; simpl; intros Hx;
    try discriminate; try congruence.
  apply binary_round_aux_not_nan. lia.
Qed.

Lemma SFmul_finite_numbers (x y : spec_float) :
  match x with S754_zero _ | S754_finite _ _ _ => True | _ => False end ->
  match y with S754_zero _ | S754_finite _ _ _ => True | _ => False end ->
  SF64mul x y <> S754_nan.
Proof.
  unfold SF64mul.
  destruct x as [ sx | sx | | sx mx ex ], y as [ sy | sy | | sy my ey ]; simpl;
    intros Hx Hy; try contradiction; try discriminate.
  apply binary_round_aux_not_nan. lia.
Qed.

Lemma SFdiv_finite_r (x : spec_float) (s : bool) (m : positive) (e : Z) :
  x <> S754_nan -> SF64div x (S754_finite s m e) <> S754_nan.
Proof.
  unfold SF64div. destruct x as [ sx | sx | | sx mx ex ]; simpl; intros Hx;
    try discriminate; try congruence.
  unfold SFdiv_core_binary.
  set (m' := match _ with Zpos _ => _ | Z0 => _ | Zneg _ => _ end).
  assert (Hm' : 0 <= m').
  { unfold m'. destruct (_ - _)%Z; try lia. apply Z.shiftl_nonneg. lia. }
  pose proof (Z.div_pos m' (Zpos m) Hm' ltac:(lia)) as Hq.
  unfold Z.div in Hq. destruct (Z.div_eucl m' (Z.pos m)) as [ q r ].
  apply binary_round_aux_not_nan. exact Hq.
Qed.

Lemma spec_not_nan (x : float) :
  Prim2SF x <> S754_nan -> PrimFloat.is_nan x = false.
Proof.
  intros Hx. unfold PrimFloat.is_nan. rewrite FloatAxioms.eqb_spec.
  unfold SFeqb. rewrite SFcompare_refl by exact Hx. reflexivity.
Qed.

(** The projected cost of a device with finite wattage and hours, at a
    finite price above 0, is a number. *)
Lemma finite_costs_not_nan (w h p : float) :
  finite_number w = true -> finite_number h = true ->
  finite_number p = true -> PrimFloat.ltb 0 p = true ->
  PrimFloat.is_nan (monthly_kwh w h * p)%num = false.
Proof.
  intros Hw Hh Hp Hpos. apply spec_not_nan.
  unfold monthly_kwh, daily_kwh, DAYS_PER_MONTH.
  cbn [fmul fdiv of_int binary64].
  rewrite !FloatAxioms.mul_spec, FloatAxioms.div_spec, FloatAxioms.mul_spec.
  unfold finite_number in Hw, Hh, Hp.
  rewrite FloatAxioms.ltb_spec in Hpos.
  destruct (Prim2SF p) as [ sp | sp | | sp mp ep ]; try discriminate.
  apply SFmul_finite_r.
  destruct (Prim2SF (float_of_int 30)) as [ s30 | s30 | | s30 m30 e30 ] eqn:E30;
    try (vm_compute in E30; discriminate).
  apply SFmul_finite_r.
  destruct (Prim2SF (float_of_int 1000)) as [ sk | sk | | sk mk ek ] eqn:Ek;
    try (vm_compute in Ek; discriminate).
  apply SFdiv_finite_r.
  apply SFmul_finite_numbers.
  - destruct (Prim2SF w); try discriminate; exact I.
  - destruct (Prim2SF h); try discriminate; exact I.
Qed.
End NotNaN.

(** ** Rounding of a product

    [binary_round_aux] shifts the exact product to 53 bits and rounds it to
    nearest, ties to even.  The result, when it is a normal number, is
    within the relative distance [2^-53] of the exact product. *)

Section Rounding.
Local Open Scope Z_scope.

Lemma digits2_pos_spec (p : positive) :
  2 ^ (Z.pos (digits2_pos p) - 1) <= Z.pos p < 2 ^ Z.pos (digits2_pos p).
Proof.
  induction p as [ p IH | p IH | ]; simpl digits2_pos.
  - rewrite Pos2Z.inj_succ, Z.pow_succ_r by lia.
    replace (Z.succ (Z.pos (digits2_pos p)) - 1) with (Z.succ (Z.pos (digits2_pos p) - 1)) by lia.
    rewrite Z.pow_succ_r by lia. lia.
  - rewrite Pos2Z.inj_succ, Z.pow_succ_r by lia.
    replace (Z.succ (Z.pos (digits2_pos p)) - 1) with (Z.succ (Z.pos (digits2_pos p) - 1)) by lia.
    rewrite Z.pow_succ_r by lia. lia.
  - simpl. lia.
Qed.

Lemma iter_pos_invariant {A : Type} (f : A -> A) (P : Z -> A -> Prop) :
  (forall k x, 0 <= k -> P k x -> P (k + 1) (f x)) ->
  forall p k x, 0 <= k -> P k x -> P (k + Z.pos p) (SpecFloat.iter_pos f p x).
Proof.
  intros Hstep.
  induction p as [ p IH | p IH | ]; intros k x Hk Hx; simpl.
  - replace (k + Z.pos p~1) with (k + 1 + Z.pos p + Z.pos p) by lia.
    apply IH; [ lia | ]. apply IH; [ lia | ]. apply Hstep; assumption.
  - replace (k + Z.pos p~0) with (k + Z.pos p + Z.pos p) by lia.
    apply IH; [ lia | ]. apply IH; assumption.
  - apply Hstep; assumption.
Qed.

Lemma shifted_start (m0 : Z) :
  0 <= m0 -> shifted m0 0 {| shr_m := m0; shr_r := false; shr_s := false |}.
Proof.
  intros Hm. exists 0. simpl. repeat split; try lia; intros; try discriminate; lia.
Qed.

Lemma shifted_bits (k rem : Z) (r s : bool) :
  0 < 2 ^ k -> 0 <= rem < 2 ^ k ->
  (r = true <-> 2 ^ k <= 2 * rem) ->
  (s = true <-> rem <> 0 /\ 2 * rem <> 2 ^ k) ->
  match r, s with
  | false, false => rem = 0
  | false, true => 0 < 2 * rem < 2 ^ k
  | true, false => 2 * rem = 2 ^ k
  | true, true => 2 ^ k < 2 * rem
  end.
Proof.
  intros Hpos Hrem Hr Hs.
  assert (Hr' : r = false -> ~ 2 ^ k <= 2 * rem)
    by (intros E H'; apply Hr in H'; congruence).
  assert (Hs' : s = false -> ~ (rem <> 0 /\ 2 * rem <> 2 ^ k))
    by (intros E H'; apply Hs in H'; congruence).
  destruct r, s.
  - pose proof (proj1 Hr eq_refl). pose proof (proj1 Hs eq_refl). lia.
  - pose proof (proj1 Hr eq_refl). pose proof (Hs' eq_refl). lia.
  - pose proof (Hr' eq_refl). pose proof (proj1 Hs eq_refl). lia.
  - pose proof (Hr' eq_refl). pose proof (Hs' eq_refl). lia.
Qed.

Lemma shifted_step (m0 k : Z) (mrs : shr_record) :
  0 <= k -> shifted m0 k mrs -> shifted m0 (k + 1) (shr_1 mrs).
Proof.
  intros Hk (rem & Hrem & Hm & Hval & Hr & Hs).
  assert (Hpow : 2 ^ (k + 1) = 2 * 2 ^ k) by (rewrite Z.pow_add_r by lia; lia).
  assert (Hpos : 0 < 2 ^ k) by (apply Z.pow_pos_nonneg; lia).
  destruct mrs as [ m r s ]. cbn [shr_m shr_r shr_s] in *.
  pose proof (shifted_bits k rem r s Hpos Hrem Hr Hs) as Hbits.
  assert (Hsticky : (r || s)%bool = true <-> rem <> 0).
  { destruct r, s; cbn [orb]; split; intros H;
      try reflexivity; try discriminate; lia. }
  clear Hr Hs Hbits.
  unfold shifted.
  destruct m as [ | [ p | p | ] | p ]; try lia; cbn [shr_1 shr_m shr_r shr_s].
  - exists rem. rewrite Hpow, Hsticky.
    repeat split; try lia; try (intros; discriminate).
  - exists (2 ^ k + rem). rewrite Hpow, Hsticky.
    repeat split; try lia.
  - exists rem. rewrite Hpow, Hsticky.
    repeat split; try lia; try (intros; discriminate).
  - exists (2 ^ k + rem). rewrite Hpow, Hsticky.
    repeat split; try lia.
Qed.

Lemma shifted_iter (m0 : Z) (p : positive) :
  0 <= m0 ->
  shifted m0 (Z.pos p)
    (SpecFloat.iter_pos shr_1 p {| shr_m := m0; shr_r := false; shr_s := false |}).
Proof.
  intros Hm.
  apply (iter_pos_invariant shr_1 (shifted m0)
           (fun k x Hk => shifted_step m0 k x Hk) p 0);
    [ lia | apply shifted_start, Hm ].
Qed.

(** Rounding to nearest moves the number by half a unit at most. *)
Lemma shifted_round (m0 k : Z) (mrs : shr_record) :
  0 <= k -> shifted m0 k mrs ->
  let m1 := round_nearest_even (shr_m mrs) (loc_of_shr_record mrs) in
  shr_m mrs <= m1 <= shr_m mrs + 1
  /\ 2 * Z.abs (m1 * 2 ^ k - m0) <= 2 ^ k.
Proof.
  intros Hk (rem & Hrem & Hm & Hval & Hr & Hs).
  assert (Hpos : 0 < 2 ^ k) by (apply Z.pow_pos_nonneg; lia).
  destruct mrs as [ m r s ]. cbn [shr_m shr_r shr_s] in *.
  pose proof (shifted_bits k rem r s Hpos Hrem Hr Hs) as Hbits.
  clear Hr Hs.
  destruct r, s; cbn [loc_of_shr_record round_nearest_even];
    try destruct (Z.even m); nia.
Qed.

Lemma pow2_53 : 2 ^ 53 = 9007199254740992.
Proof. reflexivity. Qed.

(** The result of rounding the exact number [m * 2^e], when it is finite, is
    [m' * 2^e'] with [e <= e'], at half a unit of [2^e'] from it at most. *)
Lemma binary_round_aux_half_ulp (s : bool) (m : positive) (e : Z)
    (s' : bool) (m' : positive) (e' : Z) :
  binary_round_aux prec emax s (Z.pos m) e loc_Exact = S754_finite s' m' e' ->
  s' = s /\ e <= e'
  /\ 2 * Z.abs (Z.pos m' * 2 ^ (e' - e) - Z.pos m) <= 2 ^ (e' - e).
Proof.
  unfold binary_round_aux, shr_fexp.
  cbn [shr_record_of_loc Zdigits2].
  pose proof (digits2_pos_spec m) as Hdigits.
  set (d := Z.pos (digits2_pos m)) in *.
  assert (Hfexp : forall x, fexp prec emax x = Z.max (x - 53) (-1074))
    by reflexivity.
  rewrite Hfexp.
  destruct (Z.max (d + e - 53) (-1074) - e) as [ | n | n ] eqn:En;
    cbn [shr fst snd shr_m loc_of_shr_record round_nearest_even Zdigits2].
  - fold d. rewrite Hfexp, En. cbn [shr shr_m].
    destruct (e <=? emax - prec); [ | discriminate ].
    intros E. injection E as <- <- <-.
    rewrite Z.sub_diag. change (2 ^ 0) with 1.
    rewrite Z.mul_1_r, Z.sub_diag. change (Z.abs 0) with 0.
    split; [ reflexivity | lia ].
  - pose proof (shifted_iter (Z.pos m) n ltac:(lia)) as Hshifted.
    pose proof (shifted_round (Z.pos m) (Z.pos n) _ ltac:(lia) Hshifted)
      as [ Hnear Hclose ].
    destruct Hshifted as (rem & Hrem & Hfloor & Hval & _).
    set (mrs := SpecFloat.iter_pos shr_1 n
                  {| shr_m := Z.pos m; shr_r := false; shr_s := false |}) in *.
    set (m1 := round_nearest_even (shr_m mrs) (loc_of_shr_record mrs)) in *.
    assert (Hpow : 0 < 2 ^ Z.pos n) by (apply Z.pow_pos_nonneg; lia).
    assert (Hsmall : shr_m mrs < 2 ^ 53).
    { assert (2 ^ d <= 2 ^ (Z.pos n + 53)) by (apply Z.pow_le_mono_r; lia).
      rewrite Z.pow_add_r in H by lia. nia. }
    rewrite Hfexp.
    destruct m1 as [ | q | q ] eqn:Em1; [ | | lia ].
    + cbn [Zdigits2].
      destruct (Z.max (0 + (e + Z.pos n) - 53) (-1074) - (e + Z.pos n))
        as [ | n2 | n2 ] eqn:En2; cbn [shr shr_m]; try discriminate.
      lia.
    + cbn [Zdigits2].
      pose proof (digits2_pos_spec q) as Hq.
      set (d1 := Z.pos (digits2_pos q)) in *.
      destruct (Z.eq_dec (Z.pos q) (2 ^ 53)) as [ Htop | Hbelow ].
      * rewrite pow2_53 in Htop. injection Htop as ->.
        subst d1. cbn [digits2_pos Pos.succ].
        replace (Z.max (_ + (e + Z.pos n) - 53) (-1074) - (e + Z.pos n)) with 1
          by lia.
        cbn [shr SpecFloat.iter_pos shr_1 shr_m].
        destruct (e + Z.pos n + 1 <=? emax - prec); [ | discriminate ].
        intros E. injection E as <- <- <-.
        split; [ reflexivity | split; [ lia | ] ].
        replace (e + Z.pos n + 1 - e) with (Z.pos n + 1) by lia.
        rewrite Z.pow_add_r by lia. change (2 ^ 1) with 2. lia.
      * assert (Hd1 : d1 <= 53).
        { assert (Hlt : 2 ^ (d1 - 1) < 2 ^ 53) by lia.
          apply Z.pow_lt_mono_r_iff in Hlt; lia. }
        destruct (Z.max (d1 + (e + Z.pos n) - 53) (-1074) - (e + Z.pos n))
          as [ | n2 | n2 ] eqn:En2; [ | lia | ]; cbn [shr shr_m].
        -- destruct (e + Z.pos n <=? emax - prec); [ | discriminate ].
           intros E. injection E as <- <- <-.
           split; [ reflexivity | split; [ lia | ] ].
           replace (e + Z.pos n - e) with (Z.pos n) by lia. exact Hclose.
        -- destruct (e + Z.pos n <=? emax - prec); [ | discriminate ].
           intros E. injection E as <- <- <-.
           split; [ reflexivity | split; [ lia | ] ].
           replace (e + Z.pos n - e) with (Z.pos n) by lia. exact Hclose.
  - fold d. rewrite Hfexp, En. cbn [shr shr_m].
    destruct (e <=? emax - prec); [ | discriminate ].
    intros E. injection E as <- <- <-.
    rewrite Z.sub_diag. change (2 ^ 0) with 1.
    rewrite Z.mul_1_r, Z.sub_diag. change (Z.abs 0) with 0.
    split; [ reflexivity | lia ].
Qed.
End Rounding.

Section RoundedProducts.
Local Open Scope Q_scope.

Lemma Q_of_finite_pow (m : positive) (e : Z) :
  Q_of_finite m e == inject_Z (Z.pos m) * 2 ^ e.
Proof.
  destruct e as [ | p | p ]; unfold Q_of_finite.
  - change (2 ^ 0) with 1. ring.
  - rewrite inject_Z_mult, Zpower_Qpower by lia. reflexivity.
  - change (2 ^ Z.neg p) with ((Z.pos 2 # 1) ^ Z.neg p).
    rewrite Qpower_decomp_neg_pos, Z.pow_1_l by lia.
    unfold Qeq, Qmult, inject_Z. simpl. lia.
Qed.

Lemma pow2_pos (e : Z) : 0 < 2 ^ e.
Proof. apply Qpower_0_lt. reflexivity. Qed.

(** A product that is rounded to a normal number is within the relative
    distance [2^-53] of it. *)
Lemma rounded_close (s : bool) (m : positive) (e : Z)
    (s' : bool) (m' : positive) (e' : Z) :
  binary_round_aux prec emax s (Z.pos m) e loc_Exact = S754_finite s' m' e' ->
  (2 ^ 52 <= Z.pos m')%Z ->
  (1 - unit_roundoff) * Q_of_finite m' e' <= Q_of_finite m e
  /\ Q_of_finite m e <= (1 + unit_roundoff) * Q_of_finite m' e'.
Proof.
  intros Hround Hnormal.
  apply binary_round_aux_half_ulp in Hround as (_ & He & Hclose).
  rewrite !Q_of_finite_pow.
  assert (Hsplit : 2 ^ e' == inject_Z (2 ^ (e' - e)) * 2 ^ e).
  { rewrite Zpower_Qpower by lia. change (inject_Z 2) with 2.
    rewrite <- Qpower_plus by discriminate.
    replace (e' - e + e)%Z with e' by lia. reflexivity. }
  rewrite Hsplit.
  pose proof (pow2_pos e) as HT.
  assert (HP : (0 < 2 ^ (e' - e))%Z) by (apply Z.pow_pos_nonneg; lia).
  set (Pz := (2 ^ (e' - e))%Z) in *.
  assert (Hlow : (Z.pos m + - Pz <= 2 * (Z.pos m' * Pz) + - Z.pos m)%Z) by lia.
  assert (Hhigh : (2 * (Z.pos m' * Pz) <= 2 * Z.pos m + Pz)%Z) by lia.
  assert (Hbig : (2 ^ 52 * Pz <= Z.pos m' * Pz)%Z) by nia.
  rewrite Zle_Qle in Hlow, Hhigh, Hbig.
  rewrite !inject_Z_plus, !inject_Z_opp, !inject_Z_mult in Hlow.
  rewrite !inject_Z_plus, !inject_Z_mult in Hhigh.
  rewrite !inject_Z_mult in Hbig.
  set (a := inject_Z (Z.pos m')) in *.
  set (b := inject_Z (Z.pos m)) in *.
  set (P := inject_Z Pz) in *.
  set (T := 2 ^ e) in *.
  change (inject_Z (2 ^ 52)) with (4503599627370496 # 1) in Hbig.
  change (inject_Z 2) with 2 in Hlow, Hhigh.
  assert (Hu : unit_roundoff == 1 # 9007199254740992) by reflexivity.
  rewrite Hu.
  set (X := a * P) in *.
  assert (H1 : (1 - (1 # 9007199254740992)) * X <= b) by lra.
  assert (H2 : b <= (1 + (1 # 9007199254740992)) * X) by lra.
  split.
  - setoid_replace ((1 - (1 # 9007199254740992)) * (a * (P * T)))
      with (((1 - (1 # 9007199254740992)) * X) * T) using relation Qeq
      by (unfold X; ring).
    apply Qmult_le_compat_r; [ exact H1 | apply Qlt_le_weak, HT ].
  - setoid_replace ((1 + (1 # 9007199254740992)) * (a * (P * T)))
      with (((1 + (1 # 9007199254740992)) * X) * T) using relation Qeq
      by (unfold X; ring).
    apply Qmult_le_compat_r; [ exact H2 | apply Qlt_le_weak, HT ].
Qed.

Lemma Q_of_finite_pos (m : positive) (e : Z) : 0 < Q_of_finite m e.
Proof.
  rewrite Q_of_finite_pow.
  apply Qmult_lt_0_compat; [ reflexivity | apply pow2_pos ].
Qed.

Lemma Q_of_finite_mul (mx my : positive) (ex ey : Z) :
  Q_of_finite mx ex * Q_of_finite my ey == Q_of_finite (mx * my) (ex + ey).
Proof.
  rewrite !Q_of_finite_pow, Pos2Z.inj_mul, inject_Z_mult.
  rewrite Qpower_plus by discriminate. ring.
Qed.

Lemma positive_finite_value (x : float) :
  positive_finite x = true -> 0 < exact_value x.
Proof.
  unfold positive_finite, exact_value.
  destruct (Prim2SF x) as [ | | | [ | ] m e ]; try discriminate.
  intros _. apply Q_of_finite_pos.
Qed.

Lemma positive_normal_finite (x : float) :
  positive_normal x = true -> positive_finite x = true.
Proof.
  unfold positive_normal, positive_finite.
  destruct (Prim2SF x) as [ | | | [ | ] m e ]; try discriminate. reflexivity.
Qed.

(** The product of two positive numbers, when it is a normal number, is
    within the relative distance [2^-53] of the exact product. *)
Lemma mul_close (x y : float) :
  positive_finite x = true -> positive_finite y = true ->
  positive_normal (x * y)%float = true ->
  (1 - unit_roundoff) * exact_value (x * y)%float <= exact_value x * exact_value y
  /\ exact_value x * exact_value y <= (1 + unit_roundoff) * exact_value (x * y)%float.
Proof.
  unfold positive_finite, positive_normal, exact_value.
  rewrite FloatAxioms.mul_spec.
  destruct (Prim2SF x) as [ | | | [ | ] mx ex ]; try discriminate.
  destruct (Prim2SF y) as [ | | | [ | ] my ey ]; try discriminate.
  intros _ _. unfold SF64mul, SFmul. cbn [xorb].
  destruct (binary_round_aux prec emax false (Z.pos (mx * my)) (ex + ey) loc_Exact)
    as [ | | | [ | ] m' e' ] eqn:Hround; try discriminate.
  intros Hnormal. apply Z.leb_le in Hnormal.
  rewrite Q_of_finite_mul.
  exact (rounded_close _ _ _ _ _ _ Hround Hnormal).
Qed.

Lemma Qmult_le_compat_l (x y z : Q) : x <= y -> 0 <= z -> z * x <= z * y.
Proof.
  intros Hxy Hz. rewrite (Qmult_comm z x), (Qmult_comm z y).
  apply Qmult_le_compat_r; assumption.
Qed.

(** Multiplying three positive numbers in either order gives nearly the same
    number, when no product overflows or underflows. *)
Lemma mul_either_order (k c p : float) :
  positive_finite k = true -> positive_finite c = true ->
  positive_finite p = true ->
  positive_normal (k * c)%float = true ->
  positive_normal ((k * c) * p)%float = true ->
  positive_normal (k * p)%float = true ->
  positive_normal ((k * p) * c)%float = true ->
  (1 - unit_roundoff) * (1 - unit_roundoff) * exact_value ((k * c) * p)%float
  <= (1 + unit_roundoff) * (1 + unit_roundoff) * exact_value ((k * p) * c)%float.
Proof.
  intros Hk Hc Hp Hkc Hkcp Hkp Hkpc.
  destruct (mul_close k c Hk Hc Hkc) as [ H1 _ ].
  destruct (mul_close (k * c) p (positive_normal_finite _ Hkc) Hp Hkcp) as [ H2 _ ].
  destruct (mul_close k p Hk Hp Hkp) as [ _ H3 ].
  destruct (mul_close (k * p) c (positive_normal_finite _ Hkp) Hc Hkpc) as [ _ H4 ].
  pose proof (positive_finite_value k Hk) as Pk.
  pose proof (positive_finite_value c Hc) as Pc.
  pose proof (positive_finite_value p Hp) as Pp.
  pose proof (positive_finite_value _ (positive_normal_finite _ Hkc)) as Pkc.
  pose proof (positive_finite_value _ (positive_normal_finite _ Hkp)) as Pkp.
  pose proof (positive_finite_value _ (positive_normal_finite _ Hkcp)) as Pkcp.
  pose proof (positive_finite_value _ (positive_normal_finite _ Hkpc)) as Pkpc.
  assert (Hu : unit_roundoff == 1 # 9007199254740992) by reflexivity.
  rewrite Hu in *.
  set (u := 1 # 9007199254740992) in *.
  set (vk := exact_value k) in *. set (vc := exact_value c) in *.
  set (vp := exact_value p) in *.
  set (vkc := exact_value (k * c)%float) in *.
  set (vkp := exact_value (k * p)%float) in *.
  set (key := exact_value ((k * c) * p)%float) in *.
  set (cost := exact_value ((k * p) * c)%float) in *.
  assert (Hu0 : 0 <= 1 - u) by (unfold u; lra).
  assert (Hu1 : 0 <= 1 + u) by (unfold u; lra).
  clearbody u vk vc vp vkc vkp key cost.
  assert (S1 : (1 - u) * (1 - u) * key <= (1 - u) * (vkc * vp)).
  { rewrite <- Qmult_assoc. apply Qmult_le_compat_l; assumption. }
  assert (S2 : (1 - u) * (vkc * vp) <= vk * vc * vp).
  { rewrite Qmult_assoc. apply Qmult_le_compat_r; [ exact H1 | lra ]. }
  assert (S3 : vk * vc * vp <= (1 + u) * vkp * vc).
  { setoid_replace (vk * vc * vp) with (vk * vp * vc) using relation Qeq
      by ring.
    apply Qmult_le_compat_r; [ exact H3 | lra ]. }
  assert (S4 : (1 + u) * vkp * vc <= (1 + u) * (1 + u) * cost).
  { rewrite <- !Qmult_assoc. apply Qmult_le_compat_l; assumption. }
  lra.
Qed.
End RoundedProducts.

(** ** The cost model (calculations.py) *)

Section CostModel.
Local Open Scope float_scope.

(** C1: the six formulas of the cost model hold for all binary64 inputs,
    whatever their sign or range: [daily_kwh = w*h/1000],
    [cost_for_kwh = k*p], [daily_cost = daily_kwh*p],
    [weekly_cost = 7*daily_cost], [monthly_cost = 30*daily_cost] and
    [monthly_kwh = 30*daily_kwh].  For [w=1500], [h=13], [p=0.10] the daily
    energy is exactly 19.5; the three costs are 1.9500000000000002,
    13.650000000000002 and 58.500000000000007, that is 1.95, 13.65 and 58.5
    within floating tolerance; they are printed as 1.95, 13.65 and 58.50, and
    are exactly 1.95, 13.65 and 58.5 in exact arithmetic. *)
Theorem cost_model_formulas :
  (forall w h p k : float,
      daily_kwh w h = w * h / 1000
      /\ cost_for_kwh k p = k * p
      /\ daily_cost w h p = daily_kwh w h * p
      /\ weekly_cost w h p = 7 * daily_cost w h p
      /\ monthly_cost w h p = 30 * daily_cost w h p
      /\ monthly_kwh w h = 30 * daily_kwh w h)
  /\ daily_kwh 1500 13 = 19.5
  /\ daily_cost 1500 13 p010 = 1.9500000000000002
  /\ weekly_cost 1500 13 p010 = 13.650000000000002
  /\ monthly_cost 1500 13 p010 = 58.500000000000007
  /\ within_tolerance (daily_cost 1500 13 p010) 1.95 = true
  /\ within_tolerance (weekly_cost 1500 13 p010) 13.65 = true
  /\ within_tolerance (monthly_cost 1500 13 p010) 58.5 = true
  /\ format_fixed 2 (daily_cost 1500 13 p010) = "1.95"
  /\ format_fixed 2 (weekly_cost 1500 13 p010) = "13.65"
  /\ format_fixed 2 (monthly_cost 1500 13 p010) = "58.50"
  /\ (daily_kwh 1500 13 == 19.5
      /\ daily_cost 1500 13 0.10 == 1.95
      /\ weekly_cost 1500 13 0.10 == 13.65
      /\ monthly_cost 1500 13 0.10 == 58.5)%Q.
Proof.
  split.
  { intros w h p k.
    unfold weekly_cost, monthly_cost, monthly_kwh.
    rewrite (mul_comm (daily_cost w h p) DAYS_PER_WEEK).
    rewrite (mul_comm (daily_cost w h p) DAYS_PER_MONTH).
    rewrite (mul_comm (daily_kwh w h) DAYS_PER_MONTH).
    repeat split; reflexivity. }
  repeat split; vm_compute; reflexivity.
Qed.

(** C10 fails on binary64: for the device of the end-to-end example the
    ranking key is 58.5 and the monthly cost 58.500000000000007, and for a
    25 W device used 3 hours a day the two are printed as 0.23 and 0.22. *)
Lemma ranking_key_differs :
  (monthly_kwh 1500 13 * p010)%num <> monthly_cost 1500 13 p010
  /\ (monthly_kwh 25 3 * p010)%num <> monthly_cost 25 3 p010
  /\ format_fixed 2 (monthly_kwh 25 3 * p010)%num = "0.23"
  /\ format_fixed 2 (monthly_cost 25 3 p010) = "0.22".
Proof.
  split; [ | split; [ | split ] ]; try (vm_compute; reflexivity).
  - apply ltb_neq. vm_compute. reflexivity.
  - apply not_eq_sym, ltb_neq. vm_compute. reflexivity.
Qed.

(** C10, amended: in exact arithmetic the ranking key
    [monthly_kwh(w,h) * p] equals [monthly_cost(w,h,p)].  On binary64 the
    key is [(daily_kwh * 30) * p] and the monthly cost is
    [(daily_kwh * p) * 30]; when the daily energy and the price are above 0
    and the four products are normal numbers (no overflow and no underflow),
    the two values differ by [2^-50] of the monthly cost at most. *)
Theorem ranking_key_exact :
  (forall w h p : Q, (monthly_kwh w h * p)%num == monthly_cost w h p)
  /\ (forall w h p : float,
        (monthly_kwh w h * p)%num = (daily_kwh w h * 30) * p
        /\ monthly_cost w h p = (daily_kwh w h * p) * 30)
  /\ (forall w h p : float,
        positive_finite (daily_kwh w h) = true ->
        positive_finite p = true ->
        positive_normal (monthly_kwh w h) = true ->
        positive_normal (monthly_kwh w h * p)%num = true ->
        positive_normal (daily_cost w h p) = true ->
        positive_normal (monthly_cost w h p) = true ->
        let key := exact_value (monthly_kwh w h * p)%num in
        let cost := exact_value (monthly_cost w h p) in
        (key - cost <= (1 # 2 ^ 50) * cost
         /\ cost - key <= (1 # 2 ^ 50) * cost)%Q).
Proof.
  split; [ | split ].
  - intros w h p.
    unfold monthly_kwh, monthly_cost, daily_cost, cost_for_kwh, DAYS_PER_MONTH.
    simpl. ring.
  - intros w h p. split; reflexivity.
  - intros w h p Hk Hp Hmkwh Hkey Hdaily Hcost key cost.
    assert (H30 : positive_finite (float_of_int 30) = true) by reflexivity.
    pose proof (mul_either_order (daily_kwh w h) (float_of_int 30) p
                  Hk H30 Hp Hmkwh Hkey Hdaily Hcost) as Hup.
    pose proof (mul_either_order (daily_kwh w h) p (float_of_int 30)
                  Hk Hp H30 Hdaily Hcost Hmkwh Hkey) as Hdown.
    pose proof (positive_finite_value _ (positive_normal_finite _ Hcost)) as Pcost.
    change (exact_value (daily_kwh w h * float_of_int 30 * p)%float)
      with key in Hup, Hdown.
    change (exact_value (daily_kwh w h * p * float_of_int 30)%float)
      with cost in Hup, Hdown.
    fold cost in Pcost.
    assert (Hu : (unit_roundoff == 1 # 9007199254740992)%Q) by reflexivity.
    rewrite Hu in Hup, Hdown.
    change (1 # 2 ^ 50)%Q with (1 # 1125899906842624)%Q.
    clearbody key cost. split; lra.
Qed.

Lemma ranking_key_exact_witness :
  (exact_value (monthly_kwh 1500%float 13%float * p010)%num
   - exact_value (monthly_cost 1500%float 13%float p010)
   <= (1 # 2 ^ 50) * exact_value (monthly_cost 1500%float 13%float p010))%Q
  /\ (exact_value (monthly_cost 1500%float 13%float p010)
      - exact_value (monthly_kwh 1500%float 13%float * p010)%num
      <= (1 # 2 ^ 50) * exact_value (monthly_cost 1500%float 13%float p010))%Q.
Proof.
  destruct ranking_key_exact as (_ & _ & Hclose).
  apply (Hclose 1500%float 13%float p010); reflexivity.
Defined.

(** C7: the price validator raises exactly when [price <= 0]; the device
    validator raises exactly when [wattage <= 0], [hours < 0] or
    [hours > 24]; with [price > 0], and with [wattage > 0] and
    [0 <= hours <= 24], they return normally. *)
Theorem validation_errors (price wattage hours : float) :
  (raised (validate_price_per_kwh price) = true <-> (price <=? 0) = true)
  /\ (raised (validate_device_values wattage hours) = true <->
        (wattage <=? 0) = true \/ (hours <? 0) = true \/ (24 <? hours) = true)
  /\ ((0 <? price) = true -> validate_price_per_kwh price = Returns tt)
  /\ ((0 <? wattage) = true -> (0 <=? hours) = true -> (hours <=? 24) = true ->
        validate_device_values wattage hours = Returns tt).
Proof.
  unfold validate_price_per_kwh, validate_device_values.
  cbn [fle flt of_int binary64].
  change (float_of_int 0) with 0. change (float_of_int 24) with 24.
  split; [ | split; [ | split ] ].
  - destruct (price <=? 0); simpl; split; congruence.
  - destruct (wattage <=? 0), (hours <? 0), (24 <? hours); simpl;
      split; intros; try discriminate; try reflexivity; auto;
      repeat match goal with H : _ \/ _ |- _ => destruct H end; discriminate.
  - intros Hp. rewrite (ltb_not_leb _ _ Hp). reflexivity.
  - intros Hw Hh0 Hh24.
    rewrite (ltb_not_leb _ _ Hw), (leb_not_ltb _ _ Hh0), (leb_not_ltb _ _ Hh24).
    reflexivity.
Qed.

Lemma validation_errors_witness :
  validate_price_per_kwh p010 = Returns tt
  /\ validate_device_values 1500 13 = Returns tt.
Proof.
  destruct (validation_errors p010 1500 13) as (_ & _ & Hprice & Hdevice).
  split; [ apply Hprice | apply Hdevice ]; reflexivity.
Defined.
End CostModel.

(** ** The table formatter *)

Section FormatTable.
Local Open Scope list_scope.

Lemma widen_row_from (r : list string) :
  forall (pre widths : list nat),
    length r = length widths ->
    widen_row (pre ++ widths) (length pre) r
    = Some (pre ++ zip_with Nat.max widths (map String.length r)).
Proof.
  induction r as [ | cell r IH ]; intros pre widths Hlen.
  - destruct widths; [ reflexivity | discriminate ].
  - destruct widths as [ | w widths ]; [ discriminate | ].
    simpl. unfold widen.
    rewrite list_lookup_middle by reflexivity.
    rewrite insert_app_r_alt by lia.
    replace (length pre - length pre) with 0 by lia. simpl.
    replace (pre ++ Nat.max w (String.length cell) :: widths)
      with ((pre ++ [Nat.max w (String.length cell)]) ++ widths)
      by (rewrite <- app_assoc; reflexivity).
    replace (S (length pre))
      with (length (pre ++ [Nat.max w (String.length cell)]))
      by (rewrite length_app; simpl; lia).
    rewrite IH by (simpl in Hlen; lia).
    rewrite <- app_assoc. reflexivity.
Qed.

(** One pass of the inner loop over a row as long as the header. *)
Lemma widen_row_matching (widths : list nat) (r : list string) :
  length r = length widths ->
  widen_row widths 0 r = Some (zip_with Nat.max widths (map String.length r)).
Proof. intros Hlen. apply (widen_row_from r [] widths Hlen). Qed.

Lemma widen_rows_matching (rows : list (list string)) :
  forall widths : list nat,
    Forall (fun r => length r = length widths) rows ->
    widen_rows widths rows
    = Some (fold_left (fun ws r => zip_with Nat.max ws (map String.length r))
              rows widths).
Proof.
  induction rows as [ | r rows IH ]; intros widths Hrows; [ reflexivity | ].
  inversion Hrows as [ | ? ? Hr Hrest ]; subst. simpl.
  rewrite widen_row_matching by exact Hr.
  apply IH.
  rewrite length_zip_with_l_eq by (rewrite length_map; lia).
  exact Hrest.
Qed.

Lemma widths_after_rows (rows : list (list string)) :
  forall widths : list nat,
    Forall (fun r => length r = length widths) rows ->
    fold_left (fun ws r => zip_with Nat.max ws (map String.length r)) rows widths
    = imap (fun i w => Nat.max w (max_list (map (cell_length i) rows))) widths.
Proof.
  induction rows as [ | r rows IH ]; intros widths Hrows.
  - simpl. apply list_eq. intros i. rewrite list_lookup_imap.
    destruct (widths !! i); simpl; [ | reflexivity ].
    f_equal. lia.
  - inversion Hrows as [ | ? ? Hr Hrest ]; subst. simpl.
    rewrite IH
      by (rewrite length_zip_with_l_eq by (rewrite length_map; lia); exact Hrest).
    apply list_eq. intros i.
    rewrite !list_lookup_imap, lookup_zip_with, list_lookup_fmap.
    unfold cell_length.
    destruct (widths !! i) as [ w | ] eqn:Ew; simpl; [ | reflexivity ].
    destruct (r !! i) as [ c | ] eqn:Er; simpl.
    + f_equal. lia.
    + apply lookup_ge_None in Er. apply lookup_lt_Some in Ew. lia.
Qed.

Lemma column_widths_matching (headers : list string) (rows : list (list string)) :
  Forall (fun r => length r = length headers) rows ->
  column_widths headers rows = Some (max_column_widths headers rows).
Proof.
  intros Hrows. unfold column_widths.
  rewrite widen_rows_matching, widths_after_rows
    by (rewrite length_map; exact Hrows).
  f_equal. apply list_eq. intros i.
  unfold max_column_widths, max_column_width, cell_length.
  rewrite list_lookup_imap, !list_lookup_fmap.
  destruct (headers !! i) as [ h | ] eqn:Eh; simpl.
  - rewrite lookup_seq_lt by (apply lookup_lt_Some in Eh; exact Eh).
    simpl. rewrite Eh. reflexivity.
  - rewrite lookup_ge_None_2; [ reflexivity | ].
    rewrite length_seq. apply lookup_ge_None in Eh. exact Eh.
Qed.

Lemma length_max_column_widths (headers : list string) (rows : list (list string)) :
  length (max_column_widths headers rows) = length headers.
Proof. unfold max_column_widths. rewrite length_map, length_seq. reflexivity. Qed.

Lemma fmt_row_matching (widths : list nat) (r : list string) :
  length r = length widths ->
  fmt_row (length widths) widths r = Some (justified_row widths r).
Proof.
  intros Hlen. unfold fmt_row, justified_row.
  rewrite (mapM_Some_2 _ _ (zip_with ljust r widths)); [ reflexivity | ].
  apply Forall2_same_length_lookup_2.
  - rewrite length_seq, length_zip_with_l_eq; lia.
  - intros i j s Hi Hs.
    apply lookup_seq in Hi as [ -> _ ]. simpl.
    rewrite lookup_zip_with in Hs. unfold fmt_cell.
    destruct (r !! i); simpl in Hs; [ | discriminate ].
    destruct (widths !! i); simpl in Hs; congruence.
Qed.

Lemma fmt_rows_matching (widths : list nat) (rows : list (list string)) :
  Forall (fun r => length r = length widths) rows ->
  mapM (fmt_row (length widths) widths) rows
  = Some (map (justified_row widths) rows).
Proof.
  intros Hrows. apply mapM_Some_2.
  induction Hrows as [ | r rows Hr _ IH ]; simpl; constructor.
  - apply fmt_row_matching, Hr.
  - exact IH.
Qed.

Lemma format_table_lines_matching (headers : list string) (rows : list (list string)) :
  Forall (fun r => length r = length headers) rows ->
  format_table_lines headers rows
  = Some (justified_row (max_column_widths headers rows) headers
            :: separator (max_column_widths headers rows)
            :: map (justified_row (max_column_widths headers rows)) rows).
Proof.
  intros Hrows. unfold format_table_lines.
  rewrite column_widths_matching by exact Hrows. simpl.
  rewrite <- (length_max_column_widths headers rows).
  rewrite fmt_row_matching by (rewrite length_max_column_widths; reflexivity).
  simpl. rewrite fmt_rows_matching; [ reflexivity | ].
  rewrite length_max_column_widths. exact Hrows.
Qed.

(** *** Counting the lines of the text *)

Lemma count_newlines_app (s t : string) :
  count_newlines (s ++ t)%string = count_newlines s + count_newlines t.
Proof. induction s as [ | c s IH ]; simpl; [ reflexivity | ]. rewrite IH. lia. Qed.

Lemma count_newlines_repeat (s : string) (n : nat) :
  count_newlines s = 0 -> count_newlines (repeat_string s n) = 0.
Proof.
  intros Hs. induction n as [ | n IH ]; simpl; [ reflexivity | ].
  rewrite count_newlines_app. lia.
Qed.

Lemma count_newlines_ljust (s : string) (w : nat) :
  count_newlines (ljust s w) = count_newlines s.
Proof.
  unfold ljust. rewrite count_newlines_app, count_newlines_repeat; [ lia | reflexivity ].
Qed.

Lemma count_newlines_join (sep : string) (l : list string) :
  Forall (fun x => count_newlines x = 0) l ->
  count_newlines (join sep l) = pred (length l) * count_newlines sep.
Proof.
  induction 1 as [ | x l Hx Hl IH ]; simpl; [ reflexivity | ].
  destruct l as [ | y l ]; [ simpl; lia | ].
  rewrite !count_newlines_app, IH. simpl. lia.
Qed.

Lemma count_newlines_justified_row (widths : list nat) (r : list string) :
  Forall (fun cell => count_newlines cell = 0) r ->
  count_newlines (justified_row widths r) = 0.
Proof.
  intros Hr. unfold justified_row. rewrite count_newlines_join.
  - simpl. lia.
  - revert widths. induction Hr as [ | cell r Hcell _ IH ]; intros [ | w widths ];
      simpl; constructor.
    + rewrite count_newlines_ljust. exact Hcell.
    + apply IH.
Qed.

Lemma count_newlines_separator (widths : list nat) :
  count_newlines (separator widths) = 0.
Proof.
  unfold separator. rewrite count_newlines_join.
  - simpl. lia.
  - induction widths as [ | w widths IH ]; simpl; constructor.
    + apply count_newlines_repeat. reflexivity.
    + exact IH.
Qed.

(** C8: for rows as long as the header, [format_table] returns the header
    line, the separator line and one line per row, joined by line breaks:
    2 + number of rows lines.  Each column is as wide as the longest of its
    header and cells; the cells are left-justified to that width and joined
    by [" | "]; the separator is made of runs of dashes of the column
    widths joined by ["-+-"].  When no cell or header contains a line break
    the returned text has exactly that many lines. *)
Theorem format_table_layout (headers : list string) (rows : list (list string)) :
  Forall (fun r => length r = length headers) rows ->
  let widths := max_column_widths headers rows in
  let lines :=
    justified_row widths headers
      :: join "-+-" (map (repeat_string "-") widths)
      :: map (justified_row widths) rows in
  format_table_lines headers rows = Some lines
  /\ format_table headers rows = Some (join newline lines)
  /\ length lines = 2 + length rows
  /\ (Forall (fun cell => count_newlines cell = 0) (headers ++ concat rows) ->
      line_count (join newline lines) = 2 + length rows).
Proof.
  intros Hrows widths lines.
  assert (Hlines : format_table_lines headers rows = Some lines)
    by (apply format_table_lines_matching, Hrows).
  split; [ exact Hlines | ].
  split; [ unfold format_table; rewrite Hlines; reflexivity | ].
  split; [ unfold lines; simpl; rewrite length_map; reflexivity | ].
  intros Hcells. apply Forall_app in Hcells as [ Hheaders Hcells ].
  unfold line_count. rewrite count_newlines_join.
  - unfold lines. simpl. rewrite length_map. lia.
  - unfold lines. constructor; [ | constructor ].
    + apply count_newlines_justified_row, Hheaders.
    + apply count_newlines_separator.
    + clear Hrows Hheaders Hlines. clearbody widths. clear lines.
      induction rows as [ | r rows IH ]; simpl; constructor.
      * apply count_newlines_justified_row.
        simpl in Hcells. apply Forall_app in Hcells as [ Hr _ ]. exact Hr.
      * apply IH. simpl in Hcells. apply Forall_app in Hcells as [ _ Hrest ].
        exact Hrest.
Qed.

Lemma format_table_layout_witness :
  format_table ["ID"; "Name"] [["D1"; "Kettle"]; ["D2"; "Lamp"]]
  = Some (join newline ["ID | Name  "; "---+-------"; "D1 | Kettle"; "D2 | Lamp  "])
  /\ line_count
       (join newline ["ID | Name  "; "---+-------"; "D1 | Kettle"; "D2 | Lamp  "])
     = 4.
Proof.
  destruct (format_table_layout ["ID"; "Name"] [["D1"; "Kettle"]; ["D2"; "Lamp"]])
    as (_ & Htext & _ & Hcount).
  - repeat constructor.
  - split; [ exact Htext | ].
    apply Hcount. repeat constructor.
Defined.
End FormatTable.

(** ** The loops of reporting.py, for any arithmetic *)

Section ReportingLoops.
Context {num : Type} `{PyFloat num}.
Local Open Scope list_scope.
Local Open Scope num_scope.

(** A loop that appends to a list, started from any list. *)
Ltac from_any_accumulator :=
  match goal with
  | |- fold_left ?F ?l [] = ?R =>
      let Hgen := fresh "Hgen" in
      let IH := fresh "IH" in
      enough (Hgen : forall acc, fold_left F l acc = acc ++ R)
        by apply (Hgen []);
      induction l as [ | ? ? IH ]; intros acc; simpl;
        [ rewrite app_nil_r; reflexivity | rewrite IH ]
  end.

Lemma high_usage_alerts_filter (devices : list (Device num)) (threshold : num) :
  high_usage_alerts devices threshold
  = map (fun d =>
           alert_message d (monthly_kwh (wattage d) (avg_hours_per_day d)) threshold)
      (List.filter
         (fun d => monthly_kwh (wattage d) (avg_hours_per_day d) >? threshold)
         devices).
Proof.
  unfold high_usage_alerts. from_any_accumulator.
  destruct (monthly_kwh _ _ >? threshold);
    simpl; rewrite <- ?app_assoc; reflexivity.
Qed.

Lemma device_cost_rows_map (devices : list (Device num)) (price : num) :
  device_cost_rows devices price = map (fun d => device_cost_row d price) devices.
Proof.
  unfold device_cost_rows. from_any_accumulator.
  rewrite <- app_assoc. reflexivity.
Qed.

Lemma predictions_map (devices : list (Device num)) (price : num) :
  predictions devices price
  = map (fun d =>
           (monthly_kwh (wattage d) (avg_hours_per_day d) * price, d,
            monthly_kwh (wattage d) (avg_hours_per_day d)))
      devices.
Proof.
  unfold predictions. from_any_accumulator.
  rewrite <- app_assoc. reflexivity.
Qed.

(** The three running totals are three independent left-to-right sums. *)
Lemma totals_sums (devices : list (Device num)) (price : num) :
  totals devices price
  = {| daily :=
         sum (map (fun d => daily_cost (wattage d) (avg_hours_per_day d) price) devices);
       weekly :=
         sum (map (fun d => weekly_cost (wattage d) (avg_hours_per_day d) price) devices);
       monthly :=
         sum (map (fun d => monthly_cost (wattage d) (avg_hours_per_day d) price) devices)
    |}.
Proof.
  unfold totals, sum.
  generalize (of_int 0) at 1 4 as td.
  generalize (of_int 0) at 1 3 as tw.
  generalize (of_int 0) as tm.
  induction devices as [ | d devices IH ]; intros tm tw td; simpl.
  - reflexivity.
  - rewrite IH. reflexivity.
Qed.

Lemma table_rows_match (rows : list CostRow) :
  Forall (fun r => length r = length TABLE_HEADERS) (map table_row rows).
Proof. induction rows as [ | r rows IH ]; simpl; constructor; auto. Qed.

Lemma cost_table_formatted (rows : list CostRow) :
  exists table, format_table TABLE_HEADERS (map table_row rows) = Some table.
Proof.
  unfold format_table.
  rewrite (format_table_lines_matching TABLE_HEADERS (map table_row rows)
             (table_rows_match rows)).
  eexists. reflexivity.
Qed.

(** The report always has its fixed 21 lines, whatever the devices. *)
Lemma cost_report_lines_grand_totals (devices : list (Device num))
    (price extra : num) :
  exists report,
    cost_report_lines devices price extra = Some report
    /\ build_cost_report_text devices price extra = Some (join newline report)
    /\ report !! 15 = Some "GRAND TOTALS (devices + extra):"
    /\ report !! 16
       = Some ("  Daily:   "
               ++ format_fixed 2 (daily (totals devices price) + extra))%string
    /\ report !! 17
       = Some ("  Weekly:  "
               ++ format_fixed 2 (weekly (totals devices price) + extra * of_int 7))%string
    /\ report !! 18
       = Some ("  Monthly: "
               ++ format_fixed 2 (monthly (totals devices price) + extra * of_int 30))%string.
Proof.
  unfold build_cost_report_text, cost_report_lines.
  destruct (cost_table_formatted (device_cost_rows devices price)) as [ table Htable ].
  rewrite Htable. simpl.
  eexists. split; [ reflexivity | ].
  repeat split.
Qed.
End ReportingLoops.

(** ** Alerts, totals and suggestions on binary64 *)

Section Reports.
Local Open Scope list_scope.
Local Open Scope float_scope.

(** C2 fails for [high_usage_alerts] itself: called with threshold 0 on
    the device of the end-to-end example it returns an alert. *)
Lemma high_usage_alerts_zero_threshold : high_usage_alerts [D1] 0 <> [].
Proof. vm_compute. discriminate. Qed.

(** C2, amended: with threshold 0 the caller, [main], takes the empty list
    without calling [high_usage_alerts]; [high_usage_alerts] treats the
    threshold literally: for any threshold, 0 included, the alerts are
    those of the devices whose monthly kWh strictly exceeds it, in input
    order; and [main] calls it for every threshold above 0. *)
Theorem alerts_threshold :
  (forall devices : list (Device float), main_alerts devices 0 = [])
  /\ (forall (devices : list (Device float)) (threshold : float),
        high_usage_alerts devices threshold
        = map (fun d =>
                 alert_message d
                   (monthly_kwh (wattage d) (avg_hours_per_day d)) threshold)
            (List.filter
               (fun d => threshold <? monthly_kwh (wattage d) (avg_hours_per_day d))
               devices))
  /\ (forall (devices : list (Device float)) (threshold : float),
        (0 <? threshold) = true ->
        main_alerts devices threshold = high_usage_alerts devices threshold).
Proof.
  split; [ | split ].
  - intros devices. reflexivity.
  - intros devices threshold. exact (high_usage_alerts_filter devices threshold).
  - intros devices threshold Hpos. unfold main_alerts.
    change (of_int 0 <? threshold)%num with (0 <? threshold).
    rewrite Hpos. reflexivity.
Qed.

Lemma alerts_threshold_witness :
  main_alerts [D1] 50
  = ["ALERT: D1 'Kettle' in Kitchen uses ~585.00 kWh/month (threshold 50.00)."].
Proof.
  destruct alerts_threshold as (_ & Hfilter & Hmain).
  rewrite (Hmain [D1] 50) by reflexivity.
  rewrite Hfilter. reflexivity.
Defined.

(** C4: [totals] returns the sums over all devices, each device taken
    once and in input order, of [daily_cost], [weekly_cost] and
    [monthly_cost], computed from the unrounded values. *)
Theorem totals_are_sums (devices : list (Device float)) (price : float) :
  totals devices price
  = {| daily :=
         sum (map (fun d => daily_cost (wattage d) (avg_hours_per_day d) price) devices);
       weekly :=
         sum (map (fun d => weekly_cost (wattage d) (avg_hours_per_day d) price) devices);
       monthly :=
         sum (map (fun d => monthly_cost (wattage d) (avg_hours_per_day d) price) devices)
    |}.
Proof. exact (totals_sums devices price). Qed.

(** C6: the grand totals printed by [build_cost_report_text] are the fleet
    totals plus the extra cost at each horizon: daily + e, weekly + 7*e and
    monthly + 30*e; with e = 2.0 the additions are 2.0, 14.0 and 60.0. *)
Theorem grand_totals :
  (forall (devices : list (Device float)) (price extra : float),
      exists report,
        cost_report_lines devices price extra = Some report
        /\ build_cost_report_text devices price extra = Some (join newline report)
        /\ report !! 15%nat = Some "GRAND TOTALS (devices + extra):"
        /\ report !! 16%nat
           = Some ("  Daily:   "
                   ++ format_fixed 2 (daily (totals devices price) + extra))%string
        /\ report !! 17%nat
           = Some ("  Weekly:  "
                   ++ format_fixed 2 (weekly (totals devices price) + 7 * extra))%string
        /\ report !! 18%nat
           = Some ("  Monthly: "
                   ++ format_fixed 2 (monthly (totals devices price) + 30 * extra))%string)
  /\ (forall (devices : list (Device float)) (price : float),
        exists report,
          cost_report_lines devices price 2 = Some report
          /\ report !! 16%nat
             = Some ("  Daily:   "
                     ++ format_fixed 2 (daily (totals devices price) + 2))%string
          /\ report !! 17%nat
             = Some ("  Weekly:  "
                     ++ format_fixed 2 (weekly (totals devices price) + 14))%string
          /\ report !! 18%nat
             = Some ("  Monthly: "
                     ++ format_fixed 2 (monthly (totals devices price) + 60))%string).
Proof.
  split.
  - intros devices price extra.
    destruct (cost_report_lines_grand_totals devices price extra)
      as (report & Hlines & Htext & Htitle & Hd & Hw & Hm).
    exists report. rewrite (mul_comm 7 extra), (mul_comm 30 extra).
    repeat split; assumption.
  - intros devices price.
    destruct (cost_report_lines_grand_totals devices price 2)
      as (report & Hlines & _ & _ & Hd & Hw & Hm).
    exists report. repeat split; assumption.
Qed.

(** C9 fails: no device makes all three rules fire, because more than 12
    hours a day and at most 0.25 hours a day exclude each other. *)
Lemma no_device_fires_all_rules :
  ~ exists d : Device float,
      efficiency_suggestions d = [POWER_SAVING; OFF_PEAK; SANITY_CHECK].
Proof.
  intros [ d Hd ]. unfold efficiency_suggestions in Hd.
  cbn [fle flt of_int quarter binary64] in Hd.
  change (float_of_int 12) with 12 in Hd.
  destruct (12 <? avg_hours_per_day d) eqn:H12;
    destruct (avg_hours_per_day d <=? 0.25) eqn:Hq.
  - assert (Hlt : (avg_hours_per_day d <? 12) = true)
      by (apply (leb_ltb_trans _ 0.25); [ exact Hq | reflexivity ]).
    pose proof (ltb_trans _ _ _ H12 Hlt) as Hcycle.
    rewrite ltb_irrefl in Hcycle. discriminate.
  - rewrite andb_false_r in Hd.
    destruct (float_of_int 1000 <=? wattage d); discriminate.
  - destruct (float_of_int 1000 <=? wattage d),
      (float_of_int 0 <? avg_hours_per_day d); discriminate.
  - rewrite andb_false_r in Hd.
    destruct (float_of_int 1000 <=? wattage d); discriminate.
Qed.

(** C9, amended: three rules are evaluated for every device, each on its
    own: (1) hours > 12, (2) wattage >= 1000, (3) 0 < hours <= 0.25, and
    their suggestions come in the order 1, 2, 3.  Rules 1 and 2 can fire
    together and so can rules 2 and 3, but rules 1 and 3 never do, so at
    most two suggestions are returned.  For wattage 1500 and 13 hours,
    rules 1 and 2 fire and rule 3 does not. *)
Theorem efficiency_rules :
  (forall d : Device float,
      efficiency_suggestions d
      = (if 12 <? avg_hours_per_day d then [POWER_SAVING] else [])
        ++ (if 1000 <=? wattage d then [OFF_PEAK] else [])
        ++ (if (0 <? avg_hours_per_day d) && (avg_hours_per_day d <=? 0.25)
            then [SANITY_CHECK] else []))
  /\ (forall d : Device float,
        (12 <? avg_hours_per_day d)
        && ((0 <? avg_hours_per_day d) && (avg_hours_per_day d <=? 0.25)) = false)
  /\ (forall d : Device float, length (efficiency_suggestions d) <= 2)
  /\ efficiency_suggestions D1 = [POWER_SAVING; OFF_PEAK]
  /\ efficiency_suggestions (mkDevice "D4" "Kettle" 2000 0.25 "Kitchen")
     = [OFF_PEAK; SANITY_CHECK].
Proof.
  assert (Hrules : forall d : Device float,
             efficiency_suggestions d
             = (if 12 <? avg_hours_per_day d then [POWER_SAVING] else [])
               ++ (if 1000 <=? wattage d then [OFF_PEAK] else [])
               ++ (if (0 <? avg_hours_per_day d) && (avg_hours_per_day d <=? 0.25)
                   then [SANITY_CHECK] else [])).
  { intros d. unfold efficiency_suggestions.
    cbn [fle flt of_int quarter binary64].
    change (float_of_int 12) with 12. change (float_of_int 1000) with 1000.
    change (float_of_int 0) with 0.
    destruct (12 <? avg_hours_per_day d), (1000 <=? wattage d),
      ((0 <? avg_hours_per_day d) && (avg_hours_per_day d <=? 0.25));
      reflexivity. }
  assert (Hexcl : forall d : Device float,
             (12 <? avg_hours_per_day d)
             && ((0 <? avg_hours_per_day d) && (avg_hours_per_day d <=? 0.25))
             = false).
  { intros d.
    destruct (12 <? avg_hours_per_day d) eqn:H12; [ | reflexivity ].
    destruct (avg_hours_per_day d <=? 0.25) eqn:Hq;
      [ | rewrite andb_false_r; reflexivity ].
    assert (Hlt : (avg_hours_per_day d <? 12) = true)
      by (apply (leb_ltb_trans _ 0.25); [ exact Hq | reflexivity ]).
    pose proof (ltb_trans _ _ _ H12 Hlt) as Hcycle.
    rewrite ltb_irrefl in Hcycle. discriminate. }
  split; [ exact Hrules | ].
  split; [ exact Hexcl | ].
  split; [ | split; reflexivity ].
  intros d. rewrite Hrules. specialize (Hexcl d).
  destruct (12 <? avg_hours_per_day d), (1000 <=? wattage d),
    ((0 <? avg_hours_per_day d) && (avg_hours_per_day d <=? 0.25));
    simpl in *; try discriminate; lia.
Qed.
End Reports.

(** ** The stable sort

    Facts about [list_sort] for a comparison that is irreflexive and
    transitive, and whose negation is transitive on the keys that satisfy
    [ok] (for floats: every number but NaN). *)

Section SortFacts.
Context {A K : Type} (lt : K -> K -> bool) (key : A -> K) (ok : K -> Prop).
Local Open Scope list_scope.

Hypothesis lt_irrefl : forall x, lt x x = false.
Hypothesis lt_trans :
  forall x y z, lt x y = true -> lt y z = true -> lt x z = true.
Hypothesis not_lt_trans :
  forall x y z, ok x -> ok y -> ok z ->
    lt x y = false -> lt y z = false -> lt x z = false.

Lemma insert_right_perm (x : A) (l : list A) :
  Permutation (insert_right lt key x l) (x :: l).
Proof.
  induction l as [ | y ys IH ]; simpl; [ reflexivity | ].
  destruct (lt (key x) (key y)); [ reflexivity | ].
  rewrite IH. apply perm_swap.
Qed.

Lemma insert_right_ascending (x : A) (l : list A) :
  ascending lt key l -> ascending lt key (insert_right lt key x l).
Proof.
  unfold ascending.
  induction 1 as [ | y ys Hys IH Hy ]; simpl.
  - repeat constructor.
  - destruct (lt (key x) (key y)) eqn:Hxy.
    + constructor; [ constructor; assumption | ].
      constructor.
      * destruct (lt (key y) (key x)) eqn:Hyx; [ | reflexivity ].
        rewrite <- (lt_irrefl (key x)). symmetry. eapply lt_trans; eassumption.
      * eapply List.Forall_impl; [ | exact Hy ].
        intros z Hz. simpl in Hz.
        destruct (lt (key z) (key x)) eqn:Hzx; [ | reflexivity ].
        rewrite <- Hz. symmetry. eapply lt_trans; eassumption.
    + constructor; [ exact IH | ].
      eapply Permutation_Forall;
        [ symmetry; apply insert_right_perm | ].
      constructor; assumption.
Qed.

Lemma filter_none (f : A -> bool) (l : list A) :
  Forall (fun a => f a = false) l -> List.filter f l = [].
Proof.
  induction 1 as [ | a l Ha _ IH ]; simpl; [ reflexivity | ].
  rewrite Ha. exact IH.
Qed.

(** An element is inserted after the elements with the same key. *)
Lemma insert_right_stable (k : K) (x : A) (l : list A) :
  ok k -> ok (key x) -> Forall (fun a => ok (key a)) l ->
  ascending lt key l ->
  List.filter (same_key lt key k) (insert_right lt key x l)
  = List.filter (same_key lt key k) l ++ List.filter (same_key lt key k) [x].
Proof.
  intros Hk Hx Hok Hasc. unfold ascending in Hasc.
  induction Hasc as [ | y ys Hys IH Hy ]; [ simpl; reflexivity | ].
  inversion Hok as [ | ? ? Hoky Hokys ]; subst.
  cbn [insert_right].
  destruct (lt (key x) (key y)) eqn:Hxy.
  - destruct (same_key lt key k x) eqn:Ekx.
    + (* every element from [y] on is above [x], hence above [k] *)
      assert (Hnone : Forall (fun a => same_key lt key k a = false) (y :: ys)).
      { assert (Habove : Forall (fun a => lt (key x) (key a) = true) (y :: ys)).
        { constructor; [ exact Hxy | ].
          rewrite Forall_forall in Hy, Hokys. apply Forall_forall.
          intros z Hz.
          destruct (lt (key x) (key z)) eqn:Hxz; [ reflexivity | ].
          rewrite <- Hxy. symmetry.
          apply (not_lt_trans _ (key z)); auto. }
        rewrite Forall_forall in Habove. apply Forall_forall.
        intros z Hz. specialize (Habove z Hz).
        assert (Hokz : ok (key z)).
        { rewrite Forall_forall in Hok. apply Hok, Hz. }
        unfold same_key in *.
        apply andb_true_iff in Ekx as [ Hkx Hxk ].
        apply negb_true_iff in Hkx, Hxk.
        destruct (lt k (key z)) eqn:Hkz; [ reflexivity | ].
        pose proof (not_lt_trans (key x) k (key z) Hx Hk Hokz Hxk Hkz).
        congruence. }
      change (x :: y :: ys) with ([x] ++ (y :: ys)).
      rewrite List.filter_app, (filter_none _ _ Hnone), app_nil_r. reflexivity.
    + simpl. rewrite Ekx, app_nil_r. reflexivity.
  - cbn [List.filter]. rewrite (IH Hokys).
    destruct (same_key lt key k y); reflexivity.
Qed.

Lemma sort_ascending_from (l : list A) :
  forall sorted : list A,
    Forall (fun a => ok (key a)) (sorted ++ l) ->
    ascending lt key sorted ->
    ascending lt key (fold_left (fun s x => insert_right lt key x s) l sorted)
    /\ Permutation (fold_left (fun s x => insert_right lt key x s) l sorted)
         (sorted ++ l)
    /\ forall k, ok k ->
         List.filter (same_key lt key k)
           (fold_left (fun s x => insert_right lt key x s) l sorted)
         = List.filter (same_key lt key k) (sorted ++ l).
Proof.
  induction l as [ | x l IH ]; intros sorted Hok Hasc; simpl.
  - rewrite app_nil_r. auto.
  - apply Forall_app in Hok as Hok'. destruct Hok' as [ Hoks Hokl ].
    inversion Hokl as [ | ? ? Hokx Hokl' ]; subst.
    destruct (IH (insert_right lt key x sorted)) as (Hasc' & Hperm & Hstable).
    + eapply Permutation_Forall.
      * apply Permutation_app_tail. symmetry. apply insert_right_perm.
      * simpl. constructor; [ exact Hokx | ].
        apply Forall_app. split; assumption.
    + apply insert_right_ascending, Hasc.
    + split; [ exact Hasc' | ]. split.
      * rewrite Hperm, insert_right_perm. apply Permutation_middle.
      * intros k Hk. rewrite (Hstable k Hk).
        change (x :: l) with ([x] ++ l).
        rewrite !List.filter_app.
        rewrite (insert_right_stable k x sorted Hk Hokx Hoks Hasc).
        rewrite <- app_assoc. reflexivity.
Qed.

Lemma descending_snoc (x : A) (l : list A) :
  descending lt key l ->
  Forall (fun y => lt (key y) (key x) = false) l ->
  descending lt key (l ++ [x]).
Proof.
  unfold descending.
  induction 1 as [ | y ys Hys IH Hy ]; intros Hx; simpl.
  - repeat constructor.
  - inversion Hx as [ | ? ? Hyx Hysx ]; subst.
    constructor; [ apply IH, Hysx | ].
    apply Forall_app. split; [ exact Hy | ].
    constructor; [ exact Hyx | constructor ].
Qed.

Lemma descending_rev (l : list A) :
  ascending lt key l -> descending lt key (rev l).
Proof.
  unfold ascending.
  induction 1 as [ | x l Hl IH Hx ]; simpl.
  - constructor.
  - apply descending_snoc; [ exact IH | ].
    apply List.Forall_rev, Hx.
Qed.

Lemma StronglySorted_app {B : Type} (R : B -> B -> Prop) (l1 l2 : list B) :
  StronglySorted R (l1 ++ l2)
  <-> StronglySorted R l1 /\ StronglySorted R l2
      /\ Forall (fun a => Forall (R a) l2) l1.
Proof.
  induction l1 as [ | a l1 IH ]; simpl.
  - split; [ intros Hl; repeat split; [ constructor | exact Hl | constructor ]
           | intros (_ & Hl & _); exact Hl ].
  - split.
    + intros Hs. inversion Hs as [ | ? ? Hrest Ha ]; subst.
      apply IH in Hrest as (H1 & H2 & H12).
      apply Forall_app in Ha as [ Ha1 Ha2 ].
      repeat split; [ constructor; assumption | assumption | ].
      constructor; assumption.
    + intros (H1 & H2 & H12).
      inversion H1 as [ | ? ? Hrest Ha ]; subst.
      inversion H12 as [ | ? ? Ha2 H12' ]; subst.
      constructor; [ apply IH; auto | ].
      apply Forall_app. auto.
Qed.

(** The run sort is the stable insertion sort on keys that are all [ok]. *)

Lemma insert_right_at (x : A) (sorted : list A) :
  insert_right lt key x sorted
  = take (insertion_point lt key (key x) sorted) sorted
      ++ x :: drop (insertion_point lt key (key x) sorted) sorted.
Proof.
  induction sorted as [ | y ys IH ]; simpl; [ reflexivity | ].
  destruct (lt (key x) (key y)); simpl; [ reflexivity | ].
  rewrite IH. reflexivity.
Qed.

Lemma insertion_point_le (pivot : K) (sorted : list A) :
  insertion_point lt key pivot sorted <= length sorted.
Proof.
  induction sorted as [ | y ys IH ]; simpl; [ lia | ].
  destruct (lt pivot (key y)); simpl; lia.
Qed.

(** In an ascending list the elements above [pivot] are those from its
    insertion point on. *)
Lemma insertion_point_spec (pivot : K) (sorted : list A) :
  ok pivot -> Forall (fun a => ok (key a)) sorted -> ascending lt key sorted ->
  forall i y, nth_error sorted i = Some y ->
    (lt pivot (key y) = true <-> insertion_point lt key pivot sorted <= i).
Proof.
  intros Hpivot Hok Hasc. unfold ascending in Hasc.
  induction Hasc as [ | a l Hl IH Ha ]; intros i y Hi.
  - destruct i; discriminate.
  - inversion Hok as [ | ? ? Hoka Hokl ]; subst.
    cbn [insertion_point].
    destruct (lt pivot (key a)) eqn:Hpa.
    + split; [ lia | intros _ ].
      destruct i as [ | i ]; simpl in Hi; [ congruence | ].
      apply nth_error_In in Hi.
      rewrite List.Forall_forall in Ha, Hokl.
      destruct (lt pivot (key y)) eqn:Hpy; [ reflexivity | ].
      rewrite (not_lt_trans pivot (key y) (key a)) in Hpa; auto.
    + destruct i as [ | i ]; simpl in Hi.
      * injection Hi as <-. rewrite Hpa. split; [ discriminate | lia ].
      * rewrite (IH Hokl i y Hi). lia.
Qed.

Lemma binary_search_spec (pivot : K) (sorted : list A) :
  ok pivot -> Forall (fun a => ok (key a)) sorted -> ascending lt key sorted ->
  forall steps l r,
    l <= insertion_point lt key pivot sorted <= r -> r <= length sorted ->
    r - l <= steps ->
    binary_search lt key steps pivot sorted l r
    = insertion_point lt key pivot sorted.
Proof.
  intros Hpivot Hok Hasc.
  pose proof (insertion_point_spec pivot sorted Hpivot Hok Hasc) as Hspec.
  induction steps as [ | steps IH ]; intros l r Hlr Hr Hsteps; simpl.
  - lia.
  - destruct (Nat.ltb_spec l r) as [ Hlt | Hge ]; [ | lia ].
    assert (Hhalf : Nat.div2 (r - l) < r - l) by (apply Nat.lt_div2; lia).
    set (half := Nat.div2 (r - l)) in *. clearbody half.
    destruct (nth_error sorted (l + half)) as [ y | ] eqn:Hy.
    + destruct (lt pivot (key y)) eqn:Hpy.
      * apply IH; [ | lia | lia ].
        apply (Hspec _ _ Hy) in Hpy. lia.
      * apply IH; [ | lia | lia ].
        assert (~ insertion_point lt key pivot sorted <= l + half).
        { intros Hle. apply (Hspec _ _ Hy) in Hle. congruence. }
        lia.
    + apply nth_error_None in Hy. lia.
Qed.

Lemma binary_insert_right (sorted : list A) (x : A) :
  ok (key x) -> Forall (fun a => ok (key a)) sorted -> ascending lt key sorted ->
  binary_insert lt key sorted x = insert_right lt key x sorted.
Proof.
  intros Hx Hok Hasc. unfold binary_insert.
  rewrite (binary_search_spec (key x) sorted Hx Hok Hasc), <- insert_right_at;
    [ reflexivity | | | ].
  - pose proof (insertion_point_le (key x) sorted). lia.
  - lia.
  - lia.
Qed.

Lemma binarysort_insertion (rest : list A) :
  forall sorted,
    Forall (fun a => ok (key a)) (sorted ++ rest) -> ascending lt key sorted ->
    binarysort lt key sorted rest
    = fold_left (fun s x => insert_right lt key x s) rest sorted.
Proof.
  unfold binarysort.
  induction rest as [ | x rest IH ]; intros sorted Hok Hasc; simpl;
    [ reflexivity | ].
  apply Forall_app in Hok as [ Hsorted Hrest ].
  inversion Hrest as [ | ? ? Hx Hrest' ]; subst.
  rewrite (binary_insert_right sorted x Hx Hsorted Hasc).
  apply IH.
  - apply Forall_app. split; [ | exact Hrest' ].
    eapply Permutation_Forall; [ symmetry; apply insert_right_perm | ].
    constructor; assumption.
  - apply insert_right_ascending, Hasc.
Qed.

Lemma insert_right_last (x : A) (sorted : list A) :
  Forall (fun a => lt (key x) (key a) = false) sorted ->
  insert_right lt key x sorted = sorted ++ [x].
Proof.
  induction 1 as [ | a l Ha _ IH ]; simpl; [ reflexivity | ].
  rewrite Ha, IH. reflexivity.
Qed.

(** An ascending list is left as it is. *)
Lemma sort_ascending_sorted (l : list A) :
  forall sorted,
    ascending lt key (sorted ++ l) ->
    fold_left (fun s x => insert_right lt key x s) l sorted = sorted ++ l.
Proof.
  induction l as [ | x l IH ]; intros sorted Hasc; simpl.
  - rewrite app_nil_r. reflexivity.
  - rewrite insert_right_last.
    + rewrite IH; rewrite <- app_assoc; [ reflexivity | exact Hasc ].
    + apply StronglySorted_app in Hasc as (_ & _ & Hall).
      rewrite List.Forall_forall in Hall. apply List.Forall_forall.
      intros a Ha. specialize (Hall a Ha).
      inversion Hall; subst. assumption.
Qed.

(** A strictly descending list is reversed. *)
Lemma sort_ascending_falling (l : list A) :
  forall done,
    StronglySorted (fun a b => lt (key b) (key a) = true) (done ++ l) ->
    fold_left (fun s x => insert_right lt key x s) l (rev done) = rev (done ++ l).
Proof.
  induction l as [ | x l IH ]; intros done Hfall; simpl.
  - rewrite app_nil_r. reflexivity.
  - assert (Hfront : insert_right lt key x (rev done) = rev (done ++ [x])).
    { rewrite rev_app_distr. simpl.
      destruct (rev done) as [ | a rest ] eqn:Erev; [ reflexivity | ].
      simpl.
      apply StronglySorted_app in Hfall as (_ & _ & Hall).
      rewrite List.Forall_forall in Hall.
      assert (Ha : In a done)
        by (apply in_rev; rewrite Erev; left; reflexivity).
      specialize (Hall a Ha). inversion Hall as [ | ? ? Hxa _ ]; subst.
      rewrite Hxa. reflexivity. }
    rewrite Hfront, IH; rewrite <- app_assoc; [ reflexivity | exact Hfall ].
Qed.

(** The run that [count_run] finds. *)
Lemma run_ascending (rest : list A) :
  forall prev front,
    Forall (fun a => ok (key a)) (front ++ prev :: rest) ->
    ascending lt key (front ++ [prev]) ->
    ascending lt key
      (front ++ prev :: take (run_length lt key false prev rest) rest).
Proof.
  induction rest as [ | x rest IH ]; intros prev front Hok Hasc; simpl.
  - exact Hasc.
  - destruct (lt (key x) (key prev)) eqn:Hx; simpl; [ exact Hasc | ].
    change (front ++ prev :: x :: take (run_length lt key false x rest) rest)
      with (front ++ [prev] ++ x :: take (run_length lt key false x rest) rest).
    rewrite app_assoc. apply IH.
    + rewrite <- app_assoc. exact Hok.
    + apply StronglySorted_app. split; [ exact Hasc | ].
      split; [ repeat constructor | ].
      apply List.Forall_forall. intros a Ha. constructor; [ | constructor ].
      apply Forall_app in Hok as [ Hfront Hrest ].
      inversion Hrest as [ | ? ? Hprev Hrest' ]; subst.
      inversion Hrest' as [ | ? ? Hokx _ ]; subst.
      apply in_app_or in Ha as [ Ha | [ <- | [] ] ]; [ | exact Hx ].
      apply (not_lt_trans _ (key prev)); auto.
      * rewrite List.Forall_forall in Hfront. auto.
      * apply StronglySorted_app in Hasc as (_ & _ & Hall).
        rewrite List.Forall_forall in Hall.
        specialize (Hall a Ha). inversion Hall; subst. assumption.
Qed.

Lemma run_falling (rest : list A) :
  forall prev front,
    StronglySorted (fun a b => lt (key b) (key a) = true) (front ++ [prev]) ->
    StronglySorted (fun a b => lt (key b) (key a) = true)
      (front ++ prev :: take (run_length lt key true prev rest) rest).
Proof.
  induction rest as [ | x rest IH ]; intros prev front Hfall; simpl.
  - exact Hfall.
  - destruct (lt (key x) (key prev)) eqn:Hx; simpl; [ | exact Hfall ].
    change (front ++ prev :: x :: take (run_length lt key true x rest) rest)
      with (front ++ [prev] ++ x :: take (run_length lt key true x rest) rest).
    rewrite app_assoc. apply IH.
    apply StronglySorted_app. split; [ exact Hfall | ].
    split; [ repeat constructor | ].
    apply List.Forall_forall. intros a Ha. constructor; [ | constructor ].
    apply in_app_or in Ha as [ Ha | [ <- | [] ] ]; [ | exact Hx ].
    apply (lt_trans _ (key prev)); [ exact Hx | ].
    apply StronglySorted_app in Hfall as (_ & _ & Hall).
    rewrite List.Forall_forall in Hall.
    specialize (Hall a Ha). inversion Hall; subst. assumption.
Qed.

(** On keys that are all [ok] the sort of one run is the stable insertion
    sort. *)
Lemma sort_run_insertion (l : list A) :
  Forall (fun a => ok (key a)) l ->
  sort_run lt key l = sort_ascending lt key l.
Proof.
  intros Hok. unfold sort_run, sort_ascending.
  destruct (count_run lt key l) as [ n descending ] eqn:Erun.
  assert (Hsplit : fold_left (fun s x => insert_right lt key x s) l []
                   = fold_left (fun s x => insert_right lt key x s) (drop n l)
                       (fold_left (fun s x => insert_right lt key x s)
                          (take n l) []))
    by (rewrite <- fold_left_app, take_drop; reflexivity).
  assert (Hrun : fold_left (fun s x => insert_right lt key x s) (take n l) []
                 = if descending then rev (take n l) else take n l).
  { destruct l as [ | x [ | y rest ] ]; simpl in Erun.
    - injection Erun as <- <-. reflexivity.
    - injection Erun as <- <-. reflexivity.
    - injection Erun as <- <-.
      cbn [Nat.add take].
      destruct (lt (key y) (key x)) eqn:Hyx.
      + apply (sort_ascending_falling _ []).
        apply (run_falling rest y [x]).
        repeat constructor. exact Hyx.
      + apply (sort_ascending_sorted _ []).
        apply (run_ascending rest y [x]); [ exact Hok | ].
        repeat constructor. exact Hyx. }
  rewrite Hsplit, Hrun.
  destruct (sort_ascending_from (take n l) []) as (Hasc & Hperm & _).
  { simpl. apply Forall_take, Hok. }
  { constructor. }
  rewrite Hrun in Hasc, Hperm. simpl in Hperm.
  apply binarysort_insertion; [ | exact Hasc ].
  apply Forall_app. split; [ | apply Forall_drop, Hok ].
  eapply Permutation_Forall; [ symmetry; exact Hperm | apply Forall_take, Hok ].
Qed.
(** A list has one sorted rearrangement only in which the elements with
    the same key keep their order: every stable sort returns it. *)
Lemma stable_sorted_unique (R : A -> A -> Prop) (l1 : list A) :
  (forall a b, R a b -> R b a -> same_key lt key (key a) b = true) ->
  forall l2,
    Permutation l1 l2 -> StronglySorted R l1 -> StronglySorted R l2 ->
    (forall a, In a l1 ->
       List.filter (same_key lt key (key a)) l1
       = List.filter (same_key lt key (key a)) l2) ->
    l1 = l2.
Proof.
  intros Hsame.
  assert (Hrefl : forall a, same_key lt key (key a) a = true).
  { intros a. unfold same_key. rewrite lt_irrefl. reflexivity. }
  induction l1 as [ | a l1 IH ]; intros l2 Hperm H1 H2 Hstable.
  - apply Permutation_nil in Hperm. congruence.
  - destruct l2 as [ | b l2 ].
    { symmetry in Hperm. apply Permutation_nil in Hperm. discriminate. }
    inversion H1 as [ | ? ? Hl1 Ha ]; subst.
    inversion H2 as [ | ? ? Hl2 Hb ]; subst.
    assert (Hab : a = b).
    { assert (Hin_b : In b (a :: l1))
        by (eapply Permutation_in; [ symmetry; exact Hperm | left; reflexivity ]).
      assert (Hin_a : In a (b :: l2))
        by (eapply Permutation_in; [ exact Hperm | left; reflexivity ]).
      destruct Hin_b as [ E | Hin_b ]; [ exact E | ].
      destruct Hin_a as [ E | Hin_a ]; [ congruence | ].
      rewrite List.Forall_forall in Ha, Hb.
      specialize (Hstable a (or_introl eq_refl)). simpl in Hstable.
      rewrite Hrefl, (Hsame a b (Ha b Hin_b) (Hb a Hin_a)) in Hstable.
      congruence. }
    subst b. f_equal.
    apply IH; [ eapply Permutation_cons_inv; exact Hperm | assumption.. | ].
    intros a' Ha'. specialize (Hstable a' (or_intror Ha')). simpl in Hstable.
    destruct (same_key lt key (key a') a); congruence.
Qed.

(** [list.sort(reverse=True)] on keys that are all [ok]: the result is a
    rearrangement of the list, in descending order, in which the elements
    with the same key keep the order they had. *)
Lemma list_sort_reverse_stable (l : list A) :
  Forall (fun a => ok (key a)) l ->
  descending lt key (list_sort lt key true l)
  /\ Permutation (list_sort lt key true l) l
  /\ forall k, ok k ->
       List.filter (same_key lt key k) (list_sort lt key true l)
       = List.filter (same_key lt key k) l.
Proof.
  intros Hok. unfold list_sort.
  rewrite sort_run_insertion by (apply List.Forall_rev, Hok).
  unfold sort_ascending.
  destruct (sort_ascending_from (rev l) []) as (Hasc & Hperm & Hstable).
  - simpl. apply List.Forall_rev, Hok.
  - constructor.
  - simpl in Hperm, Hstable.
    split; [ apply descending_rev, Hasc | ]. split.
    + rewrite <- Permutation_rev, Hperm, <- Permutation_rev. reflexivity.
    + intros k Hk.
      rewrite List.filter_rev, (Hstable k Hk), List.filter_rev, rev_involutive.
      reflexivity.
Qed.

End SortFacts.

(** ** The ranking of build_predictions_text *)

Section Ranking.
Local Open Scope list_scope.
Local Open Scope float_scope.

Lemma StronglySorted_among {A : Type} (P : A -> Prop) (R R' : A -> A -> Prop)
    (l : list A) :
  (forall a b, P a -> P b -> R a b -> R' a b) ->
  Forall P l -> StronglySorted R l -> StronglySorted R' l.
Proof.
  intros Himpl HP Hsorted.
  induction Hsorted as [ | a l Hl IH Ha ]; [ constructor | ].
  inversion HP as [ | ? ? HPa HPl ]; subst.
  constructor; [ apply IH, HPl | ].
  rewrite Forall_forall in Ha, HPl. apply Forall_forall.
  intros b Hb. apply Himpl; auto.
Qed.

(** C3 fails when a cost is NaN.  The four devices pass the validation (an
    infinite wattage with 0 hours is accepted) and their monthly costs are
    3.00, NaN, 30.00 and 15.00.  The sort leaves them in this order, so the
    ranking lists the costs 3.00, NaN and 30.00: it is not in descending
    order, and it leaves out the device that costs 15.00 while it lists the
    one that costs 3.00. *)
Lemma top3_ranking_nan :
  Forall
    (fun d => validate_device_values (wattage d) (avg_hours_per_day d) = Returns tt)
    nan_sample
  /\ validate_price_per_kwh p010 = Returns tt
  /\ map (fun x => (device_id (snd (fst x)), format_fixed 2 (pred_key x)))
       (predictions nan_sample p010)
     = [ ("N1", "3.00"); ("N2", "nan"); ("N3", "30.00"); ("N4", "15.00") ]
  /\ map (fun x => (device_id (snd (fst x)), format_fixed 2 (pred_key x)))
       (top3 nan_sample p010)
     = [ ("N1", "3.00"); ("N2", "nan"); ("N3", "30.00") ]
  /\ ~ StronglySorted (fun a b => (pred_key b <=? pred_key a) = true)
        (top3 nan_sample p010)
  /\ build_predictions_text nan_sample p010
     = join newline
         [ "PREDICTIONS / INSIGHTS";
           "";
           "Top devices by expected monthly cost:";
           "1. N1 Lamp (Hall) -> 30.00 kWh/mo, 3.00/mo";
           "2. N2 Heater (Hall) -> nan kWh/mo, nan/mo";
           "3. N3 Oven (Kitchen) -> 300.00 kWh/mo, 30.00/mo";
           "";
           "Note: This is a simple projection based on average daily hours (no time-series learning)." ].
Proof.
  split; [ repeat constructor | ].
  split; [ reflexivity | ].
  split; [ vm_compute; reflexivity | ].
  split; [ vm_compute; reflexivity | ].
  split; [ | vm_compute; reflexivity ].
  intros Hsorted.
  assert (Htop : top3 nan_sample p010
                 = [ (monthly_kwh 100 10 * p010, N1, monthly_kwh 100 10);
                     (monthly_kwh infinity 0 * p010, N2, monthly_kwh infinity 0);
                     (monthly_kwh 1000 10 * p010, N3, monthly_kwh 1000 10) ])
    by (vm_compute; reflexivity).
  rewrite Htop in Hsorted.
  inversion Hsorted as [ | ? ? _ Hfirst ]; subst.
  inversion Hfirst as [ | ? ? _ Hrest ]; subst.
  inversion Hrest as [ | ? ? Hthird _ ]; subst.
  vm_compute in Hthird. discriminate.
Qed.

(** C3, amended: when no monthly cost is NaN, as is the case for finite
    wattage, hours and price with a price above 0 ([finite_costs_not_nan]),
    the ranking of [build_predictions_text] computes the projected monthly
    cost of every device (monthly kWh times price), sorts the devices by it
    in descending order, keeps the input order of the devices whose costs
    are equal, and takes the first 3 entries, or all of them when there are
    fewer than 3 devices.  The sorted list is the only rearrangement of the
    entries that is in descending order and keeps the input order of equal
    costs. *)
Theorem top3_ranking (devices : list (Device float)) (price : float) :
  Forall
    (fun d =>
       PrimFloat.is_nan (monthly_kwh (wattage d) (avg_hours_per_day d) * price)
       = false)
    devices ->
  let preds :=
    map (fun d =>
           (monthly_kwh (wattage d) (avg_hours_per_day d) * price, d,
            monthly_kwh (wattage d) (avg_hours_per_day d)))
      devices in
  let ranked := list_sort PrimFloat.ltb pred_key true preds in
  predictions devices price = preds
  /\ top3 devices price = take 3 ranked
  /\ Permutation ranked preds
  /\ StronglySorted (fun a b => (pred_key b <=? pred_key a) = true) ranked
  /\ (forall k : float,
        PrimFloat.is_nan k = false ->
        List.filter (fun x => pred_key x =? k) ranked
        = List.filter (fun x => pred_key x =? k) preds)
  /\ length (top3 devices price) = Nat.min 3 (length devices)
  /\ (length devices <= 3 -> top3 devices price = ranked)
  /\ (forall other,
        Permutation other preds ->
        StronglySorted (fun a b => (pred_key b <=? pred_key a) = true) other ->
        (forall k : float,
            PrimFloat.is_nan k = false ->
            List.filter (fun x => pred_key x =? k) other
            = List.filter (fun x => pred_key x =? k) preds) ->
        other = ranked).
Proof.
  intros Hnan preds ranked.
  assert (Hpreds : predictions devices price = preds)
    by exact (predictions_map devices price).
  assert (Hok : Forall (fun x => PrimFloat.is_nan (pred_key x) = false) preds).
  { unfold preds. rewrite List.Forall_map. exact Hnan. }
  destruct (list_sort_reverse_stable PrimFloat.ltb pred_key
              (fun k => PrimFloat.is_nan k = false)
              ltb_irrefl ltb_trans not_ltb_trans preds Hok)
    as (Hdesc & Hperm & Hstable).
  fold ranked in Hdesc, Hperm, Hstable.
  assert (Hok' : Forall (fun x => PrimFloat.is_nan (pred_key x) = false) ranked).
  { eapply Permutation_Forall; [ symmetry; exact Hperm | exact Hok ]. }
  assert (Hsame : forall (k : float) (l : list (float * Device float * float)),
             PrimFloat.is_nan k = false ->
             Forall (fun x => PrimFloat.is_nan (pred_key x) = false) l ->
             List.filter (fun x => pred_key x =? k) l
             = List.filter (same_key PrimFloat.ltb pred_key k) l).
  { intros k l Hk Hl. apply List.filter_ext_in. intros x Hx.
    rewrite List.Forall_forall in Hl. unfold same_key.
    rewrite (eqb_ltb _ _ (Hl x Hx) Hk). apply andb_comm. }
  assert (Htop : top3 devices price = take 3 ranked).
  { unfold top3. rewrite Hpreds. reflexivity. }
  assert (Hlen : length ranked = length devices).
  { rewrite (Permutation_length Hperm). unfold preds. apply length_map. }
  assert (Hsorted :
    StronglySorted (fun a b => (pred_key b <=? pred_key a) = true) ranked).
  { apply (StronglySorted_among
             (fun x => PrimFloat.is_nan (pred_key x) = false)
             (fun a b => (pred_key a <? pred_key b) = false)).
    - intros a b Ha Hb Hab. apply not_ltb_leb; assumption.
    - exact Hok'.
    - exact Hdesc. }
  assert (Hkeep : forall k : float,
             PrimFloat.is_nan k = false ->
             List.filter (fun x => pred_key x =? k) ranked
             = List.filter (fun x => pred_key x =? k) preds).
  { intros k Hk.
    rewrite (Hsame k ranked Hk Hok'), (Hsame k preds Hk Hok).
    apply Hstable, Hk. }
  split; [ exact Hpreds | ].
  split; [ exact Htop | ].
  split; [ exact Hperm | ].
  split; [ exact Hsorted | ].
  split; [ exact Hkeep | ].
  split.
  { rewrite Htop, length_take, Hlen. reflexivity. }
  split.
  { intros Hfew. rewrite Htop. apply take_ge. lia. }
  intros other Hother Hother_sorted Hother_keep.
  assert (Hok'' : Forall (fun x => PrimFloat.is_nan (pred_key x) = false) other).
  { eapply Permutation_Forall; [ symmetry; exact Hother | exact Hok ]. }
  apply (stable_sorted_unique PrimFloat.ltb pred_key ltb_irrefl
           (fun a b => (pred_key b <=? pred_key a) = true)).
  - intros a b Hba Hab. unfold same_key.
    rewrite (leb_not_ltb _ _ Hab), (leb_not_ltb _ _ Hba). reflexivity.
  - rewrite Hother, Hperm. reflexivity.
  - exact Hother_sorted.
  - exact Hsorted.
  - intros a Ha.
    assert (Hka : PrimFloat.is_nan (pred_key a) = false).
    { rewrite List.Forall_forall in Hok''. exact (Hok'' a Ha). }
    rewrite <- (Hsame _ other Hka Hok''), <- (Hsame _ ranked Hka Hok').
    rewrite (Hother_keep _ Hka), (Hkeep _ Hka). reflexivity.
Qed.

Lemma top3_ranking_witness :
  map (fun x => device_id (snd (fst x))) (top3 ranking_sample p010)
  = ["D1"; "R1"; "R2"].
Proof.
  destruct (top3_ranking ranking_sample p010) as (_ & Htop & _).
  - repeat constructor.
  - rewrite Htop. reflexivity.
Defined.
End Ranking.

(** ** Totals per room *)

Section RoomKeys.
Context {num : Type} `{PyFloat num}.
Local Open Scope list_scope.

Lemma dict_add_keys (m : dict num) (k : string) (c : num) (r : string) :
  In r (dict_keys (dict_add m k c)) <-> r = k \/ In r (dict_keys m).
Proof.
  induction m as [ | [k' v] m IH ]; simpl.
  - split; intros [ E | [] ]; left; congruence.
  - destruct (String.eqb_spec k' k) as [ -> | Hne ]; simpl.
    + split.
      * intros [ E | Hin ]; [ left; congruence | right; right; exact Hin ].
      * intros [ E | [ E | Hin ] ];
          [ left; congruence | left; exact E | right; exact Hin ].
    + rewrite IH. tauto.
Qed.

Lemma dict_add_NoDup (m : dict num) (k : string) (c : num) :
  List.NoDup (dict_keys m) -> List.NoDup (dict_keys (dict_add m k c)).
Proof.
  induction m as [ | [k' v] m IH ]; simpl; intros Hm.
  - repeat constructor. intros [].
  - inversion Hm as [ | ? ? Hnotin Hrest ]; subst.
    destruct (String.eqb_spec k' k) as [ -> | Hne ]; simpl.
    + constructor; assumption.
    + constructor; [ | apply IH, Hrest ].
      rewrite dict_add_keys. intros [ -> | Hin ]; [ apply Hne; reflexivity | ].
      apply Hnotin, Hin.
Qed.

(** The rooms of the result are the rooms of the devices, each once. *)
Lemma room_monthly_totals_keys (devices : list (Device num)) (price : num) :
  List.NoDup (dict_keys (room_monthly_totals devices price))
  /\ forall room,
       In room (dict_keys (room_monthly_totals devices price))
       <-> exists d, In d devices /\ room_location d = room.
Proof.
  unfold room_monthly_totals.
  enough (Hgen : forall by_room : dict num,
             List.NoDup (dict_keys by_room) ->
             List.NoDup (dict_keys
                      (fold_left
                         (fun by_room d =>
                            dict_add by_room (room_location d)
                              (monthly_cost (wattage d) (avg_hours_per_day d) price))
                         devices by_room))
             /\ forall room,
                  In room
                    (dict_keys
                       (fold_left
                          (fun by_room d =>
                             dict_add by_room (room_location d)
                               (monthly_cost (wattage d) (avg_hours_per_day d) price))
                          devices by_room))
                  <-> In room (dict_keys by_room)
                      \/ exists d, In d devices /\ room_location d = room).
  { destruct (Hgen [] (List.NoDup_nil _)) as [ Hnodup Hin ].
    split; [ exact Hnodup | ].
    intros room. rewrite Hin. simpl. intuition. }
  induction devices as [ | d devices IH ]; intros by_room Hnodup; simpl.
  - split; [ exact Hnodup | ].
    intros room. split; [ auto | ].
    intros [ Hin | (d & [] & _) ]. exact Hin.
  - destruct (IH (dict_add by_room (room_location d)
                    (monthly_cost (wattage d) (avg_hours_per_day d) price))
                (dict_add_NoDup _ _ _ Hnodup)) as [ Hnodup' Hin ].
    split; [ exact Hnodup' | ].
    intros room. rewrite Hin, dict_add_keys. split.
    + intros [ [ -> | Hold ] | (d' & Hd' & Hroom) ].
      * right. exists d. auto.
      * left. exact Hold.
      * right. exists d'. auto.
    + intros [ Hold | (d' & [ <- | Hd' ] & Hroom) ].
      * left. right. exact Hold.
      * left. left. symmetry. exact Hroom.
      * right. exists d'. auto.
Qed.
End RoomKeys.

(** The totals by room, in the arithmetic of the code. *)

Section RoomGroups.
Context {num : Type} `{PyFloat num}.
Local Open Scope list_scope.

(** Adding [c] to a room adds [c] to that room and leaves the others. *)
Lemma room_total_added (m : dict num) (k : string) (c : num) (room : string) :
  room_total (dict_add m k c) room
  = if String.eqb k room then fadd (room_total m room) c else room_total m room.
Proof.
  unfold room_total, dict_get.
  induction m as [ | [k' v] m IH ]; simpl.
  - destruct (String.eqb k room); reflexivity.
  - destruct (String.eqb_spec k' k) as [ -> | Hne ]; simpl.
    + destruct (String.eqb k room); reflexivity.
    + destruct (String.eqb_spec k' room) as [ -> | Hne' ]; simpl.
      * destruct (String.eqb_spec k room) as [ -> | _ ];
          [ contradiction | reflexivity ].
      * exact IH.
Qed.

Lemma room_total_from (devices : list (Device num)) (price : num) (room : string) :
  forall by_room : dict num,
    room_total
      (fold_left
         (fun by_room d =>
            dict_add by_room (room_location d)
              (monthly_cost (wattage d) (avg_hours_per_day d) price))
         devices by_room)
      room
    = fold_left fadd
        (map (fun d => monthly_cost (wattage d) (avg_hours_per_day d) price)
           (List.filter (in_room room) devices))
        (room_total by_room room).
Proof.
  induction devices as [ | d devices IH ]; intros by_room; [ reflexivity | ].
  cbn [fold_left List.filter]. rewrite IH, room_total_added. unfold in_room.
  destruct (String.eqb (room_location d) room); reflexivity.
Qed.

(** The total of a room is the sum, from [0.0] and in the order of the
    list, of the monthly costs of the devices of that room. *)
Lemma room_total_sum (devices : list (Device num)) (price : num) (room : string) :
  room_total (room_monthly_totals devices price) room
  = sum (map (fun d => monthly_cost (wattage d) (avg_hours_per_day d) price)
           (List.filter (in_room room) devices)).
Proof. apply (room_total_from devices price room []). Qed.

(** The values of a dict are the totals of its keys. *)
Lemma dict_values_room_totals (m : dict num) :
  List.NoDup (dict_keys m) -> dict_values m = map (room_total m) (dict_keys m).
Proof.
  unfold dict_values, dict_keys, room_total, dict_get.
  induction m as [ | [k v] m IH ]; intros Hkeys; [ reflexivity | ].
  inversion Hkeys as [ | ? ? Hnew Hrest ]; subst.
  cbn [map fst snd List.find]. rewrite String.eqb_refl. simpl. f_equal.
  rewrite (IH Hrest). apply map_ext_in. intros k' Hk'.
  destruct (String.eqb_spec k k') as [ -> | _ ]; [ contradiction | reflexivity ].
Qed.
End RoomGroups.

(** ** Sums in exact arithmetic *)

Section ExactSums.
Local Open Scope list_scope.
Local Open Scope Q_scope.

(** Equations of the field of rationals, once the instance is unfolded. *)
Ltac exact_ring :=
  cbn [fadd fmul fdiv of_int rational]; unfold inject_Z; ring.

Lemma sum_from (l : list Q) (a : Q) :
  fold_left Qplus l a == a + fold_left Qplus l 0.
Proof.
  revert a. induction l as [ | x l IH ]; intros a; cbn [fold_left].
  - ring.
  - rewrite (IH (a + x)), (IH (0 + x)). ring.
Qed.

Lemma sum_cons (x : Q) (l : list Q) : sum (x :: l) == x + sum l.
Proof.
  change (fold_left Qplus l (0 + x) == x + fold_left Qplus l 0).
  rewrite sum_from. ring.
Qed.

Lemma sum_nil : sum (@nil Q) == 0.
Proof. reflexivity. Qed.

Lemma sum_permutation (l l' : list Q) : Permutation l l' -> sum l == sum l'.
Proof.
  induction 1 as [ | x l l' _ IH | x y l | l l' l'' _ IH1 _ IH2 ].
  - reflexivity.
  - rewrite !sum_cons, IH. reflexivity.
  - rewrite !sum_cons. ring.
  - rewrite IH1. exact IH2.
Qed.

(** Adding [c] to a room adds [c] to the sum of all rooms. *)
Lemma sum_values_dict_add (m : dict Q) (k : string) (c : Q) :
  sum (dict_values (dict_add m k c)) == sum (dict_values m) + c.
Proof.
  induction m as [ | [k' v] m IH ]; simpl.
  - rewrite sum_cons, sum_nil. exact_ring.
  - destruct (String.eqb k' k); simpl.
    + rewrite !sum_cons. exact_ring.
    + rewrite !sum_cons, IH. exact_ring.
Qed.

(** Adding [c] to a room adds [c] to that room and leaves the others. *)
Lemma room_total_dict_add (m : dict Q) (k : string) (c : Q) (room : string) :
  room_total (dict_add m k c) room
  == if String.eqb k room then room_total m room + c else room_total m room.
Proof.
  unfold room_total, dict_get.
  induction m as [ | [k' v] m IH ]; simpl.
  - destruct (String.eqb k room); simpl; reflexivity.
  - destruct (String.eqb_spec k' k) as [ -> | Hne ]; simpl.
    + destruct (String.eqb k room); simpl; reflexivity.
    + destruct (String.eqb_spec k' room) as [ -> | Hne' ]; simpl.
      * destruct (String.eqb_spec k room) as [ -> | _ ];
          [ contradiction | reflexivity ].
      * exact IH.
Qed.

Lemma room_monthly_totals_from (devices : list (Device Q)) (price : Q) :
  forall by_room : dict Q,
    let result :=
      fold_left
        (fun by_room d =>
           dict_add by_room (room_location d)
             (monthly_cost (wattage d) (avg_hours_per_day d) price))
        devices by_room in
    sum (dict_values result)
    == sum (dict_values by_room)
       + sum (map (fun d => monthly_cost (wattage d) (avg_hours_per_day d) price)
                devices)
    /\ forall room,
         room_total result room
         == room_total by_room room
            + sum (map (fun d => monthly_cost (wattage d) (avg_hours_per_day d) price)
                     (List.filter (in_room room) devices)).
Proof.
  induction devices as [ | d devices IH ]; intros by_room;
    cbn [fold_left map List.filter].
  - split; [ | intros room ]; rewrite sum_nil; exact_ring.
  - destruct (IH (dict_add by_room (room_location d)
                    (monthly_cost (wattage d) (avg_hours_per_day d) price)))
      as [ Hsum Hroom ].
    split.
    + rewrite Hsum, sum_values_dict_add, sum_cons. exact_ring.
    + intros room. rewrite (Hroom room), room_total_dict_add.
      unfold in_room at 2.
      destruct (String.eqb (room_location d) room); cbn [map].
      * rewrite sum_cons. exact_ring.
      * reflexivity.
Qed.
End ExactSums.

(** ** Rounding of a sum *)

Section RoundedSums.
Local Open Scope Q_scope.

Lemma iter_xO (m d : positive) :
  Z.pos (Pos.iter xO m d) = (Z.pos m * 2 ^ Z.pos d)%Z.
Proof.
  apply (Pos.iter_ind _ xO m (fun d r => Z.pos r = (Z.pos m * 2 ^ Z.pos d)%Z)).
  - change (2 ^ 1)%Z with 2%Z. lia.
  - intros p a' IH. rewrite Pos2Z.inj_succ, Z.pow_succ_r by lia.
    rewrite Pos2Z.inj_xO, IH. lia.
Qed.

Lemma shl_align_value (mx : positive) (ex ex' : Z) :
  Q_of_finite (fst (shl_align mx ex ex')) (snd (shl_align mx ex ex'))
  == Q_of_finite mx ex.
Proof.
  unfold shl_align.
  destruct (ex' - ex)%Z as [ | d | d ] eqn:Ed; cbn [fst snd]; try reflexivity.
  rewrite !Q_of_finite_pow.
  change (PosDef.Pos.iter xO mx d) with (Pos.iter xO mx d).
  rewrite iter_xO, inject_Z_mult, Zpower_Qpower by lia.
  change (inject_Z 2) with 2.
  rewrite <- Qmult_assoc, <- Qpower_plus by discriminate.
  replace (Z.pos d + ex')%Z with ex by lia. reflexivity.
Qed.

(** The sum of two positive numbers, when it is a normal number, is within
    the relative distance [2^-53] of the exact sum. *)
Lemma add_close (x y : float) :
  positive_finite x = true -> positive_finite y = true ->
  positive_normal (x + y)%float = true ->
  (1 - unit_roundoff) * exact_value (x + y)%float <= exact_value x + exact_value y
  /\ exact_value x + exact_value y <= (1 + unit_roundoff) * exact_value (x + y)%float.
Proof.
  unfold positive_finite, positive_normal, exact_value.
  rewrite FloatAxioms.add_spec.
  destruct (Prim2SF x) as [ | | | [ | ] mx ex ]; try discriminate.
  destruct (Prim2SF y) as [ | | | [ | ] my ey ]; try discriminate.
  intros _ _. unfold SF64add, SFadd. cbn [cond_Zopp].
  pose proof (shl_align_value mx ex (Z.min ex ey)) as Hx.
  pose proof (shl_align_value my ey (Z.min ex ey)) as Hy.
  assert (Hex : snd (shl_align mx ex (Z.min ex ey)) = Z.min ex ey).
  { unfold shl_align. destruct (Z.min ex ey - ex)%Z eqn:E; cbn [snd]; lia. }
  assert (Hey : snd (shl_align my ey (Z.min ex ey)) = Z.min ex ey).
  { unfold shl_align. destruct (Z.min ex ey - ey)%Z eqn:E; cbn [snd]; lia. }
  rewrite Hex in Hx. rewrite Hey in Hy.
  set (a := fst (shl_align mx ex (Z.min ex ey))) in *.
  set (b := fst (shl_align my ey (Z.min ex ey))) in *.
  set (ez := Z.min ex ey) in *.
  change (Z.pos a + Z.pos b)%Z with (Z.pos (a + b)).
  cbn [binary_normalize]. unfold binary_round.
  pose proof (shl_align_value (a + b) ez
                (fexp prec emax (Z.pos (digits2_pos (a + b)) + ez))) as Hsum.
  destruct (shl_align (a + b) ez (fexp prec emax (Z.pos (digits2_pos (a + b)) + ez)))
    as [ mz ez' ].
  cbn [fst snd] in Hsum.
  destruct (binary_round_aux prec emax false (Z.pos mz) ez' loc_Exact)
    as [ | | | [ | ] m' e' ] eqn:Hround; try discriminate.
  intros Hnormal. apply Z.leb_le in Hnormal.
  assert (Hvalue : Q_of_finite mx ex + Q_of_finite my ey == Q_of_finite mz ez').
  { rewrite Hsum, <- Hx, <- Hy, !Q_of_finite_pow, Pos2Z.inj_add, inject_Z_plus.
    ring. }
  rewrite Hvalue.
  exact (rounded_close _ _ _ _ _ _ Hround Hnormal).
Qed.

Lemma zero_add (x : float) :
  positive_finite x = true -> Prim2SF (0 + x)%float = Prim2SF x.
Proof.
  unfold positive_finite. rewrite FloatAxioms.add_spec.
  change (Prim2SF 0%float) with (S754_zero false).
  destruct (Prim2SF x) as [ | | | [ | ] m e ]; try discriminate. reflexivity.
Qed.

(** One step of a sum that starts from [0.0]. *)
Lemma add_step (acc x : float) :
  acc = 0%float \/ positive_finite acc = true ->
  positive_finite x = true ->
  positive_normal (acc + x)%float = true ->
  (1 - unit_roundoff) * exact_value (acc + x)%float <= exact_value acc + exact_value x
  /\ exact_value acc + exact_value x <= (1 + unit_roundoff) * exact_value (acc + x)%float.
Proof.
  intros [ -> | Hacc ] Hx Hnormal; [ | apply add_close; assumption ].
  pose proof (positive_finite_value x Hx) as Px.
  unfold exact_value in *. rewrite (zero_add x Hx).
  change (Prim2SF 0%float) with (S754_zero false). cbv iota.
  assert (Hu : unit_roundoff == 1 # 9007199254740992) by reflexivity.
  rewrite Hu.
  destruct (Prim2SF x) as [ | | | [ | ] m e ]; lra.
Qed.

Lemma pow_nat_succ (q : Q) (n : nat) :
  ~ q == 0 -> q ^ Z.of_nat (S n) == q * q ^ Z.of_nat n.
Proof.
  intros Hq. rewrite Nat2Z.inj_succ. unfold Z.succ.
  rewrite Qpower_plus, Qpower_1_r by exact Hq. ring.
Qed.

Lemma pow_nat_le_one (q : Q) (n : nat) :
  0 < q -> q <= 1 -> 0 < q ^ Z.of_nat n /\ q ^ Z.of_nat n <= 1.
Proof.
  intros Hpos Hone. induction n as [ | n [ IH0 IH1 ] ].
  - simpl. split; [ reflexivity | discriminate ].
  - rewrite pow_nat_succ by (intros E; rewrite E in Hpos; discriminate).
    split.
    + apply Qmult_lt_0_compat; assumption.
    + set (P := q ^ Z.of_nat n) in *. clearbody P. nra.
Qed.

Lemma sum_values_nonneg (l : list float) :
  Forall (fun x => positive_finite x = true) l -> 0 <= sum (map exact_value l).
Proof.
  induction 1 as [ | x l Hx _ IH ]; cbn [map].
  - rewrite sum_nil. discriminate.
  - rewrite sum_cons. pose proof (positive_finite_value x Hx). lra.
Qed.

(** A sum of positive numbers from [0.0] whose partial sums are normal
    numbers: each addition moves the result by the relative distance
    [2^-53] at most. *)
Lemma fold_add_close (l : list float) :
  forall acc : float,
    acc = 0%float \/ positive_finite acc = true ->
    Forall (fun x => positive_finite x = true) l ->
    sums_normal acc l = true ->
    let t := exact_value (fold_left PrimFloat.add l acc) in
    (1 - unit_roundoff) ^ Z.of_nat (length l) * t
    <= exact_value acc + sum (map exact_value l)
    /\ exact_value acc + sum (map exact_value l)
       <= (1 + unit_roundoff) ^ Z.of_nat (length l) * t.
Proof.
  assert (Hu : unit_roundoff == 1 # 9007199254740992) by reflexivity.
  induction l as [ | x l IH ]; intros acc Hacc Hl Hnormal; cbv zeta.
  - cbn [fold_left map length]. rewrite sum_nil.
    change (Z.of_nat 0) with 0%Z. rewrite !Qpower_0_r. lra.
  - inversion Hl as [ | ? ? Hx Hl' ]; subst.
    cbn [sums_normal] in Hnormal.
    apply andb_prop in Hnormal as [ Hstep Hrest ].
    destruct (add_step acc x Hacc Hx Hstep) as [ Hlow Hhigh ].
    specialize (IH (acc + x)%float
                  (or_intror (positive_normal_finite _ Hstep)) Hl' Hrest).
    cbn zeta in IH. destruct IH as [ IHlow IHhigh ].
    pose proof (sum_values_nonneg l Hl') as Hrest_nonneg.
    cbn [fold_left map]. rewrite sum_cons.
    change (length (x :: l)) with (S (length l)).
    rewrite !pow_nat_succ by (rewrite Hu; discriminate).
    rewrite Hu in *.
    set (u := 1 # 9007199254740992) in *.
    rewrite <- !Qmult_assoc.
    set (low := (1 - u) ^ Z.of_nat (length l)
                * exact_value (fold_left PrimFloat.add l (acc + x)%float)) in *.
    set (high := (1 + u) ^ Z.of_nat (length l)
                 * exact_value (fold_left PrimFloat.add l (acc + x)%float)) in *.
    clearbody low high. unfold u. unfold u in Hlow, Hhigh. lra.
Qed.

Lemma pow_nat_anti (q : Q) (n m : nat) :
  0 < q -> q <= 1 -> (n <= m)%nat -> q ^ Z.of_nat m <= q ^ Z.of_nat n.
Proof.
  intros Hpos Hone Hnm.
  replace m with (n + (m - n))%nat by lia.
  rewrite Nat2Z.inj_add, Qpower_plus
    by (intros E; rewrite E in Hpos; discriminate).
  destruct (pow_nat_le_one q n Hpos Hone) as [ Hn0 Hn1 ].
  destruct (pow_nat_le_one q (m - n) Hpos Hone) as [ Hk0 Hk1 ].
  set (a := q ^ Z.of_nat n) in *. set (b := q ^ Z.of_nat (m - n)) in *.
  clearbody a b. nra.
Qed.

Lemma pow_nat_mono (q : Q) (n m : nat) :
  1 <= q -> (n <= m)%nat -> q ^ Z.of_nat n <= q ^ Z.of_nat m.
Proof. intros Hq Hnm. apply Qpower_le_compat_l; [ lia | exact Hq ]. Qed.

(** The bound for [n] additions holds for more additions. *)
Lemma close_weaken (n m : nat) (t s : Q) :
  (n <= m)%nat -> 0 <= t ->
  (1 - unit_roundoff) ^ Z.of_nat n * t <= s ->
  s <= (1 + unit_roundoff) ^ Z.of_nat n * t ->
  (1 - unit_roundoff) ^ Z.of_nat m * t <= s
  /\ s <= (1 + unit_roundoff) ^ Z.of_nat m * t.
Proof.
  intros Hnm Ht Hlow Hhigh.
  assert (Hu : unit_roundoff == 1 # 9007199254740992) by reflexivity.
  pose proof (pow_nat_anti (1 - unit_roundoff) n m) as Hanti.
  pose proof (pow_nat_mono (1 + unit_roundoff) n m) as Hmono.
  rewrite Hu in *.
  specialize (Hanti ltac:(lra) ltac:(lra) Hnm).
  specialize (Hmono ltac:(lra) Hnm).
  set (ln := (1 - (1 # 9007199254740992)) ^ Z.of_nat n) in *.
  set (lm := (1 - (1 # 9007199254740992)) ^ Z.of_nat m) in *.
  set (hn := (1 + (1 # 9007199254740992)) ^ Z.of_nat n) in *.
  set (hm := (1 + (1 # 9007199254740992)) ^ Z.of_nat m) in *.
  clearbody ln lm hn hm. split; nra.
Qed.

Lemma sums_normal_result (l : list float) :
  forall acc, l <> [] -> sums_normal acc l = true ->
    positive_normal (fold_left PrimFloat.add l acc) = true.
Proof.
  induction l as [ | x l IH ]; intros acc Hne Hnormal; [ contradiction | ].
  cbn [sums_normal] in Hnormal. apply andb_prop in Hnormal as [ Hstep Hrest ].
  cbn [fold_left]. destruct l as [ | y l ]; [ exact Hstep | ].
  apply IH; [ discriminate | exact Hrest ].
Qed.

(** The sum of a list of positive numbers whose partial sums are normal. *)
Lemma sum_close (l : list float) :
  Forall (fun x => positive_finite x = true) l ->
  sums_normal 0 l = true ->
  0 <= exact_value (sum l)
  /\ (1 - unit_roundoff) ^ Z.of_nat (length l) * exact_value (sum l)
     <= sum (map exact_value l)
  /\ sum (map exact_value l)
     <= (1 + unit_roundoff) ^ Z.of_nat (length l) * exact_value (sum l).
Proof.
  intros Hl Hnormal.
  destruct (fold_add_close l 0%float (or_introl eq_refl) Hl Hnormal)
    as [ Hlow Hhigh ].
  change (fold_left PrimFloat.add l 0%float) with (sum l) in Hlow, Hhigh.
  change (exact_value 0%float) with 0 in Hlow, Hhigh.
  split; [ | split; lra ].
  destruct l as [ | x l ]; [ vm_compute; discriminate | ].
  apply Qlt_le_weak, positive_finite_value, positive_normal_finite.
  apply (sums_normal_result (x :: l) 0%float); [ discriminate | exact Hnormal ].
Qed.

(** Sums over the rooms in exact arithmetic. *)

Lemma sum_map_ext {A : Type} (f g : A -> Q) (l : list A) :
  (forall a, In a l -> f a == g a) -> sum (map f l) == sum (map g l).
Proof.
  induction l as [ | a l IH ]; intros Hfg; cbn [map]; [ reflexivity | ].
  rewrite !sum_cons, (Hfg a (or_introl eq_refl)), IH; [ reflexivity | ].
  intros b Hb. apply Hfg. right. exact Hb.
Qed.

Lemma sum_map_plus {A : Type} (f g : A -> Q) (l : list A) :
  sum (map (fun a => f a + g a) l) == sum (map f l) + sum (map g l).
Proof.
  induction l as [ | a l IH ]; cbn [map].
  - rewrite !sum_nil. ring.
  - rewrite !sum_cons, IH. ring.
Qed.

Lemma sum_map_le {A : Type} (f g : A -> Q) (l : list A) :
  (forall a, In a l -> f a <= g a) -> sum (map f l) <= sum (map g l).
Proof.
  induction l as [ | a l IH ]; intros Hfg; cbn [map].
  - rewrite !sum_nil. discriminate.
  - rewrite !sum_cons.
    pose proof (Hfg a (or_introl eq_refl)).
    pose proof (IH (fun b Hb => Hfg b (or_intror Hb))). lra.
Qed.

Lemma sum_map_scale {A : Type} (c : Q) (f : A -> Q) (l : list A) :
  sum (map (fun a => c * f a) l) == c * sum (map f l).
Proof.
  induction l as [ | a l IH ]; cbn [map].
  - rewrite !sum_nil. ring.
  - rewrite !sum_cons, IH. ring.
Qed.

(** The one key of a device among distinct keys. *)
Lemma sum_one_key (room : string) (v : Q) (keys : list string) :
  List.NoDup keys -> In room keys ->
  sum (map (fun k => if String.eqb room k then v else 0) keys) == v.
Proof.
  induction 1 as [ | k keys Hnew Hkeys IH ]; intros Hin; [ contradiction | ].
  cbn [map]. rewrite sum_cons.
  destruct (String.eqb_spec room k) as [ -> | Hne ].
  - rewrite (sum_map_ext _ (fun _ => 0 * 0)), sum_map_scale; [ ring | ].
    intros k' Hk'. destruct (String.eqb_spec k k') as [ -> | _ ];
      [ contradiction | ring ].
  - destruct Hin as [ E | Hin ]; [ congruence | ].
    rewrite (IH Hin). ring.
Qed.

(** Grouping by room does not change an exact sum. *)
Lemma sum_by_room (v : Device float -> Q) (devices : list (Device float))
    (keys : list string) :
  List.NoDup keys ->
  (forall d, In d devices -> In (room_location d) keys) ->
  sum (map (fun room => sum (map v (List.filter (in_room room) devices))) keys)
  == sum (map v devices).
Proof.
  intros Hkeys. induction devices as [ | d devices IH ]; intros Hrooms.
  - cbn [List.filter map]. rewrite sum_nil.
    rewrite (sum_map_ext _ (fun _ => 0 * 0)), sum_map_scale; [ ring | ].
    intros k _. rewrite sum_nil. ring.
  - rewrite (sum_map_ext _
               (fun room =>
                  (if String.eqb (room_location d) room then v d else 0)
                  + sum (map v (List.filter (in_room room) devices)))).
    + rewrite sum_map_plus, sum_one_key, IH; cbn [map].
      * rewrite sum_cons. reflexivity.
      * intros d' Hd'. apply Hrooms. right. exact Hd'.
      * exact Hkeys.
      * apply Hrooms. left. reflexivity.
    + intros room _. cbn [List.filter]. unfold in_room at 1.
      destruct (String.eqb (room_location d) room); cbn [map].
      * rewrite sum_cons. reflexivity.
      * ring.
Qed.

(** The room totals summed across the rooms and the monthly fleet total are
    two roundings of the same exact sum. *)
Lemma room_totals_close (devices : list (Device float)) (price : float) :
  let cost := fun d => monthly_cost (wattage d) (avg_hours_per_day d) price in
  Forall (fun d => positive_finite (cost d) = true) devices ->
  sums_normal 0 (map cost devices) = true ->
  Forall
    (fun room =>
       sums_normal 0 (map cost (List.filter (in_room room) devices)) = true)
    (dict_keys (room_monthly_totals devices price)) ->
  sums_normal 0 (dict_values (room_monthly_totals devices price)) = true ->
  let low := (1 - unit_roundoff) ^ Z.of_nat (length devices) in
  let high := (1 + unit_roundoff) ^ Z.of_nat (length devices) in
  let across :=
    exact_value (sum (dict_values (room_monthly_totals devices price))) in
  let fleet := exact_value (monthly (totals devices price)) in
  low * (low * across) <= high * fleet
  /\ low * fleet <= high * (high * across).
Proof.
  intros cost Hpos Hfleet Hrooms Hacross low high across fleet.
  assert (Hu : unit_roundoff == 1 # 9007199254740992) by reflexivity.
  destruct (room_monthly_totals_keys devices price) as [ Hnodup Hkeys ].
  set (keys := dict_keys (room_monthly_totals devices price)) in *.
  rewrite List.Forall_forall in Hrooms.
  set (total := fun room => sum (map cost (List.filter (in_room room) devices))).
  assert (Hvalues : dict_values (room_monthly_totals devices price)
                    = map total keys).
  { rewrite (dict_values_room_totals _ Hnodup). apply map_ext.
    intros room. apply room_total_sum. }
  unfold across. rewrite Hvalues in Hacross |- *. clear Hvalues.
  unfold fleet. rewrite totals_sums. cbn [monthly]. fold cost.
  (* the fleet total *)
  destruct (sum_close (map cost devices)) as (Hfleet0 & Hfleet_low & Hfleet_high);
    [ apply List.Forall_map; exact Hpos | exact Hfleet | ].
  rewrite length_map, map_map in Hfleet_low, Hfleet_high.
  (* each room *)
  assert (Hroom : forall room, In room keys ->
            positive_finite (total room) = true
            /\ low * exact_value (total room)
               <= sum (map (fun d => exact_value (cost d))
                         (List.filter (in_room room) devices))
            /\ sum (map (fun d => exact_value (cost d))
                      (List.filter (in_room room) devices))
               <= high * exact_value (total room)).
  { intros room Hroom.
    assert (Hsub : Forall (fun x => positive_finite x = true)
                     (map cost (List.filter (in_room room) devices))).
    { apply List.Forall_map, List.Forall_forall. intros d Hd.
      apply List.filter_In in Hd as [ Hd _ ].
      rewrite List.Forall_forall in Hpos. apply Hpos, Hd. }
    destruct (sum_close _ Hsub (Hrooms room Hroom)) as (H0 & Hl & Hh).
    rewrite length_map, map_map in Hl, Hh.
    split.
    - apply positive_normal_finite.
      apply (sums_normal_result _ 0%float); [ | apply Hrooms, Hroom ].
      apply Hkeys in Hroom as (d & Hd & Hd_room).
      intros Hnil. apply map_eq_nil in Hnil.
      assert (Hin : In d (List.filter (in_room room) devices)).
      { apply List.filter_In. split; [ exact Hd | ].
        unfold in_room. rewrite Hd_room. apply String.eqb_refl. }
      rewrite Hnil in Hin. contradiction.
    - apply (close_weaken
               (length (List.filter (in_room room) devices)) (length devices));
        [ apply List.filter_length_le | exact H0 | exact Hl | exact Hh ]. }
  (* the sum across the rooms *)
  assert (Htotals : Forall (fun x => positive_finite x = true) (map total keys)).
  { apply List.Forall_map, List.Forall_forall. intros room Hroom'.
    apply (Hroom room Hroom'). }
  destruct (sum_close (map total keys) Htotals Hacross)
    as (Hacross0 & Hacross_low & Hacross_high).
  rewrite length_map, map_map in Hacross_low, Hacross_high.
  assert (Hcount : (length keys <= length devices)%nat).
  { rewrite <- (length_map room_location devices).
    apply NoDup_incl_length; [ exact Hnodup | ].
    intros room Hroom'. apply Hkeys in Hroom' as (d & Hd & <-).
    apply in_map, Hd. }
  destruct (close_weaken _ _ _ _ Hcount Hacross0 Hacross_low Hacross_high)
    as [ Hacross_low' Hacross_high' ].
  fold low high in Hacross_low', Hacross_high', Hfleet_low, Hfleet_high.
  (* grouping *)
  assert (Hgroup :
    sum (map (fun room =>
                sum (map (fun d => exact_value (cost d))
                       (List.filter (in_room room) devices))) keys)
    == sum (map (fun d => exact_value (cost d)) devices)).
  { apply sum_by_room; [ exact Hnodup | ].
    intros d Hd. apply Hkeys. exists d. split; [ exact Hd | reflexivity ]. }
  rewrite <- Hgroup in Hfleet_low, Hfleet_high.
  assert (Hgroup_low :
    low * sum (map (fun room => exact_value (total room)) keys)
    <= sum (map (fun room =>
                   sum (map (fun d => exact_value (cost d))
                          (List.filter (in_room room) devices))) keys)).
  { rewrite <- sum_map_scale. apply sum_map_le.
    intros room Hroom'. apply (Hroom room Hroom'). }
  assert (Hgroup_high :
    sum (map (fun room =>
                sum (map (fun d => exact_value (cost d))
                       (List.filter (in_room room) devices))) keys)
    <= high * sum (map (fun room => exact_value (total room)) keys)).
  { rewrite <- sum_map_scale. apply sum_map_le.
    intros room Hroom'. apply (Hroom room Hroom'). }
  destruct (pow_nat_le_one (1 - unit_roundoff) (length devices))
    as [ Hlow0 _ ]; [ rewrite Hu; reflexivity | rewrite Hu; discriminate | ].
  assert (Hhigh1 : 1 <= high).
  { apply Qpower_1_le; [ rewrite Hu; discriminate | lia ]. }
  fold low in Hlow0.
  set (T := exact_value (sum (map total keys))) in *.
  set (F := exact_value (sum (map cost devices))) in *.
  set (R := sum (map (fun room => exact_value (total room)) keys)) in *.
  set (S := sum (map (fun room =>
                        sum (map (fun d => exact_value (cost d))
                               (List.filter (in_room room) devices))) keys)) in *.
  clearbody low high T F R S. split; nra.
Qed.
End RoundedSums.

Section RoomTotals.
Local Open Scope list_scope.

Lemma filter_permutation {A : Type} (f : A -> bool) (l l' : list A) :
  Permutation l l' -> Permutation (List.filter f l) (List.filter f l').
Proof.
  induction 1 as [ | x l l' _ IH | x y l | l l' l'' _ IH1 _ IH2 ]; simpl.
  - constructor.
  - destruct (f x); [ constructor | ]; exact IH.
  - destruct (f x), (f y); try reflexivity. apply perm_swap.
  - rewrite IH1. exact IH2.
Qed.

(** C5 fails on binary64: for three devices of two rooms at the price 0.30
    the room totals sum to 208.57499999999999 and the fleet monthly total is
    208.57500000000002, printed as 208.57 and 208.58; and the total of one
    room changes when two of its devices change places. *)
Lemma room_totals_sum_differs :
  sum (dict_values (room_monthly_totals [L1; L2; L3] p030))
  <> monthly (totals [L1; L2; L3] p030)
  /\ format_fixed 2 (sum (dict_values (room_monthly_totals [L1; L2; L3] p030)))
     = "208.57"
  /\ format_fixed 2 (monthly (totals [L1; L2; L3] p030)) = "208.58"
  /\ room_total (room_monthly_totals [K1; K2; K3] p010) "Kitchen"
     <> room_total (room_monthly_totals [K1; K3; K2] p010) "Kitchen".
Proof.
  split; [ | split; [ | split ] ]; try (vm_compute; reflexivity).
  - apply ltb_neq. vm_compute. reflexivity.
  - apply not_eq_sym, ltb_neq. vm_compute. reflexivity.
Qed.

(** C5, amended: on binary64 the total of a room is the sum, from 0.0 and
    in input order, of the monthly costs of the devices of that room, so
    that it depends on the order of the devices of that room only; the
    rooms of the result are the rooms of the devices, each once; and the
    values summed across the rooms are the sum of these room totals, room
    by room.  Two devices of one room with monthly costs 10.0 and 20.0 give
    the single room total 30.0.  In exact arithmetic the room totals sum to
    the monthly fleet total, and the total of a room does not depend on the
    order of the devices at all.  On binary64 the sum across the rooms and
    the monthly fleet total are two roundings of that exact sum: for [n]
    devices with costs above 0, when every partial sum is a normal number,
    they agree within the factor [((1 + u) / (1 - u))^(2 n)], with
    [u = 2^-53]. *)
Theorem room_totals_sum_exact :
  (forall (devices : list (Device float)) (price : float) (room : string),
      room_total (room_monthly_totals devices price) room
      = sum (map (fun d => monthly_cost (wattage d) (avg_hours_per_day d) price)
               (List.filter (in_room room) devices)))
  /\ (forall (devices devices' : list (Device float)) (price : float)
             (room : string),
        List.filter (in_room room) devices = List.filter (in_room room) devices' ->
        room_total (room_monthly_totals devices price) room
        = room_total (room_monthly_totals devices' price) room)
  /\ (forall (devices : list (Device float)) (price : float),
        List.NoDup (dict_keys (room_monthly_totals devices price))
        /\ (forall room,
              In room (dict_keys (room_monthly_totals devices price))
              <-> exists d, In d devices /\ room_location d = room)
        /\ sum (dict_values (room_monthly_totals devices price))
           = sum (map (fun room =>
                         sum (map (fun d =>
                                     monthly_cost (wattage d) (avg_hours_per_day d)
                                       price)
                                (List.filter (in_room room) devices)))
                    (dict_keys (room_monthly_totals devices price))))
  /\ (forall (d1 d2 : Device float) (price : float),
        room_location d1 = room_location d2 ->
        monthly_cost (wattage d1) (avg_hours_per_day d1) price = 10%float ->
        monthly_cost (wattage d2) (avg_hours_per_day d2) price = 20%float ->
        room_monthly_totals [d1; d2] price = [(room_location d1, 30%float)])
  /\ (forall (devices : list (Device Q)) (price : Q),
        (sum (dict_values (room_monthly_totals devices price))
         == monthly (totals devices price))%Q)
  /\ (forall (devices devices' : list (Device Q)) (price : Q) (room : string),
        Permutation devices devices' ->
        (room_total (room_monthly_totals devices price) room
         == room_total (room_monthly_totals devices' price) room)%Q)
  /\ (forall (devices : list (Device float)) (price : float),
        let cost := fun d => monthly_cost (wattage d) (avg_hours_per_day d) price in
        Forall (fun d => positive_finite (cost d) = true) devices ->
        sums_normal 0 (map cost devices) = true ->
        Forall
          (fun room =>
             sums_normal 0 (map cost (List.filter (in_room room) devices)) = true)
          (dict_keys (room_monthly_totals devices price)) ->
        sums_normal 0 (dict_values (room_monthly_totals devices price)) = true ->
        let low := ((1 - unit_roundoff) ^ Z.of_nat (length devices))%Q in
        let high := ((1 + unit_roundoff) ^ Z.of_nat (length devices))%Q in
        let across :=
          exact_value (sum (dict_values (room_monthly_totals devices price))) in
        let fleet := exact_value (monthly (totals devices price)) in
        (low * (low * across) <= high * fleet
         /\ low * fleet <= high * (high * across))%Q).
Proof.
  split; [ | split; [ | split; [ | split; [ | split; [ | split ] ] ] ] ].
  - intros devices price room. apply room_total_sum.
  - intros devices devices' price room Hroom.
    rewrite !room_total_sum, Hroom. reflexivity.
  - intros devices price.
    destruct (room_monthly_totals_keys devices price) as [ Hnodup Hrooms ].
    split; [ exact Hnodup | split; [ exact Hrooms | ] ].
    rewrite (dict_values_room_totals _ Hnodup). f_equal.
    apply map_ext. intros room. apply room_total_sum.
  - intros d1 d2 price Hsame H10 H20.
    unfold room_monthly_totals. cbn [fold_left dict_add].
    rewrite H10, H20, <- Hsame, String.eqb_refl. reflexivity.
  - intros devices price.
    destruct (room_monthly_totals_from devices price []) as [ Hs _ ].
    unfold room_monthly_totals. rewrite Hs, totals_sums.
    cbn [monthly dict_values map]. rewrite sum_nil. ring.
  - intros devices devices' price room Hperm.
    rewrite !room_total_sum.
    apply sum_permutation, Permutation_map, filter_permutation, Hperm.
  - intros devices price. apply room_totals_close.
Qed.

Lemma room_totals_sum_exact_witness :
  room_monthly_totals [E1; E2] p_third = [("Hall", 30%float)]
  /\ room_total (room_monthly_totals [L1; L2; L3] p030) "Kitchen"
     = room_total (room_monthly_totals [L2; L1; L3] p030) "Kitchen"
  /\ (room_total (room_monthly_totals [D1_exact; D3_exact] 0.10%Q) "Kitchen"
      == room_total (room_monthly_totals [D3_exact; D1_exact] 0.10%Q) "Kitchen")%Q
  /\ ((1 - unit_roundoff) ^ 3
      * exact_value (monthly (totals [L1; L2; L3] p030))
      <= (1 + unit_roundoff) ^ 3
         * ((1 + unit_roundoff) ^ 3
            * exact_value
                (sum (dict_values (room_monthly_totals [L1; L2; L3] p030)))))%Q.
Proof.
  destruct room_totals_sum_exact
    as (_ & Hwithin & _ & Hpair & _ & Hperm & Hclose).
  split; [ | split; [ | split ] ].
  - apply (Hpair E1 E2 p_third); reflexivity.
  - apply Hwithin. reflexivity.
  - apply Hperm, perm_swap.
  - apply (Hclose [L1; L2; L3] p030).
    + repeat constructor.
    + reflexivity.
    + repeat constructor.
    + reflexivity.
Defined.
End RoomTotals.

(** * Further properties of the code *)

(** ** format_table: rows of the wrong length, and the width of the lines *)

Section TableShape.
Local Open Scope list_scope.

Lemma widen_row_defined (r : list string) :
  forall (i : nat) (widths widths' : list nat),
    widen_row widths i r = Some widths' ->
    length widths' = length widths /\ (r = [] \/ i + length r <= length widths).
Proof.
  induction r as [ | cell r IH ]; intros i widths widths' Hrow; simpl in Hrow.
  - injection Hrow as <-. auto.
  - unfold widen in Hrow.
    destruct (widths !! i) as [ w | ] eqn:Ew; [ | discriminate ].
    apply IH in Hrow as [ Hlen Hfit ]. rewrite length_insert in Hlen, Hfit.
    apply lookup_lt_Some in Ew.
    split; [ exact Hlen | right ].
    destruct Hfit as [ -> | Hfit ]; simpl; lia.
Qed.

Lemma widen_rows_defined (rows : list (list string)) :
  forall widths widths' : list nat,
    widen_rows widths rows = Some widths' ->
    length widths' = length widths
    /\ Forall (fun r => length r <= length widths) rows.
Proof.
  induction rows as [ | r rows IH ]; intros widths widths' Hrows; simpl in Hrows.
  - injection Hrows as <-. auto.
  - destruct (widen_row widths 0 r) as [ widths1 | ] eqn:Er; [ | discriminate ].
    apply widen_row_defined in Er as [ Hlen1 Hfit ].
    apply IH in Hrows as [ Hlen Hrest ]. rewrite Hlen1 in Hlen, Hrest.
    split; [ exact Hlen | ].
    constructor; [ | exact Hrest ].
    destruct Hfit as [ -> | Hfit ]; simpl in *; lia.
Qed.

Lemma fmt_row_defined (n : nat) (widths : list nat) (r : list string) :
  is_Some (fmt_row n widths r) -> n <= length r.
Proof.
  unfold fmt_row. rewrite fmap_is_Some. intros Hcells.
  apply mapM_is_Some_1 in Hcells.
  destruct n as [ | n ]; [ lia | ].
  pose proof (Forall_lookup_1 _ _ n n Hcells (lookup_seq_lt 0 (S n) n ltac:(lia)))
    as [ cell Hcell ].
  unfold fmt_cell in Hcell.
  destruct (r !! n) as [ c | ] eqn:Er; [ | discriminate ].
  apply lookup_lt_Some in Er. lia.
Qed.

(** X1: [format_table] returns a text exactly when every row has as many cells as
    there are headers; a longer or a shorter row makes it fail (the
    IndexError of [widths[i]] or of [r[i]]). *)
Theorem format_table_defined (headers : list string) (rows : list (list string)) :
  is_Some (format_table headers rows)
  <-> Forall (fun r => length r = length headers) rows.
Proof.
  split.
  - unfold format_table, format_table_lines. rewrite fmap_is_Some.
    intros [ lines Hlines ].
    destruct (column_widths headers rows) as [ widths | ] eqn:Ew;
      [ | discriminate ].
    apply widen_rows_defined in Ew as [ Hlen Hfit ].
    rewrite length_map in Hlen, Hfit.
    simpl in Hlines.
    destruct (fmt_row (length headers) widths headers); [ | discriminate ].
    simpl in Hlines.
    destruct (mapM (fmt_row (length headers) widths) rows) as [ body | ] eqn:Eb;
      [ | discriminate ].
    assert (Hbody : Forall (is_Some ∘ fmt_row (length headers) widths) rows)
      by (apply mapM_is_Some_1; rewrite Eb; eauto).
    rewrite List.Forall_forall in Hfit. rewrite Forall_lookup in Hbody.
    apply List.Forall_forall. intros r Hr.
    specialize (Hfit r Hr).
    apply list_elem_of_In, list_elem_of_lookup in Hr as [ i Hi ].
    pose proof (fmt_row_defined _ _ _ (Hbody i r Hi)). lia.
  - intros Hrows. unfold format_table.
    rewrite (format_table_lines_matching headers rows Hrows). simpl. eauto.
Qed.

Lemma format_table_defined_witness :
  is_Some (format_table ["ID"; "Name"] [["D1"; "Kettle"]])
  /\ format_table ["ID"; "Name"] [["D1"]] = None
  /\ format_table ["ID"; "Name"] [["D1"; "Kettle"; "Hall"]] = None.
Proof.
  split; [ | split; reflexivity ].
  apply format_table_defined. repeat constructor.
Defined.
End TableShape.

Section TableWidth.
Local Open Scope list_scope.

Lemma string_length_app (s t : string) :
  String.length (s ++ t)%string = String.length s + String.length t.
Proof. induction s as [ | c s IH ]; simpl; [ reflexivity | ]. rewrite IH. reflexivity. Qed.

Lemma string_length_repeat (s : string) (n : nat) :
  String.length (repeat_string s n) = n * String.length s.
Proof.
  induction n as [ | n IH ]; simpl; [ reflexivity | ].
  rewrite string_length_app, IH. reflexivity.
Qed.

(** [ljust] pads to the width, and leaves a longer string as it is. *)
Lemma string_length_ljust (s : string) (w : nat) :
  String.length (ljust s w) = Nat.max (String.length s) w.
Proof.
  unfold ljust. rewrite string_length_app, string_length_repeat. simpl. lia.
Qed.

Lemma string_length_join (sep : string) (l : list string) :
  String.length (join sep l)
  = sum_list (map String.length l) + pred (length l) * String.length sep.
Proof.
  induction l as [ | x l IH ]; [ reflexivity | ].
  destruct l as [ | y l ]; [ simpl; lia | ].
  change (join sep (x :: y :: l)) with (x ++ sep ++ join sep (y :: l))%string.
  rewrite !string_length_app, IH. simpl. lia.
Qed.

Lemma justified_cells_lengths (r : list string) :
  forall widths : list nat,
    Forall2 (fun cell w => String.length cell <= w) r widths ->
    map String.length (zip_with ljust r widths) = widths.
Proof.
  induction r as [ | cell r IH ]; intros widths Hfit; inversion Hfit; subst; simpl.
  - reflexivity.
  - rewrite string_length_ljust, IH by assumption. f_equal. lia.
Qed.

Lemma justified_row_width (widths : list nat) (r : list string) :
  Forall2 (fun cell w => String.length cell <= w) r widths ->
  String.length (justified_row widths r) = table_width widths.
Proof.
  intros Hfit. unfold justified_row, table_width.
  rewrite string_length_join, justified_cells_lengths by exact Hfit.
  rewrite length_zip_with_r_eq by (symmetry; eapply Forall2_length, Hfit).
  simpl. lia.
Qed.

Lemma separator_width (widths : list nat) :
  String.length (separator widths) = table_width widths.
Proof.
  unfold separator, table_width.
  rewrite string_length_join, length_map, map_map.
  rewrite (map_ext _ id), map_id; [ simpl; lia | ].
  intros w. rewrite string_length_repeat. simpl. unfold id. lia.
Qed.

(** Every cell fits in the width of its column. *)
Lemma cells_fit (headers : list string) (rows : list (list string)) (r : list string) :
  In r (headers :: rows) -> length r = length headers ->
  Forall2 (fun cell w => String.length cell <= w) r (max_column_widths headers rows).
Proof.
  intros Hr Hlen. apply Forall2_same_length_lookup_2.
  - rewrite length_max_column_widths. exact Hlen.
  - intros i cell w Hcell Hw.
    unfold max_column_widths in Hw.
    rewrite list_lookup_fmap in Hw.
    destruct (seq 0 (length headers) !! i) as [ j | ] eqn:Ej; [ | discriminate ].
    apply lookup_seq in Ej as [ -> _ ]. simpl in Hw. injection Hw as <-.
    unfold max_column_width. apply max_list_elem_of_le.
    replace (String.length cell) with (cell_length i r)
      by (unfold cell_length; rewrite Hcell; reflexivity).
    change (cell_length i headers :: map (cell_length i) rows)
      with (map (cell_length i) (headers :: rows)).
    apply list_elem_of_In, in_map, Hr.
Qed.

(** X2: for rows as long as the header, all the lines of the table (header,
    separator and rows) have the same length: the sum of the column widths
    plus 3 for each column after the first. *)
Theorem table_lines_same_width (headers : list string) (rows : list (list string)) :
  Forall (fun r => length r = length headers) rows ->
  exists lines,
    format_table_lines headers rows = Some lines
    /\ Forall
         (fun line =>
            String.length line = table_width (max_column_widths headers rows))
         lines.
Proof.
  intros Hrows. eexists. split; [ apply format_table_lines_matching, Hrows | ].
  constructor; [ | constructor ].
  - apply justified_row_width, cells_fit; [ left; reflexivity | reflexivity ].
  - apply separator_width.
  - rewrite List.Forall_forall in Hrows. apply List.Forall_forall.
    intros line Hline. apply in_map_iff in Hline as (r & <- & Hr).
    apply justified_row_width, cells_fit; [ right; exact Hr | apply Hrows, Hr ].
Qed.

Lemma table_lines_same_width_witness :
  exists lines,
    format_table_lines ["ID"; "Name"] [["D1"; "Kettle"]; ["D2"; "Lamp"]] = Some lines
    /\ Forall (fun line => String.length line = 11) lines.
Proof.
  apply (table_lines_same_width ["ID"; "Name"] [["D1"; "Kettle"]; ["D2"; "Lamp"]]).
  repeat constructor.
Defined.
End TableWidth.

(** ** The report builders, for any arithmetic *)

Section ReportShape.
Context {num : Type} `{PyFloat num}.
Local Open Scope list_scope.

Lemma forecast_rows_match (items : list (string * num)) :
  Forall (fun r => length r = 2)
    (map (fun '(room, cost) => [room; format_fixed 2 cost]) items).
Proof.
  induction items as [ | [room cost] items IH ]; simpl; constructor; auto.
Qed.

(** X3: neither [build_cost_report_text] nor [build_monthly_forecast_text] can
    fail: the rows they pass to [format_table] always have as many cells as
    there are headers. *)
Theorem reports_always_built (devices : list (Device num)) (price extra : num) :
  is_Some (build_cost_report_text devices price extra)
  /\ is_Some (build_monthly_forecast_text devices price extra).
Proof.
  split.
  - destruct (cost_report_lines_grand_totals devices price extra)
      as (report & _ & Htext & _).
    rewrite Htext. eauto.
  - unfold build_monthly_forecast_text, format_table.
    rewrite (format_table_lines_matching ["Room"; "Expected Monthly Cost"]
               _ (forecast_rows_match _)).
    simpl. eauto.
Qed.

(** X4: the list of lines of the cost report: 21 fixed entries, of which the
    fourth is the table, with one line per device after its header and
    separator, followed by the suggestion lines. *)
Theorem cost_report_structure (devices : list (Device num)) (price extra : num) :
  exists report lines,
    cost_report_lines devices price extra = Some report
    /\ length report = 21 + length (suggestion_lines devices)
    /\ report !! 3 = Some (join newline lines)
    /\ length lines = 2 + length devices
    /\ drop 21 report = suggestion_lines devices.
Proof.
  unfold cost_report_lines.
  pose proof (format_table_lines_matching TABLE_HEADERS
                (map table_row (device_cost_rows devices price))
                (table_rows_match _)) as Hlines.
  unfold format_table. rewrite Hlines.
  cbn [fmap option_fmap option_map mbind option_bind].
  eexists. eexists. split; [ reflexivity | ].
  split; [ reflexivity | ].
  split; [ reflexivity | ].
  split; [ | reflexivity ].
  cbn [length]. rewrite !length_map, device_cost_rows_map, length_map. reflexivity.
Qed.

(** X5: the suggestion section lists exactly the devices that have a suggestion:
    a heading and one bullet per suggestion for each of them, and nothing for
    the others. *)
Theorem suggestion_lines_count (devices : list (Device num)) :
  length (suggestion_lines devices)
  = sum_list
      (map (fun d =>
              match efficiency_suggestions d with
              | [] => 0
              | sugg => S (length sugg)
              end)
         devices)
  /\ (suggestion_lines devices = []
      <-> Forall (fun d => efficiency_suggestions d = []) devices).
Proof.
  assert (Hcons : forall d ds,
             suggestion_lines (d :: ds)
             = match efficiency_suggestions d with
               | [] => []
               | sugg =>
                   ("- " ++ device_id d ++ " " ++ name d ++ " ("
                      ++ room_location d ++ "):")%string
                     :: map (fun s => ("    * " ++ s)%string) sugg
               end ++ suggestion_lines ds)
    by reflexivity.
  split.
  - induction devices as [ | d devices IH ]; [ reflexivity | ].
    rewrite Hcons, length_app, IH. cbn [map sum_list sum_list_with].
    destruct (efficiency_suggestions d); [ reflexivity | ].
    cbn [length]. rewrite length_map. reflexivity.
  - induction devices as [ | d devices IH ].
    + split; [ constructor | reflexivity ].
    + rewrite Hcons. split.
      * intros Hnil. apply app_eq_nil in Hnil as [ Hd Hrest ].
        constructor; [ | apply IH, Hrest ].
        destruct (efficiency_suggestions d); [ reflexivity | discriminate ].
      * intros Hall. inversion Hall as [ | ? ? Hd Hrest ]; subst.
        rewrite Hd. apply IH, Hrest.
Qed.
End ReportShape.

(** ** Sorting never loses an element *)

Section SortPermutation.
Context {A K : Type} (lt : K -> K -> bool) (key : A -> K).
Local Open Scope list_scope.

Lemma sort_ascending_permutation (l : list A) :
  Permutation (sort_ascending lt key l) l.
Proof.
  unfold sort_ascending.
  enough (Hgen : forall sorted,
             Permutation (fold_left (fun s x => insert_right lt key x s) l sorted)
               (sorted ++ l))
    by apply (Hgen []).
  induction l as [ | x l IH ]; intros sorted; simpl.
  - rewrite app_nil_r. reflexivity.
  - rewrite IH, insert_right_perm. apply Permutation_middle.
Qed.

(** The binary search ends within [r - l] steps, whatever the comparisons
    answer: more steps do not change its result. *)
Lemma binary_search_steps (pivot : K) (sorted : list A) (steps : nat) :
  forall (more l r : nat),
    r <= length sorted -> r - l <= steps ->
    binary_search lt key (steps + more) pivot sorted l r
    = binary_search lt key steps pivot sorted l r.
Proof.
  induction steps as [ | steps IH ]; intros more l r Hr Hsteps.
  - destruct more as [ | more ]; [ reflexivity | ]. cbn [Nat.add binary_search].
    destruct (Nat.ltb_spec l r) as [ Hlt | _ ]; [ lia | reflexivity ].
  - cbn [Nat.add binary_search].
    destruct (Nat.ltb_spec l r) as [ Hlt | _ ]; [ | reflexivity ].
    assert (Hhalf : Nat.div2 (r - l) < r - l) by (apply Nat.lt_div2; lia).
    set (half := Nat.div2 (r - l)) in *. clearbody half.
    destruct (nth_error sorted (l + half)) as [ y | ]; [ | reflexivity ].
    destruct (lt pivot (key y)); apply IH; lia.
Qed.

Lemma binary_insert_permutation (sorted : list A) (x : A) :
  Permutation (binary_insert lt key sorted x) (x :: sorted).
Proof.
  unfold binary_insert. rewrite <- Permutation_middle, take_drop. reflexivity.
Qed.

Lemma binarysort_permutation (rest : list A) :
  forall sorted, Permutation (binarysort lt key sorted rest) (sorted ++ rest).
Proof.
  unfold binarysort.
  induction rest as [ | x rest IH ]; intros sorted; simpl.
  - rewrite app_nil_r. reflexivity.
  - rewrite IH, binary_insert_permutation. apply Permutation_middle.
Qed.

Lemma sort_run_permutation (l : list A) : Permutation (sort_run lt key l) l.
Proof.
  unfold sort_run. destruct (count_run lt key l) as [ n descending ].
  rewrite binarysort_permutation.
  transitivity (take n l ++ drop n l); [ | rewrite take_drop; reflexivity ].
  apply Permutation_app_tail.
  destruct descending; [ symmetry; apply Permutation_rev | reflexivity ].
Qed.

Lemma list_sort_permutation (reverse : bool) (l : list A) :
  Permutation (list_sort lt key reverse l) l.
Proof.
  unfold list_sort. destruct reverse.
  - rewrite <- Permutation_rev, sort_run_permutation, <- Permutation_rev.
    reflexivity.
  - apply sort_run_permutation.
Qed.
End SortPermutation.

Section RankingShape.
Context {num : Type} `{PyFloat num}.
Local Open Scope list_scope.

(** X6: for fewer than 64 devices, which [list.sort] sorts as one run,
    and whatever the costs are, NaN included, the ranking lists 3 of the
    devices, or all of them when there are fewer, and no device twice: with
    the devices left out it is a rearrangement of the device list. *)
Theorem top3_devices (devices : list (Device num)) (price : num) :
  length devices < 64 ->
  length (top3 devices price) = Nat.min 3 (length devices)
  /\ exists others,
       Permutation (map (fun x => snd (fst x)) (top3 devices price) ++ others)
         devices.
Proof.
  intros _. unfold top3.
  pose proof (list_sort_permutation flt pred_key true (predictions devices price))
    as Hperm.
  split.
  - rewrite length_take, (Permutation_length Hperm), predictions_map, length_map.
    reflexivity.
  - exists (map (fun x => snd (fst x))
              (drop 3 (list_sort flt pred_key true (predictions devices price)))).
    rewrite <- map_app, take_drop, Hperm, predictions_map, map_map. simpl.
    rewrite map_id. reflexivity.
Qed.
End RankingShape.

Section RankingShapeExamples.
Local Open Scope list_scope.

Lemma top3_devices_witness :
  length (top3 nan_sample p010) = 3
  /\ exists others,
       Permutation (map (fun x => snd (fst x)) (top3 nan_sample p010) ++ others)
         nan_sample.
Proof. apply (top3_devices nan_sample p010). simpl. lia. Defined.
End RankingShapeExamples.

(** ** Alerts and the threshold *)

Section AlertsMonotone.
Local Open Scope list_scope.
Local Open Scope float_scope.

Lemma filter_length_le {A : Type} (f g : A -> bool) (l : list A) :
  (forall a, f a = true -> g a = true) ->
  length (List.filter f l) <= length (List.filter g l).
Proof.
  intros Himpl. induction l as [ | a l IH ]; simpl; [ lia | ].
  destruct (f a) eqn:Ef.
  - rewrite (Himpl a Ef). simpl. lia.
  - destruct (g a); simpl; lia.
Qed.

(** X7: raising the threshold never adds an alert: a device that exceeds the
    higher threshold exceeds the lower one. *)
Theorem alerts_shrink_with_threshold (devices : list (Device float))
    (low high : float) :
  (low <=? high) = true ->
  length (high_usage_alerts devices high) <= length (high_usage_alerts devices low)
  /\ (high_usage_alerts devices low = [] -> high_usage_alerts devices high = []).
Proof.
  intros Hle.
  assert (Hlen : length (high_usage_alerts devices high)
                 <= length (high_usage_alerts devices low)).
  { rewrite !high_usage_alerts_filter, !length_map.
    apply filter_length_le. intros d Hd.
    exact (leb_ltb_trans _ _ _ Hle Hd). }
  split; [ exact Hlen | ].
  intros Hnone. rewrite Hnone in Hlen. simpl in Hlen.
  destruct (high_usage_alerts devices high); [ reflexivity | simpl in Hlen; lia ].
Qed.

Lemma alerts_shrink_with_threshold_witness :
  length (high_usage_alerts [D1; R4] 100) <= length (high_usage_alerts [D1; R4] 5).
Proof.
  apply (alerts_shrink_with_threshold [D1; R4] 5 100). reflexivity.
Defined.
End AlertsMonotone.


(** ** What the validators let through *)

Section Accepted.
Local Open Scope float_scope.

Lemma nan_spec (x : float) : PrimFloat.is_nan x = true -> Prim2SF x = S754_nan.
Proof.
  unfold PrimFloat.is_nan. rewrite FloatAxioms.eqb_spec. unfold SFeqb.
  intros Hx. destruct (Prim2SF x) as [ s | s | | s m e ] eqn:E; try reflexivity;
    rewrite SFcompare_refl in Hx by discriminate; discriminate.
Qed.

(** NaN is neither below nor above anything. *)
Lemma nan_unordered (x y : float) :
  PrimFloat.is_nan x = true ->
  (x <? y) = false /\ (x <=? y) = false /\ (y <? x) = false /\ (y <=? x) = false.
Proof.
  intros Hx%nan_spec.
  rewrite !FloatAxioms.ltb_spec, !FloatAxioms.leb_spec, Hx.
  unfold SFltb, SFleb. simpl.
  destruct (Prim2SF y); simpl; auto.
Qed.

Lemma not_leb_ltb (x y : float) :
  PrimFloat.is_nan x = false -> PrimFloat.is_nan y = false ->
  (x <=? y) = false -> (y <? x) = true.
Proof.
  intros Hx Hy Hle. destruct (y <? x) eqn:E; [ reflexivity | ].
  rewrite (not_ltb_leb y x Hy Hx E) in Hle. discriminate.
Qed.

(** X9: the price validator accepts exactly the prices above 0 and NaN; the
    device validator accepts exactly a wattage above 0 or NaN together with
    hours between 0 and 24 or NaN.  Infinite values above 0 are accepted. *)
Theorem validators_accept (price wattage hours : float) :
  (validate_price_per_kwh price = Returns tt
   <-> (0 <? price) = true \/ PrimFloat.is_nan price = true)
  /\ (validate_device_values wattage hours = Returns tt
      <-> ((0 <? wattage) = true \/ PrimFloat.is_nan wattage = true)
          /\ (((0 <=? hours) = true /\ (hours <=? 24) = true)
              \/ PrimFloat.is_nan hours = true)).
Proof.
  unfold validate_price_per_kwh, validate_device_values.
  cbn [fle flt of_int binary64].
  change (float_of_int 0) with 0. change (float_of_int 24) with 24.
  assert (H0 : PrimFloat.is_nan 0 = false) by reflexivity.
  assert (H24 : PrimFloat.is_nan 24 = false) by reflexivity.
  assert (Hpos : forall x, (x <=? 0) = false <->
                           (0 <? x) = true \/ PrimFloat.is_nan x = true).
  { intros x. split.
    - intros Hle. destruct (PrimFloat.is_nan x) eqn:Ex; [ auto | left ].
      apply not_leb_ltb; assumption.
    - intros [ Hlt | Hnan ].
      + apply ltb_not_leb, Hlt.
      + apply (nan_unordered x 0 Hnan). }
  assert (Hrange : forall x, (x <? 0) = false /\ (24 <? x) = false <->
                             ((0 <=? x) = true /\ (x <=? 24) = true)
                             \/ PrimFloat.is_nan x = true).
  { intros x. split.
    - intros [ Hlo Hhi ]. destruct (PrimFloat.is_nan x) eqn:Ex; [ auto | left ].
      split; apply not_ltb_leb; assumption.
    - intros [ [ Hlo Hhi ] | Hnan ].
      + split; apply leb_not_ltb; assumption.
      + split; apply (nan_unordered x _ Hnan). }
  split.
  - rewrite <- Hpos. destruct (price <=? 0); split; congruence.
  - rewrite <- Hpos, <- Hrange.
    destruct (wattage <=? 0), (hours <? 0), (24 <? hours); split;
      try congruence; try (intros [ ? [ ? ? ] ]; congruence); auto.
Qed.
End Accepted.

(** ** Costs are never negative *)

Section NotNegative.
Local Open Scope Z_scope.

(** Rounding keeps the sign. *)
Lemma binary_round_aux_sign (sx : bool) (mx ex : Z) (lx : location) :
  0 <= mx ->
  match binary_round_aux prec emax sx mx ex lx with
  | S754_zero s | S754_infinity s | S754_finite s _ _ => s = sx
  | S754_nan => False
  end.
Proof.
  intros Hm. unfold binary_round_aux.
  pose proof (shr_fexp_nonneg mx ex lx Hm) as H1.
  destruct (shr_fexp prec emax mx ex lx) as [ mrs' e' ]. simpl in H1.
  pose proof (shr_fexp_nonneg _ e' loc_Exact
                (round_nearest_even_nonneg _ (loc_of_shr_record mrs') H1)) as H2.
  destruct (shr_fexp prec emax
              (round_nearest_even (shr_m mrs') (loc_of_shr_record mrs')) e' loc_Exact)
    as [ mrs'' e'' ].
  simpl in H2. destruct (shr_m mrs'') as [ | m | m ]; try reflexivity.
  - destruct (e'' <=? emax - prec); reflexivity.
  - lia.
Qed.

Lemma binary_round_aux_not_negative (mx ex : Z) (lx : location) :
  0 <= mx -> not_negative (binary_round_aux prec emax false mx ex lx).
Proof.
  intros Hm. pose proof (binary_round_aux_sign false mx ex lx Hm) as Hs.
  destruct (binary_round_aux prec emax false mx ex lx); simpl; subst; auto.
Qed.

(** The product of two finite numbers that are not negative. *)
Lemma SFmul_not_negative (x y : spec_float) :
  not_negative x -> not_negative y ->
  match x with S754_infinity _ => False | _ => True end ->
  match y with S754_infinity _ => False | _ => True end ->
  not_negative (SF64mul x y).
Proof.
  unfold SF64mul.
  destruct x as [ sx | sx | | [ | ] mx ex ], y as [ sy | sy | | [ | ] my ey ];
    simpl; intros Hx Hy Hfx Hfy; try contradiction; try exact I.
  apply binary_round_aux_not_negative. lia.
Qed.

(** The product and the quotient by a finite number above 0. *)
Lemma SFmul_positive_r (x : spec_float) (m : positive) (e : Z) :
  not_negative x -> not_negative (SF64mul x (S754_finite false m e)).
Proof.
  unfold SF64mul. destruct x as [ sx | [ | ] | | [ | ] mx ex ]; simpl;
    intros Hx; try contradiction; try exact I.
  apply binary_round_aux_not_negative. lia.
Qed.

Lemma SFdiv_positive_r (x : spec_float) (m : positive) (e : Z) :
  not_negative x -> not_negative (SF64div x (S754_finite false m e)).
Proof.
  unfold SF64div. destruct x as [ sx | [ | ] | | [ | ] mx ex ]; simpl;
    intros Hx; try contradiction; try exact I.
  unfold SFdiv_core_binary.
  set (m' := match _ with Zpos _ => _ | Z0 => _ | Zneg _ => _ end).
  assert (Hm' : 0 <= m').
  { unfold m'. destruct (_ - _)%Z; try lia. apply Z.shiftl_nonneg. lia. }
  pose proof (Z.div_pos m' (Zpos m) Hm' ltac:(lia)) as Hq.
  unfold Z.div in Hq. destruct (Z.div_eucl m' (Z.pos m)) as [ q r ].
  apply binary_round_aux_not_negative. exact Hq.
Qed.

Lemma leb_zero_spec (x : float) :
  PrimFloat.leb 0 x = true <-> not_negative (Prim2SF x).
Proof.
  rewrite FloatAxioms.leb_spec.
  change (Prim2SF 0) with (S754_zero false). unfold SFleb.
  destruct (Prim2SF x) as [ s | [ | ] | | [ | ] m e ]; simpl;
    split; intros Hx; try contradiction; try discriminate; auto.
Qed.

Lemma finite_not_negative_spec (x : float) :
  finite_number x = true -> PrimFloat.leb 0 x = true ->
  not_negative (Prim2SF x)
  /\ match Prim2SF x with S754_infinity _ => False | _ => True end.
Proof.
  intros Hfin Hle%leb_zero_spec. split; [ exact Hle | ].
  unfold finite_number in Hfin. destruct (Prim2SF x); try discriminate; exact I.
Qed.

Lemma finite_positive_spec (x : float) :
  finite_number x = true -> PrimFloat.ltb 0 x = true ->
  exists m e, Prim2SF x = S754_finite false m e.
Proof.
  unfold finite_number. rewrite FloatAxioms.ltb_spec.
  change (Prim2SF 0) with (S754_zero false). unfold SFltb.
  destruct (Prim2SF x) as [ s | s | | [ | ] m e ]; simpl;
    intros Hfin Hlt; try discriminate.
  eauto.
Qed.

(** X10: for a finite wattage and finite hours that are not below 0 and a finite
    price above 0, the daily and monthly energy and the daily, weekly and
    monthly cost are numbers and are not below 0. *)
Theorem costs_not_negative (w h p : float) :
  finite_number w = true -> finite_number h = true -> finite_number p = true ->
  PrimFloat.leb 0 w = true -> PrimFloat.leb 0 h = true -> PrimFloat.ltb 0 p = true ->
  PrimFloat.leb 0 (daily_kwh w h) = true
  /\ PrimFloat.leb 0 (monthly_kwh w h) = true
  /\ PrimFloat.leb 0 (daily_cost w h p) = true
  /\ PrimFloat.leb 0 (weekly_cost w h p) = true
  /\ PrimFloat.leb 0 (monthly_cost w h p) = true.
Proof.
  intros Hfw Hfh Hfp Hw Hh Hp.
  destruct (finite_not_negative_spec w Hfw Hw) as [ Hw1 Hw2 ].
  destruct (finite_not_negative_spec h Hfh Hh) as [ Hh1 Hh2 ].
  destruct (finite_positive_spec p Hfp Hp) as (mp & ep & Ep).
  assert (E1000 : exists m e, Prim2SF (float_of_int 1000) = S754_finite false m e)
    by (apply finite_positive_spec; reflexivity).
  assert (E7 : exists m e, Prim2SF (float_of_int 7) = S754_finite false m e)
    by (apply finite_positive_spec; reflexivity).
  assert (E30 : exists m e, Prim2SF (float_of_int 30) = S754_finite false m e)
    by (apply finite_positive_spec; reflexivity).
  destruct E1000 as (m1000 & e1000 & E1000), E7 as (m7 & e7 & E7),
    E30 as (m30 & e30 & E30).
  assert (Hkwh : not_negative (Prim2SF (daily_kwh w h))).
  { unfold daily_kwh. cbn [fmul fdiv of_int binary64].
    rewrite FloatAxioms.div_spec, FloatAxioms.mul_spec, E1000.
    apply SFdiv_positive_r, SFmul_not_negative; assumption. }
  assert (Hcost : not_negative (Prim2SF (daily_cost w h p))).
  { unfold daily_cost, cost_for_kwh. cbn [fmul binary64].
    rewrite FloatAxioms.mul_spec, Ep. apply SFmul_positive_r, Hkwh. }
  repeat split; apply leb_zero_spec.
  - exact Hkwh.
  - unfold monthly_kwh, DAYS_PER_MONTH. cbn [fmul of_int binary64].
    rewrite FloatAxioms.mul_spec, E30. apply SFmul_positive_r, Hkwh.
  - exact Hcost.
  - unfold weekly_cost, DAYS_PER_WEEK. cbn [fmul of_int binary64].
    rewrite FloatAxioms.mul_spec, E7. apply SFmul_positive_r, Hcost.
  - unfold monthly_cost, DAYS_PER_MONTH. cbn [fmul of_int binary64].
    rewrite FloatAxioms.mul_spec, E30. apply SFmul_positive_r, Hcost.
Qed.

Lemma costs_not_negative_witness :
  PrimFloat.leb 0 (daily_cost 1500 13 p010)%float = true
  /\ PrimFloat.leb 0 (monthly_cost 1500 0 p010)%float = true.
Proof.
  split.
  - apply (costs_not_negative 1500%float 13%float p010); reflexivity.
  - apply (costs_not_negative 1500%float 0%float p010); reflexivity.
Defined.
End NotNegative.

(** ** load_devices *)

Section Loading.
Context {num : Type} `{PyFloat num}.
Variable float_of_string : string -> option num.
Local Open Scope list_scope.

Lemma or_default_not_empty (s : string) : or_default s "Unknown" <> "".
Proof.
  unfold or_default. destruct (String.eqb_spec s ""); [ discriminate | assumption ].
Qed.

Lemma load_lines_invariant (lines : list string) :
  forall (line_no : nat) (devices : list (Device num)) (seen_ids : gset string)
         (result : list (Device num)),
    (forall id, id ∈ seen_ids <-> In id (map device_id devices)) ->
    List.NoDup (map device_id devices) ->
    Forall well_formed_device devices ->
    load_lines float_of_string line_no lines devices seen_ids = Loaded result ->
    result <> []
    /\ List.NoDup (map device_id result)
    /\ Forall well_formed_device result.
Proof.
  induction lines as [ | raw lines IH ];
    intros line_no devices seen_ids result Hseen Hnodup Hgood Hload;
    simpl in Hload.
  - destruct devices as [ | d devices ]; [ discriminate | ].
    injection Hload as <-. split; [ discriminate | auto ].
  - destruct (skipped_line raw); [ eapply IH; eassumption | ].
    destruct (line_parts raw)
      as [ | id [ | nm [ | ws [ | hs [ | room [ | extra parts ] ] ] ] ] ];
      try discriminate.
    destruct (String.eqb_spec id "") as [ | Hid ]; [ discriminate | ].
    destruct (decide (id ∈ seen_ids)) as [ | Hnew ]; [ discriminate | ].
    destruct (float_of_string ws) as [ w | ]; [ | discriminate ].
    destruct (float_of_string hs) as [ h | ]; [ | discriminate ].
    destruct (validate_device_values w h) as [ [] | msg ] eqn:Evalid;
      [ | discriminate ].
    eapply IH; [ | | | exact Hload ].
    + intros id'. rewrite elem_of_union, elem_of_singleton, map_app, in_app_iff.
      rewrite Hseen. simpl. intuition (subst; auto).
    + rewrite map_app. simpl.
      apply (Permutation_NoDup (Permutation_cons_append _ _)).
      constructor; [ | exact Hnodup ].
      rewrite <- Hseen. exact Hnew.
    + apply Forall_app. split; [ exact Hgood | ].
      constructor; [ | constructor ].
      unfold well_formed_device. simpl.
      auto using or_default_not_empty.
Qed.

(** X11: on success [load_devices] returns at least one device, and the
    identifiers of the devices are not empty and pairwise distinct. *)
Theorem loaded_ids_distinct (files : string -> option string) (file_path : string)
    (devices : list (Device num)) :
  load_devices float_of_string files file_path = Loaded devices ->
  devices <> []
  /\ List.NoDup (map device_id devices)
  /\ Forall (fun d => device_id d <> "") devices.
Proof.
  unfold load_devices. destruct (files file_path) as [ text | ]; [ | discriminate ].
  intros Hload.
  destruct (load_lines_invariant (splitlines text) 1 [] ∅ devices) as (Hne & Hnd & Hwf);
    try assumption.
  - intros id. rewrite elem_of_empty. simpl. tauto.
  - constructor.
  - constructor.
  - split; [ exact Hne | split; [ exact Hnd | ] ].
    eapply List.Forall_impl; [ | exact Hwf ]. intros d Hd. apply Hd.
Qed.

(** X12: on success every device has passed [validate_device_values], and its
    name and room are not empty (a missing one reads "Unknown"). *)
Theorem loaded_devices_valid (files : string -> option string) (file_path : string)
    (devices : list (Device num)) :
  load_devices float_of_string files file_path = Loaded devices ->
  Forall
    (fun d =>
       validate_device_values (wattage d) (avg_hours_per_day d) = Returns tt
       /\ name d <> "" /\ room_location d <> "")
    devices.
Proof.
  unfold load_devices. destruct (files file_path) as [ text | ]; [ | discriminate ].
  intros Hload.
  destruct (load_lines_invariant (splitlines text) 1 [] ∅ devices) as (_ & _ & Hwf);
    try assumption.
  - intros id. rewrite elem_of_empty. simpl. tauto.
  - constructor.
  - constructor.
  - eapply List.Forall_impl; [ | exact Hwf ].
    intros d (_ & Hname & Hroom & Hvalid). auto.
Qed.

(** X13: a file with no line other than blank lines and comments, the empty file
    included, is refused. *)
Theorem load_nothing (line_no : nat) (lines : list string) :
  Forall (fun raw => skipped_line raw = true) lines ->
  load_lines float_of_string line_no lines [] ∅
  = DataFileError "No valid devices found in appliances file.".
Proof.
  intros Hskipped. revert line_no.
  induction Hskipped as [ | raw lines Hraw _ IH ]; intros line_no; simpl.
  - reflexivity.
  - rewrite Hraw. apply IH.
Qed.
End Loading.

Section LoadingExamples.
Local Open Scope list_scope.

Lemma loaded_ids_distinct_witness :
  List.NoDup (map device_id
                [ mkDevice "D1" "Kettle" 1500%float 13%float "Kitchen";
                  mkDevice "D2" "Unknown" 60%float 5%float "Unknown" ]).
Proof.
  apply (loaded_ids_distinct float_of_digits sample_files "appliances.txt").
  reflexivity.
Defined.

Lemma loaded_devices_valid_witness :
  Forall
    (fun d : Device float =>
       validate_device_values (wattage d) (avg_hours_per_day d) = Returns tt
       /\ name d <> "" /\ room_location d <> "")
    [ mkDevice "D1" "Kettle" 1500%float 13%float "Kitchen";
      mkDevice "D2" "Unknown" 60%float 5%float "Unknown" ].
Proof.
  apply (loaded_devices_valid float_of_digits sample_files "appliances.txt").
  reflexivity.
Defined.

Lemma load_nothing_witness :
  load_lines float_of_digits 1 ["# no device yet"; "   "; ""] [] ∅
  = DataFileError "No valid devices found in appliances file.".
Proof. apply load_nothing. repeat constructor. Defined.
End LoadingExamples.

Section LoadingLines.
Context {num : Type} `{PyFloat num}.
Variable float_of_string : string -> option num.
Local Open Scope list_scope.

(** X14: blank lines, comments and the numbering of the lines do not change the
    devices that are loaded: the file loads exactly when its data lines
    alone do, and to the same devices. *)
Theorem load_ignores_skipped_lines (lines : list string) :
  forall (n m : nat) (devices : list (Device num)) (seen_ids : gset string)
         (result : list (Device num)),
    load_lines float_of_string n lines devices seen_ids = Loaded result
    <-> load_lines float_of_string m (data_lines lines) devices seen_ids
        = Loaded result.
Proof.
  induction lines as [ | raw lines IH ]; intros n m devices seen_ids result.
  - reflexivity.
  - unfold data_lines. cbn [List.filter load_lines].
    destruct (skipped_line raw) eqn:Eskip; cbn [negb].
    + apply IH.
    + cbn [load_lines]. rewrite Eskip.
      destruct (line_parts raw)
        as [ | id [ | nm [ | ws [ | hs [ | room [ | extra parts ] ] ] ] ] ];
        try (split; discriminate).
      destruct (String.eqb id ""); [ split; discriminate | ].
      destruct (decide (id ∈ seen_ids)); [ split; discriminate | ].
      destruct (float_of_string ws) as [ w | ]; [ | split; discriminate ].
      destruct (float_of_string hs) as [ h | ]; [ | split; discriminate ].
      destruct (validate_device_values w h); [ | split; discriminate ].
      apply IH.
Qed.

Lemma load_lines_per_line (lines : list string) :
  forall (n : nat) (devices : list (Device num)) (seen_ids : gset string)
         (result : list (Device num)),
    load_lines float_of_string n lines devices seen_ids = Loaded result ->
    map device_id result
    = map device_id devices
        ++ map (fun raw => hd "" (line_parts raw)) (data_lines lines)
    /\ Forall (fun raw => length (line_parts raw) = 5) (data_lines lines).
Proof.
  induction lines as [ | raw lines IH ]; intros n devices seen_ids result Hload;
    simpl in Hload.
  - destruct devices; [ discriminate | ]. injection Hload as <-.
    simpl. rewrite app_nil_r. auto.
  - unfold data_lines. cbn [List.filter].
    destruct (skipped_line raw) eqn:Eskip; cbn [negb].
    + eapply IH, Hload.
    + destruct (line_parts raw)
        as [ | id [ | nm [ | ws [ | hs [ | room [ | extra parts ] ] ] ] ] ] eqn:Eparts;
        try discriminate.
      destruct (String.eqb id ""); [ discriminate | ].
      destruct (decide (id ∈ seen_ids)); [ discriminate | ].
      destruct (float_of_string ws) as [ w | ]; [ | discriminate ].
      destruct (float_of_string hs) as [ h | ]; [ | discriminate ].
      destruct (validate_device_values w h); [ | discriminate ].
      apply IH in Hload as [ Hids Hfields ].
      split.
      * rewrite Hids, map_app, <- app_assoc. cbn [map]. rewrite Eparts.
        reflexivity.
      * constructor; [ rewrite Eparts; reflexivity | exact Hfields ].
Qed.

(** X15: on success there is one device per data line, in the order of the file:
    every data line has exactly five fields and the identifiers of the
    devices are the first fields of the data lines. *)
Theorem loaded_one_device_per_line (files : string -> option string)
    (file_path text : string) (devices : list (Device num)) :
  files file_path = Some text ->
  load_devices float_of_string files file_path = Loaded devices ->
  length devices = length (data_lines (splitlines text))
  /\ map device_id devices
     = map (fun raw => hd "" (line_parts raw)) (data_lines (splitlines text))
  /\ Forall (fun raw => length (line_parts raw) = 5) (data_lines (splitlines text)).
Proof.
  unfold load_devices. intros -> Hload.
  apply load_lines_per_line in Hload as [ Hids Hfields ]. simpl in Hids.
  split; [ | auto ].
  rewrite <- (length_map device_id), Hids, length_map. reflexivity.
Qed.
End LoadingLines.

Section LoadingLinesExamples.
Local Open Scope list_scope.

Lemma load_ignores_skipped_lines_witness :
  load_lines float_of_digits 7 ["D1|Kettle|1500|13|Kitchen"] [] ∅
  = Loaded [ mkDevice "D1" "Kettle" 1500%float 13%float "Kitchen" ].
Proof.
  apply (load_ignores_skipped_lines float_of_digits
           ["# kitchen"; "D1|Kettle|1500|13|Kitchen"; ""] 1 7).
  reflexivity.
Defined.

Lemma loaded_one_device_per_line_witness :
  map device_id
    [ mkDevice "D1" "Kettle" 1500%float 13%float "Kitchen";
      mkDevice "D2" "Unknown" 60%float 5%float "Unknown" ]
  = ["D1"; "D2"].
Proof.
  apply (loaded_one_device_per_line float_of_digits sample_files
           "appliances.txt" sample_appliances); reflexivity.
Defined.
End LoadingLinesExamples.

(** ** A well-formed line loads to the device it describes *)

Section StripAndSplit.
Local Open Scope list_scope.
Local Arguments String.append : simpl nomatch.

Lemma lstrip_length (s : string) : String.length (lstrip s) <= String.length s.
Proof.
  induction s as [ | c s IH ]; simpl; [ lia | ].
  destruct (is_space c); simpl; lia.
Qed.

Lemma rstrip_length (s : string) : String.length (rstrip s) <= String.length s.
Proof.
  induction s as [ | c s IH ]; simpl; [ lia | ].
  destruct (rstrip s); [ destruct (is_space c) | ]; simpl in *; lia.
Qed.

Lemma lstrip_first (c : ascii) (s : string) :
  lstrip (String c s) = String c s -> is_space c = false.
Proof.
  simpl. destruct (is_space c); [ | reflexivity ].
  intros E. pose proof (lstrip_length s) as Hlen. rewrite E in Hlen.
  simpl in Hlen. lia.
Qed.

Lemma strip_fixed (s : string) : strip s = s -> lstrip s = s /\ rstrip s = s.
Proof.
  unfold strip. intros E.
  assert (Hl : lstrip s = s).
  { destruct s as [ | c s ]; [ reflexivity | ].
    simpl. destruct (is_space c) eqn:Ec; [ | reflexivity ].
    simpl in E. rewrite Ec in E.
    pose proof (rstrip_length (lstrip s)) as H1.
    pose proof (lstrip_length s) as H2.
    rewrite E in H1. simpl in H1. lia. }
  rewrite Hl in E. auto.
Qed.

Lemma rstrip_not_space (c : ascii) (s : string) :
  is_space c = false -> rstrip (String c s) = String c (rstrip s).
Proof. intros Hc. simpl. rewrite Hc. destruct (rstrip s); reflexivity. Qed.

Lemma rstrip_app (s t : string) :
  rstrip t <> "" -> rstrip (s ++ t)%string = (s ++ rstrip t)%string.
Proof.
  intros Ht. induction s as [ | c s IH ]; simpl; [ reflexivity | ].
  rewrite IH. destruct (s ++ rstrip t)%string eqn:E; [ | reflexivity ].
  destruct s; simpl in E; [ contradiction | discriminate ].
Qed.

Lemma rstrip_after (c : ascii) (s t : string) :
  is_space c = false ->
  rstrip (s ++ String c t)%string = (s ++ String c (rstrip t))%string.
Proof.
  intros Hc. rewrite rstrip_app; rewrite rstrip_not_space by exact Hc;
    [ reflexivity | discriminate ].
Qed.

Lemma split_char_not_empty (sep : ascii) (s : string) : split_char sep s <> [].
Proof.
  induction s as [ | c s IH ]; simpl; [ discriminate | ].
  destruct (Ascii.eqb c sep); [ discriminate | ].
  destruct (split_char sep s); [ contradiction | discriminate ].
Qed.

(** Splitting at the separator undoes joining with it. *)
Lemma split_char_app (sep : ascii) (a t : string) :
  ~ In sep (list_ascii_of_string a) ->
  split_char sep (a ++ String sep t)%string = a :: split_char sep t.
Proof.
  induction a as [ | c a IH ]; simpl; intros Ha.
  - rewrite Ascii.eqb_refl. reflexivity.
  - destruct (Ascii.eqb_spec c sep) as [ -> | _ ]; [ tauto | ].
    rewrite IH by tauto. reflexivity.
Qed.

Lemma split_char_clean (sep : ascii) (a : string) :
  ~ In sep (list_ascii_of_string a) -> split_char sep a = [a].
Proof.
  induction a as [ | c a IH ]; simpl; intros Ha; [ reflexivity | ].
  destruct (Ascii.eqb_spec c sep) as [ -> | _ ]; [ tauto | ].
  rewrite IH by tauto. reflexivity.
Qed.
End StripAndSplit.

Section RoundTrip.
Context {num : Type} `{PyFloat num}.
Variable float_of_string : string -> option num.
Local Open Scope list_scope.
Local Arguments String.append : simpl nomatch.

(** X16: a line made of five fields joined by ["|"] loads to the device with
    these fields, "Unknown" standing for an empty name or room: the fields
    have no blank at their ends and no ["|"], the identifier is not empty and
    does not start with ["#"], and the two numbers are read by [float] and
    pass the validation. *)
Theorem load_line_round_trip (line_no : nat) (id nm ws hs room : string)
    (w h : num) :
  clean_field id -> clean_field nm -> clean_field ws -> clean_field hs ->
  clean_field room ->
  id <> "" -> String.prefix "#" id = false ->
  float_of_string ws = Some w -> float_of_string hs = Some h ->
  validate_device_values w h = Returns tt ->
  load_lines float_of_string line_no [join "|" [id; nm; ws; hs; room]] [] ∅
  = Loaded
      [ {| device_id := id;
           name := or_default nm "Unknown";
           wattage := w;
           avg_hours_per_day := h;
           room_location := or_default room "Unknown" |} ].
Proof.
  intros [ Sid Pid ] [ Snm Pnm ] [ Sws Pws ] [ Shs Phs ] [ Sroom Proom ]
    Hid Hhash Hw Hh Hvalid.
  set (line := join "|" [id; nm; ws; hs; room]).
  assert (Eline : line
                  = (id ++ String "|" (nm ++ String "|" (ws ++ String "|"
                       (hs ++ String "|" room))))%string) by reflexivity.
  destruct id as [ | c id' ]; [ contradiction | ].
  assert (Hc : is_space c = false)
    by (apply (lstrip_first c id'), strip_fixed, Sid).
  assert (Hstrip : strip line = line).
  { unfold strip.
    assert (Hl : lstrip line = line) by (rewrite Eline; simpl; rewrite Hc; reflexivity).
    rewrite Hl, Eline.
    rewrite !rstrip_after by reflexivity.
    rewrite (proj2 (strip_fixed room Sroom)). reflexivity. }
  assert (Hskip : skipped_line line = false).
  { unfold skipped_line. rewrite Hstrip, Eline.
    change (String.prefix "#" (String c id'))
      with (if Ascii.ascii_dec "#" c then String.prefix "" id' else false)
      in Hhash.
    cbn [String.append].
    match goal with
    | |- String.eqb _ _ || String.prefix "#" (String c ?rest) = false =>
        change (String.prefix "#" (String c rest))
          with (if Ascii.ascii_dec "#" c then String.prefix "" rest else false)
    end.
    destruct (Ascii.ascii_dec "#" c); [ | reflexivity ].
    destruct id'; discriminate. }
  assert (Hparts : line_parts line = [String c id'; nm; ws; hs; room]).
  { unfold line_parts. rewrite Hstrip, Eline.
    rewrite !split_char_app, split_char_clean by assumption.
    simpl. rewrite Sid, Snm, Sws, Shs, Sroom. reflexivity. }
  cbn [load_lines]. rewrite Hskip, Hparts. cbn [String.eqb].
  destruct (decide (String c id' ∈ (∅ : gset string))) as [ Hin | _ ];
    [ apply elem_of_empty in Hin; contradiction | ].
  rewrite Hw, Hh, Hvalid. reflexivity.
Qed.
End RoundTrip.

Section RoundTripExamples.
Local Open Scope list_scope.

Lemma load_line_round_trip_witness :
  load_lines float_of_digits 1 ["D1|Kettle|1500|13|"] [] ∅
  = Loaded [ mkDevice "D1" "Kettle" 1500%float 13%float "Unknown" ].
Proof.
  apply (load_line_round_trip float_of_digits 1 "D1" "Kettle" "1500" "13" "");
    try reflexivity; try discriminate;
    split; try reflexivity; simpl; intuition discriminate.
Defined.
End RoundTripExamples.

(** ** The prompts *)

Section Prompts.
Context {num : Type} `{PyFloat num}.
Variable float_of_string : string -> option num.
Variable str_of_float : num -> string.
Local Open Scope list_scope.

Lemma prompt_float_accepted (prompt : string) (min_value : option num)
    (allow_zero : bool) (entry : string) (stdin : list string) (val : num) :
  accepted_float float_of_string min_value allow_zero entry = Some val ->
  prompt_float float_of_string str_of_float prompt min_value allow_zero
    (entry :: stdin)
  = (Some val, stdin, [Asked prompt]).
Proof.
  unfold accepted_float. cbn [prompt_float].
  destruct (float_of_string (strip entry)) as [ v | ]; [ | discriminate ].
  destruct min_value as [ min | ]; [ | congruence ].
  destruct allow_zero.
  - destruct (flt v min); [ discriminate | congruence ].
  - destruct (fle v min); [ discriminate | congruence ].
Qed.

Lemma prompt_float_rejected (prompt : string) (min_value : option num)
    (allow_zero : bool) (entry : string) (stdin : list string) :
  accepted_float float_of_string min_value allow_zero entry = None ->
  exists message,
    prompt_float float_of_string str_of_float prompt min_value allow_zero
      (entry :: stdin)
    = (let '(val, unread, written) :=
         prompt_float float_of_string str_of_float prompt min_value allow_zero
           stdin in
       (val, unread, Asked prompt :: Printed message :: written)).
Proof.
  unfold accepted_float. cbn [prompt_float].
  destruct (float_of_string (strip entry)) as [ v | ]; [ | eauto ].
  destruct min_value as [ min | ]; [ | discriminate ].
  destruct allow_zero.
  - destruct (flt v min); [ eauto | discriminate ].
  - destruct (fle v min); [ eauto | discriminate ].
Qed.

(** X17: [prompt_float] returns the value of the first entry that [float] reads
    and that respects the bound; each entry before it is answered by one
    message and asked again, and the entries after it are left unread.  When
    no entry is accepted, the input runs out and [input] raises EOFError. *)
Theorem prompt_float_first_accepted (prompt : string) (min_value : option num)
    (allow_zero : bool) (rejected : list string) :
  Forall
    (fun entry => accepted_float float_of_string min_value allow_zero entry = None)
    rejected ->
  (forall (entry : string) (stdin : list string) (val : num),
      accepted_float float_of_string min_value allow_zero entry = Some val ->
      exists written,
        prompt_float float_of_string str_of_float prompt min_value allow_zero
          (rejected ++ entry :: stdin)
        = (Some val, stdin, written)
        /\ length written = 2 * length rejected + 1)
  /\ exists written,
       prompt_float float_of_string str_of_float prompt min_value allow_zero
         rejected
       = (None, [], written)
       /\ length written = 2 * length rejected + 1.
Proof.
  induction 1 as [ | bad rejected Hbad _ [ IHfound IHeof ] ].
  - split.
    + intros entry stdin val Hval. eexists.
      split; [ apply prompt_float_accepted, Hval | reflexivity ].
    + eexists. split; reflexivity.
  - destruct (prompt_float_rejected prompt min_value allow_zero bad) with
      (1 := Hbad) (stdin := rejected) as [ message Hstep ].
    split.
    + intros entry stdin val Hval.
      destruct (IHfound entry stdin val Hval) as (written & Hrun & Hlen).
      destruct (prompt_float_rejected prompt min_value allow_zero bad
                  (rejected ++ entry :: stdin) Hbad) as [ message' Hstep' ].
      cbn [app]. rewrite Hstep', Hrun.
      eexists. split; [ reflexivity | ]. simpl. lia.
    + destruct IHeof as (written & Hrun & Hlen).
      rewrite Hstep, Hrun. eexists. split; [ reflexivity | ]. simpl. lia.
Qed.

(** The value that [prompt_float] returns was typed in and respects the
    bound: it is not below the minimum, and not equal to it either unless
    [allow_zero] is set. *)
Lemma prompt_float_returned (prompt : string) (min_value : option num)
    (allow_zero : bool) (stdin unread : list string) (written : list output)
    (val : num) :
  prompt_float float_of_string str_of_float prompt min_value allow_zero stdin
  = (Some val, unread, written) ->
  (exists entry, In entry stdin /\ float_of_string (strip entry) = Some val)
  /\ match min_value with
     | Some min => if allow_zero then flt val min = false else fle val min = false
     | None => True
     end.
Proof.
  revert unread written.
  induction stdin as [ | entry stdin IH ]; intros unread written Hrun.
  - discriminate.
  - destruct (accepted_float float_of_string min_value allow_zero entry)
      as [ v | ] eqn:Ev.
    + rewrite (prompt_float_accepted prompt _ _ _ _ _ Ev) in Hrun.
      injection Hrun as -> _ _.
      unfold accepted_float in Ev.
      destruct (float_of_string (strip entry)) as [ v' | ] eqn:Eparse;
        [ | discriminate ].
      split.
      * exists entry. split; [ left; reflexivity | ].
        rewrite Eparse.
        destruct min_value; [ destruct (if allow_zero then _ else _) | ]; congruence.
      * destruct min_value as [ min | ]; [ | exact I ].
        destruct allow_zero.
        -- destruct (flt v' min) eqn:E; [ discriminate | congruence ].
        -- destruct (fle v' min) eqn:E; [ discriminate | congruence ].
    + destruct (prompt_float_rejected prompt min_value allow_zero entry stdin Ev)
        as [ message Hstep ].
      rewrite Hstep in Hrun.
      destruct (prompt_float float_of_string str_of_float prompt min_value
                  allow_zero stdin) as [ [ v u ] o ].
      injection Hrun as Hv Hu _. subst v u.
      destruct (IH unread o eq_refl) as [ (e & He & Hparse) Hbound ].
      split; [ exists e; split; [ right; exact He | exact Hparse ] | exact Hbound ].
Qed.

(** X18: the price that [main] reads always passes [validate_price_per_kwh], so
    the error branch of [main] for an invalid price is never taken; the extra
    daily cost and the alert threshold are never below 0. *)
Theorem main_inputs_checked (stdin unread : list string) (written : list output)
    (val : num) :
  (main_price float_of_string str_of_float stdin = (Some val, unread, written) ->
   validate_price_per_kwh val = Returns tt)
  /\ (main_extra_daily_cost float_of_string str_of_float stdin
      = (Some val, unread, written) ->
      flt val (of_int 0) = false)
  /\ (main_threshold float_of_string str_of_float stdin
      = (Some val, unread, written) ->
      flt val (of_int 0) = false).
Proof.
  unfold main_price, main_extra_daily_cost, main_threshold.
  split; [ | split ]; intros Hrun; apply prompt_float_returned in Hrun as [ _ Hbound ];
    simpl in Hbound.
  - unfold validate_price_per_kwh. rewrite Hbound. reflexivity.
  - exact Hbound.
  - exact Hbound.
Qed.
End Prompts.

Section PromptExamples.
Local Open Scope list_scope.

Lemma prompt_float_first_accepted_witness :
  (exists written,
      prompt_float float_of_digits (fun _ => "0.0") "Price: " (Some 0%float) false
        ([ "abc"; " 0 " ] ++ " 12 " :: [ "7" ])
      = (Some 12%float, [ "7" ], written)
      /\ length written = 5)
  /\ exists written,
       prompt_float float_of_digits (fun _ => "0.0") "Price: " (Some 0%float) false
         [ "abc"; " 0 " ]
       = (None, [], written)
       /\ length written = 5.
Proof.
  destruct (prompt_float_first_accepted float_of_digits (fun _ => "0.0")
              "Price: " (Some 0%float) false [ "abc"; " 0 " ])
    as [ Hfound Heof ].
  - constructor; [ vm_compute; reflexivity | ].
    constructor; [ vm_compute; reflexivity | constructor ].
  - split; [ | exact Heof ].
    apply (Hfound " 12 " [ "7" ] 12%float). vm_compute. reflexivity.
Defined.

Lemma main_inputs_checked_witness :
  validate_price_per_kwh 12%float = Returns tt.
Proof.
  destruct (main_inputs_checked float_of_digits (fun _ => "0.0")
              [ "abc"; " 0 "; " 12 "; "7" ] [ "7" ]
              [ Asked "Enter price per kWh (example 0.12): ";
                Printed "Invalid number. Try again (example: 0.12).";
                Asked "Enter price per kWh (example 0.12): ";
                Printed "Value must be > 0.0.";
                Asked "Enter price per kWh (example 0.12): " ]
              12%float) as [ Hprice _ ].
  apply Hprice. vm_compute. reflexivity.
Defined.
End PromptExamples.

Section YesNo.
Local Open Scope list_scope.

Lemma prompt_yes_no_accepted (prompt entry : string) (stdin : list string)
    (answer : bool) :
  accepted_yes_no entry = Some answer ->
  prompt_yes_no prompt (entry :: stdin)
  = (Some answer, stdin, [ Asked (prompt ++ " (y/n): ")%string ]).
Proof.
  unfold accepted_yes_no. cbn [prompt_yes_no].
  destruct (String.eqb (lower (strip entry)) "y"
            || String.eqb (lower (strip entry)) "yes"); [ congruence | ].
  destruct (String.eqb (lower (strip entry)) "n"
            || String.eqb (lower (strip entry)) "no"); [ congruence | discriminate ].
Qed.

Lemma prompt_yes_no_rejected (prompt entry : string) (stdin : list string) :
  accepted_yes_no entry = None ->
  prompt_yes_no prompt (entry :: stdin)
  = (let '(val, unread, written) := prompt_yes_no prompt stdin in
     (val, unread,
      Asked (prompt ++ " (y/n): ")%string
        :: Printed "Please enter y or n." :: written)).
Proof.
  unfold accepted_yes_no. cbn [prompt_yes_no].
  destruct (String.eqb (lower (strip entry)) "y"
            || String.eqb (lower (strip entry)) "yes"); [ discriminate | ].
  destruct (String.eqb (lower (strip entry)) "n"
            || String.eqb (lower (strip entry)) "no"); [ discriminate | reflexivity ].
Qed.

(** X19: [prompt_yes_no] answers with the first entry that is y, yes, n or no
    once stripped and lowered; every entry before it gets the message
    "Please enter y or n." and the question again, and the entries after it
    are left unread.  When no entry is one of the four, the input runs out. *)
Theorem prompt_yes_no_first_accepted (prompt : string) (rejected : list string) :
  Forall (fun entry => accepted_yes_no entry = None) rejected ->
  let question := Asked (prompt ++ " (y/n): ")%string in
  let again := [ question; Printed "Please enter y or n." ] in
  (forall (entry : string) (stdin : list string) (answer : bool),
      accepted_yes_no entry = Some answer ->
      prompt_yes_no prompt (rejected ++ entry :: stdin)
      = (Some answer, stdin, concat (map (fun _ => again) rejected) ++ [ question ]))
  /\ prompt_yes_no prompt rejected
     = (None, [], concat (map (fun _ => again) rejected) ++ [ question ]).
Proof.
  intros Hrejected question again.
  induction Hrejected as [ | bad rejected Hbad _ [ IHfound IHeof ] ].
  - split; [ | reflexivity ].
    intros entry stdin answer Hanswer.
    apply prompt_yes_no_accepted, Hanswer.
  - split.
    + intros entry stdin answer Hanswer.
      cbn [app]. rewrite (prompt_yes_no_rejected _ _ _ Hbad).
      rewrite (IHfound entry stdin answer Hanswer). reflexivity.
    + rewrite (prompt_yes_no_rejected _ _ _ Hbad), IHeof. reflexivity.
Qed.

Lemma prompt_yes_no_first_accepted_witness :
  prompt_yes_no "Warn?" ([ "maybe"; "" ] ++ " YES " :: [ "n" ])
  = (Some true, [ "n" ],
     [ Asked "Warn? (y/n): "; Printed "Please enter y or n.";
       Asked "Warn? (y/n): "; Printed "Please enter y or n.";
       Asked "Warn? (y/n): " ])
  /\ prompt_yes_no "Warn?" [ "maybe"; "" ]
     = (None, [],
        [ Asked "Warn? (y/n): "; Printed "Please enter y or n.";
          Asked "Warn? (y/n): "; Printed "Please enter y or n.";
          Asked "Warn? (y/n): " ]).
Proof.
  destruct (prompt_yes_no_first_accepted "Warn?" [ "maybe"; "" ])
    as [ Hfound Heof ].
  - constructor; [ reflexivity | ]. constructor; [ reflexivity | constructor ].
  - split; [ | exact Heof ].
    apply (Hfound " YES " [ "n" ] true). reflexivity.
Defined.
End YesNo.

(** ** The cost report file *)

Section CostsFile.
Context {num : Type} `{PyFloat num}.
Local Open Scope list_scope.

Lemma append_empty_r (s : string) : (s ++ "")%string = s.
Proof.
  induction s as [ | c s IH ]; [ reflexivity | ].
  change (String c (s ++ "")%string = String c s). rewrite IH. reflexivity.
Qed.

Lemma append_same_l (s t : string) : (s ++ t)%string = s -> t = "".
Proof.
  induction s as [ | c s IH ]; intros Heq; [ exact Heq | ].
  change (String c (s ++ t)%string = String c s) in Heq.
  injection Heq as Heq. exact (IH Heq).
Qed.

(** X20: the file [costs_report.txt] is the cost report alone exactly when there
    is no alert, and [main] has no alert when the threshold is not above 0,
    whatever the devices are. *)
Theorem costs_file_without_alerts (cost_report : string) (alerts : list string)
    (devices : list (Device num)) (threshold_kwh : num) :
  (costs_report_file cost_report alerts = cost_report <-> alerts = [])
  /\ (flt (of_int 0) threshold_kwh = false ->
      costs_report_file cost_report (main_alerts devices threshold_kwh)
      = cost_report).
Proof.
  assert (Hnone : costs_report_file cost_report [] = cost_report)
    by apply append_empty_r.
  split; [ split | ].
  - intros Hfile. destruct alerts as [ | a alerts ]; [ reflexivity | ].
    apply append_same_l in Hfile. discriminate Hfile.
  - intros ->. exact Hnone.
  - intros Hlow. unfold main_alerts.
    change (threshold_kwh >? of_int 0)%num with (flt (of_int 0) threshold_kwh).
    rewrite Hlow. exact Hnone.
Qed.
End CostsFile.

Section CostsFileExamples.
Local Open Scope list_scope.

Lemma costs_file_without_alerts_witness :
  costs_report_file "report" (main_alerts [ D1 ] 0%float) = "report".
Proof.
  destruct (costs_file_without_alerts "report" [] [ D1 ] 0%float) as [ _ Hmain ].
  apply Hmain. reflexivity.
Defined.
End CostsFileExamples.

(** ** The order of the rooms in the forecast *)

Section StringOrder.






End StringOrder.

Section ForecastOrder.
Context {num : Type} `{PyFloat num}.
Local Open Scope list_scope.

End ForecastOrder.

Section ForecastOrderExamples.
Local Open Scope list_scope.

End ForecastOrderExamples.

(** ** Errors of the appliance file *)

Section LoadingErrors.
Context {num : Type} `{PyFloat num}.
Variable float_of_string : string -> option num.
Local Open Scope list_scope.

(** Lines that load are a step towards loading the lines after them. *)
Lemma load_lines_app (loaded_lines : list string) :
  forall (n : nat) (devices : list (Device num)) (seen_ids : gset string)
         (result : list (Device num)),
    (forall id, id ∈ seen_ids <-> In id (map device_id devices)) ->
    load_lines float_of_string n loaded_lines devices seen_ids = Loaded result ->
    exists seen_ids',
      (forall id, id ∈ seen_ids' <-> In id (map device_id result))
      /\ forall lines,
           load_lines float_of_string n (loaded_lines ++ lines) devices seen_ids
           = load_lines float_of_string (n + length loaded_lines) lines result
               seen_ids'.
Proof.
  induction loaded_lines as [ | raw loaded_lines IH ];
    intros n devices seen_ids result Hseen Hload; simpl in Hload.
  - destruct devices as [ | d devices ]; [ discriminate | ].
    injection Hload as <-. exists seen_ids. split; [ exact Hseen | ].
    intros lines. cbn [app length]. rewrite Nat.add_0_r. reflexivity.
  - cbn [app length load_lines]. setoid_rewrite Nat.add_succ_r.
    destruct (skipped_line raw); [ apply (IH (S n)); assumption | ].
    destruct (line_parts raw)
      as [ | id [ | nm [ | ws [ | hs [ | room [ | extra parts ] ] ] ] ] ];
      try discriminate.
    destruct (String.eqb id ""); [ discriminate | ].
    destruct (decide (id ∈ seen_ids)); [ discriminate | ].
    destruct (float_of_string ws) as [ w | ]; [ | discriminate ].
    destruct (float_of_string hs) as [ h | ]; [ | discriminate ].
    destruct (validate_device_values w h); [ | discriminate ].
    apply (IH (S n)); [ | exact Hload ].
    intros id'. rewrite elem_of_union, elem_of_singleton, map_app, in_app_iff.
    rewrite Hseen. simpl. intuition (subst; auto).
Qed.

(** X22: after lines that load, the first line that does not have five fields,
    or that repeats an identifier already loaded, is refused with its
    number in the file, blank lines and comments counted. *)
Theorem load_error_line_number (loaded_lines lines : list string) (raw : string)
    (devices : list (Device num)) :
  load_lines float_of_string 1 loaded_lines [] ∅ = Loaded devices ->
  skipped_line raw = false ->
  let line_no := string_of_N (N.of_nat (S (length loaded_lines))) in
  (length (line_parts raw) <> 5 ->
   load_lines float_of_string 1 (loaded_lines ++ raw :: lines) [] ∅
   = DataFileError
       ("Line " ++ line_no ++ ": expected 5 fields separated by '|', got "
          ++ string_of_N (N.of_nat (length (line_parts raw))) ++ ". "
          ++ "Bad line: " ++ raw))
  /\ (forall id nm ws hs room,
        line_parts raw = [ id; nm; ws; hs; room ] ->
        In id (map device_id devices) ->
        load_lines float_of_string 1 (loaded_lines ++ raw :: lines) [] ∅
        = DataFileError
            ("Line " ++ line_no ++ ": duplicate device_id '" ++ id ++ "'.")).
Proof.
  intros Hload Hdata line_no.
  destruct (load_lines_invariant float_of_string loaded_lines 1 [] ∅ devices)
    as (_ & _ & Hwf); try assumption.
  { intros id. rewrite elem_of_empty. simpl. tauto. }
  { constructor. }
  { constructor. }
  destruct (load_lines_app loaded_lines 1 [] ∅ devices) as (seen & Hseen & Happ);
    try assumption.
  { intros id. rewrite elem_of_empty. simpl. tauto. }
  split.
  - intros Hfields. rewrite Happ. cbn [load_lines Nat.add]. rewrite Hdata.
    destruct (line_parts raw)
      as [ | id [ | nm [ | ws [ | hs [ | room [ | extra parts ] ] ] ] ] ];
      try reflexivity.
    contradiction Hfields. reflexivity.
  - intros id nm ws hs room Hparts Hid. rewrite Happ.
    cbn [load_lines Nat.add]. rewrite Hdata, Hparts.
    assert (Hne : id <> "").
    { apply in_map_iff in Hid as (d & <- & Hd).
      rewrite List.Forall_forall in Hwf. apply (Hwf d Hd). }
    destruct (String.eqb_spec id "") as [ | _ ]; [ contradiction | ].
    destruct (decide (id ∈ seen)) as [ _ | Hnew ]; [ reflexivity | ].
    contradiction Hnew. apply Hseen, Hid.
Qed.
End LoadingErrors.

Section LoadingErrorsExamples.
Local Open Scope list_scope.

Lemma load_error_line_number_witness :
  load_lines float_of_digits 1
    ([ "# kitchen"; "D1|Kettle|1500|13|Kitchen"; "" ]
       ++ "D2|Lamp|60" :: [ "D3|Fan|50|8|Hall" ]) [] ∅
  = DataFileError
      "Line 4: expected 5 fields separated by '|', got 3. Bad line: D2|Lamp|60"
  /\ load_lines float_of_digits 1
       ([ "# kitchen"; "D1|Kettle|1500|13|Kitchen"; "" ]
          ++ " D1 | Toaster | 1200 | 2 | Kitchen" :: [ "D3|Fan|50|8|Hall" ]) [] ∅
     = DataFileError "Line 4: duplicate device_id 'D1'.".
Proof.
  split.
  - apply (load_error_line_number float_of_digits
             [ "# kitchen"; "D1|Kettle|1500|13|Kitchen"; "" ]
             [ "D3|Fan|50|8|Hall" ] "D2|Lamp|60"
             [ mkDevice "D1" "Kettle" 1500%float 13%float "Kitchen" ]);
      [ reflexivity | reflexivity | vm_compute; lia ].
  - destruct (load_error_line_number float_of_digits
                [ "# kitchen"; "D1|Kettle|1500|13|Kitchen"; "" ]
                [ "D3|Fan|50|8|Hall" ] " D1 | Toaster | 1200 | 2 | Kitchen"
                [ mkDevice "D1" "Kettle" 1500%float 13%float "Kitchen" ])
      as [ _ Hrepeated ]; [ reflexivity | reflexivity | ].
    apply (Hrepeated "D1" "Toaster" "1200" "2" "Kitchen");
      [ reflexivity | left; reflexivity ].
Defined.
End LoadingErrorsExamples.

(** ** The questions after the alerts *)

Section AlertQuestions.
Local Open Scope list_scope.

(** X23: when every question is answered at once by y, yes, n or no, the loop of
    [main] over the alerts reads one entry per alert and leaves the rest of
    the input; it prints each alert, asks once, and prints the warning for
    the alerts answered by yes only. *)
Theorem alert_questions_answered (alerts answers : list string)
    (warn : list bool) (stdin : list string) :
  Forall2 (fun entry w => accepted_yes_no entry = Some w) answers warn ->
  length alerts = length answers ->
  main_alert_questions alerts (answers ++ stdin)
  = (Some tt, stdin, concat (zip_with alert_block alerts warn)).
Proof.
  intros Hanswers. revert alerts.
  induction Hanswers as [ | entry w answers warn Hentry _ IH ];
    intros [ | a alerts ] Hlen; try discriminate.
  - reflexivity.
  - cbn [main_alert_questions app].
    rewrite (prompt_yes_no_accepted _ _ _ _ Hentry).
    rewrite IH by (simpl in Hlen; lia).
    cbn [zip_with concat]. unfold alert_block at 2.
    rewrite <- !app_assoc. reflexivity.
Qed.

(** X24: when the input ends before every alert has its answer, the loop stops
    with the EOFError of [input]. *)
Theorem alert_questions_unanswered (alerts answers : list string)
    (warn : list bool) :
  Forall2 (fun entry w => accepted_yes_no entry = Some w) answers warn ->
  length answers < length alerts ->
  fst (fst (main_alert_questions alerts answers)) = None.
Proof.
  intros Hanswers. revert alerts.
  induction Hanswers as [ | entry w answers warn Hentry _ IH ];
    intros [ | a alerts ] Hlen; simpl in Hlen; try lia.
  - reflexivity.
  - cbn [main_alert_questions].
    rewrite (prompt_yes_no_accepted _ _ _ _ Hentry).
    specialize (IH alerts ltac:(lia)).
    destruct (main_alert_questions alerts answers) as [ [ done unread ] written ].
    exact IH.
Qed.

Lemma alert_questions_answered_witness :
  main_alert_questions [ "Kettle is high"; "Oven is high" ]
    ([ " Yes "; "n" ] ++ [ "later" ])
  = (Some tt, [ "later" ],
     [ Printed " - Kettle is high"; Asked (REDUCTION_QUESTION ++ " (y/n): ");
       Printed REDUCTION_WARNING;
       Printed " - Oven is high"; Asked (REDUCTION_QUESTION ++ " (y/n): ") ]).
Proof.
  apply (alert_questions_answered [ "Kettle is high"; "Oven is high" ]
           [ " Yes "; "n" ] [ true; false ] [ "later" ]).
  - repeat constructor.
  - reflexivity.
Defined.

Lemma alert_questions_unanswered_witness :
  fst (fst (main_alert_questions [ "Kettle is high"; "Oven is high" ] [ " Yes " ]))
  = None.
Proof.
  apply (alert_questions_unanswered [ "Kettle is high"; "Oven is high" ]
           [ " Yes " ] [ true ]).
  - repeat constructor.
  - simpl. lia.
Defined.
End AlertQuestions.
